(** * Batch normalization bricks and the [batch_normalize] graph rewriter

    A shallow embedding of [blocks/bricks/bn.py].  Python objects that are
    mutated in place (bricks, graph variables and their tags) are modelled
    by explicit state passing; exceptions by a sum type. *)

From Stdlib Require Import ZArith QArith.
From stdpp Require Import base option list strings pretty gmap.

Local Open Scope string_scope.
Local Open Scope list_scope.
Local Open Scope Z_scope.

(** ** Python values and exceptions *)

(** What can stand for a dimension: a Python int, [None] (written by the
    [image_size] and [num_channels] setters) or the [NoneAllocation]
    placeholder the [lazy] decorator fills in for an omitted argument. *)
Inductive pyval :=
  | PInt (z : Z)
  | PNone
  | PNoneAllocation.

(** [input_dim : int or tuple]. [Seq] is exactly what
    [isinstance(_, collections.Sequence)] accepts. *)
Inductive input_dim_t :=
  | Scalar (v : pyval)
  | Seq (l : list pyval).

(** The exceptions that occur.  A [ValueError] keeps its message, which
    the source gives where it raises one; of the exceptions the
    interpreter and the libraries raise only the class is kept.
    [NoSuchObject] is not Python's: it is what the store operations below
    answer for an identifier that names no object, which a Python
    reference never does. *)
Inductive exn :=
  | ValueError (msg : string)
  | TypeError
  | IterableLengthMismatch
  | AttributeError
  | IndexError
  | KeyError
  | AssertionError
  | NoSuchObject.

Definition result (A : Type) : Type := exn + A.
Definition ok {A} (a : A) : result A := inr a.
Definition raise {A} (e : exn) : result A := inl e.

Definition bind_result {A B} (r : result A) (k : A -> result B) : result B :=
  match r with
  | inl e => inl e
  | inr a => k a
  end.

Notation "'let*' x ':=' r 'in' k" := (bind_result r (fun x => k))
  (at level 10, x name, r at level 100, k at level 200).

Definition is_ok {A} (r : result A) : bool :=
  match r with inr _ => true | inl _ => false end.

(** ** Tensors, shared variables, initializers *)

(** A float: a literal or NaN. *)
Inductive scalar :=
  | NaN
  | Lit (q : Q).

Record ndarray := {
  nd_shape : list Z;
  nd_data : list scalar
}.

Inductive role :=
  | INPUT
  | WEIGHT
  | BIAS
  | BATCH_NORM_POPULATION_MEAN
  | BATCH_NORM_POPULATION_STDEV
  | BATCH_NORM_OFFSET
  | BATCH_NORM_DIVISOR
  | BATCH_NORM_MINIBATCH_ESTIMATE
  | OTHER_ROLE (name : string).

Global Instance role_eq_dec : EqDecision role.
Proof. solve_decision. Defined.

Record shared_variable := {
  sv_name : string;
  sv_value : ndarray;
  sv_broadcastable : list bool;
  sv_roles : list role
}.

Definition shape_size (shape : list Z) : nat :=
  Z.to_nat (foldr Z.mul 1 shape).

(** [picklable_itertools.extras.equizip]: [zip] that raises on iterables of
    different lengths. *)
Fixpoint equizip {A B} (xs : list A) (ys : list B) : result (list (A * B)) :=
  match xs, ys with
  | [], [] => ok []
  | x :: xs', y :: ys' => let* r := equizip xs' ys' in ok ((x, y) :: r)
  | _, _ => raise IterableLengthMismatch
  end.

(** numpy's array creation accepts a shape of non-negative ints only:
    anything else in the tuple is a [TypeError], a negative entry a
    [ValueError].  What numpy does with extents beyond what it can index
    or allocate is not modelled: arrays are lists of any length here. *)
Fixpoint np_ints (shape : list pyval) : result (list Z) :=
  match shape with
  | [] => ok []
  | PInt z :: r => let* zs := np_ints r in ok (z :: zs)
  | _ :: _ => raise TypeError
  end.

Definition np_full (v : scalar) (shape : list pyval) : result ndarray :=
  let* zs := np_ints shape in
  if forallb (fun z => 0 <=? z) zs
  then ok {| nd_shape := zs; nd_data := replicate (shape_size zs) v |}
  else raise (ValueError "negative dimensions are not allowed").

Definition np_zeros := np_full (Lit 0).
Definition np_ones := np_full (Lit 1).

(** A tensor type with a [broadcastable] pattern rejects a value of
    another rank, or of extent other than 1 along a broadcastable axis. *)
Definition pattern_fits (bs : list bool) (shape : list Z) : bool :=
  (length bs =? length shape)%nat &&
  forallb (fun '(b, z) => implb b (z =? 1)) (zip bs shape).

(** Modelled from the spec: [blocks.utils.shared_floatx] and its variants
    [shared_floatx_zeros] and [shared_floatx_nans], the "tensor creation"
    consumed from the host framework: a shared variable holding the given
    array, an array of zeros, an array of NaNs. *)
Definition shared_floatx (value : ndarray) (name : string)
    (broadcastable : list bool) : result shared_variable :=
  if pattern_fits broadcastable (nd_shape value)
  then ok {| sv_name := name; sv_value := value;
             sv_broadcastable := broadcastable; sv_roles := [] |}
  else raise TypeError.

Definition shared_floatx_zeros (shape : list pyval) (name : string)
    (broadcastable : list bool) : result shared_variable :=
  let* a := np_zeros shape in shared_floatx a name broadcastable.

Definition shared_floatx_nans (shape : list pyval) (name : string)
    (broadcastable : list bool) : result shared_variable :=
  let* a := np_full NaN shape in shared_floatx a name broadcastable.

(** Modelled from the spec: [blocks.roles.add_role], the "parameter role
    tagging": the role is appended unless it is there already. *)
Definition add_role_list (rs : list role) (r : role) : list role :=
  if bool_decide (r ∈ rs) then rs else rs ++ [r].

Definition add_role_shared (v : shared_variable) (r : role) : shared_variable :=
  {| sv_name := sv_name v; sv_value := sv_value v;
     sv_broadcastable := sv_broadcastable v;
     sv_roles := add_role_list (sv_roles v) r |}.

Definition rng_state := N.

(** Modelled from the spec: the "weight/bias initializer objects",
    [blocks.initialization.Constant] or any other object with a
    [generate(rng, shape)] method.  The generator handed to [generate] is
    a mutable object: a method that draws from it leaves it in another
    state, which the next user of the generator finds. *)
Inductive initializer :=
  | Constant (c : scalar)
  | Custom (gen : rng_state -> list Z -> list scalar * rng_state).

(** What [generate(rng, shape)] returns. *)
Definition generate (i : initializer) (rng : rng_state) (shape : list Z)
    : list scalar :=
  match i with
  | Constant c => replicate (shape_size shape) c
  | Custom gen => (gen rng shape).1
  end.

(** The state in which [generate(rng, shape)] leaves [rng]. *)
Definition generate_rng (i : initializer) (rng : rng_state) (shape : list Z)
    : rng_state :=
  match i with
  | Constant _ => rng
  | Custom gen => (gen rng shape).2
  end.

(** [initialize(var, rng)]: [var.set_value(self.generate(rng, shape))]. *)
Definition initialize (i : initializer) (var : shared_variable)
    (rng : rng_state) : shared_variable :=
  let shape := nd_shape (sv_value var) in
  {| sv_name := sv_name var;
     sv_value := {| nd_shape := shape; nd_data := generate i rng shape |};
     sv_broadcastable := sv_broadcastable var;
     sv_roles := sv_roles var |}.

(** The state in which [initialize(var, rng)] leaves [rng]. *)
Definition initialize_rng (i : initializer) (var : shared_variable)
    (rng : rng_state) : rng_state :=
  generate_rng i rng (nd_shape (sv_value var)).

(** ** class BatchNormalization *)

(** The keyword arguments the constructors understand.  The outer option
    says whether the keyword was passed at all, the inner one is Python's
    [None]. *)
Record kwargs := {
  kw_broadcastable : option (option (list bool));
  kw_save_memory : option bool;
  kw_weights_init : option (option initializer);
  kw_biases_init : option (option initializer)
}.

Definition no_kwargs : kwargs :=
  {| kw_broadcastable := None; kw_save_memory := None;
     kw_weights_init := None; kw_biases_init := None |}.

(** [kwargs.setdefault('broadcastable', v)] *)
Definition setdefault_broadcastable (kw : kwargs) (v : option (list bool))
    : kwargs :=
  {| kw_broadcastable :=
       match kw_broadcastable kw with
       | Some given => Some given
       | None => Some v
       end;
     kw_save_memory := kw_save_memory kw;
     kw_weights_init := kw_weights_init kw;
     kw_biases_init := kw_biases_init kw |}.

(** The entries of [self.parameters] are references to [self.W] and
    [self.b], not copies. *)
Inductive param_ref := ref_W | ref_b.

Module BatchNormalization.

Record t := {
  input_dim : input_dim_t;
  broadcastable : option (list bool);
  save_memory : bool;
  weights_init : initializer;
  biases_init : initializer;
  _W : option shared_variable;
  _b : option shared_variable;
  parameters : list param_ref;
  population_mean : option shared_variable;
  population_stdev : option shared_variable;
  rng : rng_state
}.

(** [@lazy(allocation=['input_dim'])]: an omitted [input_dim] reaches
    [__init__] as [NoneAllocation]. *)
Definition lazy (input_dim : option input_dim_t) : input_dim_t :=
  default (Scalar PNoneAllocation) input_dim.

Definition __init__ (input_dim : input_dim_t) (kw : kwargs)
    (rng : rng_state) : t :=
  {| input_dim := input_dim;
     broadcastable := mjoin (kw_broadcastable kw);
     save_memory := default true (kw_save_memory kw);
     weights_init :=
       match mjoin (kw_weights_init kw) with
       | None => Constant (Lit 1)
       | Some i => i
       end;
     biases_init :=
       match mjoin (kw_biases_init kw) with
       | None => Constant (Lit 0)
       | Some i => i
       end;
     _W := None; _b := None; parameters := [];
     population_mean := None; population_stdev := None;
     rng := rng |}.

(** The first statement of [_allocate]: an [input_dim] that is not a
    sequence becomes a 1-tuple. *)
Definition input_dim_tuple (self : t) : list pyval :=
  match input_dim self with
  | Scalar v => [v]
  | Seq l => l
  end.

Definition broadcastable_tuple (self : t) : list bool :=
  match broadcastable self with
  | None => replicate (length (input_dim_tuple self)) false
  | Some bs => bs
  end.

Definition same_length_msg : string :=
  "input_dim and broadcastable must be same length".

(** [(1,) + tuple(1 if broadcast else dim for dim, broadcast in
    equizip(input_dim, broadcastable))] *)
Definition var_dim (input_dim : list pyval) (broadcastable : list bool)
    : result (list pyval) :=
  let* pairs := equizip input_dim broadcastable in
  ok (PInt 1 :: map (fun '(dim, broadcast) =>
                       if broadcast : bool then PInt 1 else dim) pairs).

Definition _allocate (self : t) : result t :=
  let input_dim_ := input_dim_tuple self in
  let broadcastable_ := broadcastable_tuple self in
  if negb (length input_dim_ =? length broadcastable_)%nat
  then raise (ValueError same_length_msg)
  else
    let* var_dim_ := var_dim input_dim_ broadcastable_ in
    let broadcastable_ := true :: broadcastable_ in
    let* W := shared_floatx_nans var_dim_ "batch_norm_scale" broadcastable_ in
    let* b := shared_floatx_nans var_dim_ "batch_norm_shift" broadcastable_ in
    let W := add_role_shared W WEIGHT in
    let b := add_role_shared b BIAS in
    let* mean :=
      shared_floatx_zeros var_dim_ "population_mean" broadcastable_ in
    let* ones := np_ones var_dim_ in
    let* stdev := shared_floatx ones "population_stdev" broadcastable_ in
    ok {| input_dim := input_dim self;
          broadcastable := broadcastable self;
          save_memory := save_memory self;
          weights_init := weights_init self;
          biases_init := biases_init self;
          _W := Some W; _b := Some b;
          parameters := parameters self ++ [ref_W; ref_b];
          population_mean :=
            Some (add_role_shared mean BATCH_NORM_POPULATION_MEAN);
          population_stdev :=
            Some (add_role_shared stdev BATCH_NORM_POPULATION_STDEV);
          rng := rng self |}.

(** [self.input_dim = dim] *)
Definition set_input_dim (self : t) (dim : input_dim_t) : t :=
  {| input_dim := dim;
     broadcastable := broadcastable self;
     save_memory := save_memory self;
     weights_init := weights_init self;
     biases_init := biases_init self;
     _W := _W self; _b := _b self;
     parameters := parameters self;
     population_mean := population_mean self;
     population_stdev := population_stdev self;
     rng := rng self |}.

Definition W (self : t) := _W self.
Definition b (self : t) := _b self.

(** [_initialize]: [self.b] and [self.W] exist once [_allocate] ran; on
    a brick that was not allocated the attribute lookup fails.  The shift
    is initialized first, and the scale with the generator as the first
    call left it. *)
Definition _initialize (self : t) : result t :=
  match b self, W self with
  | Some b_, Some W_ =>
      let rng1 := initialize_rng (biases_init self) b_ (rng self) in
      ok {| input_dim := input_dim self;
            broadcastable := broadcastable self;
            save_memory := save_memory self;
            weights_init := weights_init self;
            biases_init := biases_init self;
            _W := Some (initialize (weights_init self) W_ rng1);
            _b := Some (initialize (biases_init self) b_ (rng self));
            parameters := parameters self;
            population_mean := population_mean self;
            population_stdev := population_stdev self;
            rng := initialize_rng (weights_init self) W_ rng1 |}
  | _, _ => raise AttributeError
  end.

(** [output_dim], needed for the [Feedforward] interface. *)
Definition output_dim (self : t) : input_dim_t := input_dim self.

(** [l[-2:]] *)
Definition last_two {A} (l : list A) : list A := drop (length l - 2) l.

Definition not_subscriptable : exn :=
  TypeError.

Definition index_out_of_range : exn :=
  IndexError.

(** The [image_size] property: [self.input_dim[-2:]]. *)
Definition image_size (self : t) : result (list pyval) :=
  match input_dim self with
  | Seq l => ok (last_two l)
  | Scalar _ => raise not_subscriptable
  end.

(** The [image_size] setter; [value] is any iterable, here its items. *)
Definition set_image_size (self : t) (value : list pyval) : result t :=
  match input_dim self with
  | Scalar _ => ok (set_input_dim self (Seq (PNone :: value)))
  | Seq [] => raise index_out_of_range
  | Seq (channels :: _) => ok (set_input_dim self (Seq (channels :: value)))
  end.

(** The [num_channels] property: [self.input_dim[0]]. *)
Definition num_channels (self : t) : result pyval :=
  match input_dim self with
  | Seq (channels :: _) => ok channels
  | Seq [] => raise index_out_of_range
  | Scalar _ => raise not_subscriptable
  end.

(** The [num_channels] setter. *)
Definition set_num_channels (self : t) (value : pyval) : t :=
  match input_dim self with
  | Scalar _ => set_input_dim self (Seq [value; PNone; PNone])
  | Seq l => set_input_dim self (Seq (value :: last_two l))
  end.

Definition get_dim (self : t) (name : string) : result input_dim_t :=
  if bool_decide (name = "input") || bool_decide (name = "output")
  then ok (input_dim self)
  else raise KeyError.

Definition num_output_channels (self : t) : result pyval := num_channels self.

End BatchNormalization.

(** ** class SpatialBatchNormalization *)

Module SpatialBatchNormalization.

Definition too_short_msg : string :=
  "expected input_dim to be length >= 2 (channels, height, width)".

Definition __init__ (input_dim : input_dim_t) (kw : kwargs)
    (rng : rng_state) : result BatchNormalization.t :=
  match input_dim with
  | Scalar _ => raise (ValueError too_short_msg)
  | Seq l =>
      if (length l <? 2)%nat
      then raise (ValueError too_short_msg)
      else
        let broadcastable :=
          false :: replicate (length l - 1) true in
        let kw := setdefault_broadcastable kw (Some broadcastable) in
        ok (BatchNormalization.__init__ input_dim kw rng)
  end.

End SpatialBatchNormalization.

(** ** class BatchNormalizedMLP *)

(** The bricks an MLP is made of.  [children] of a [Sequence] are the
    bricks whose application methods it was given. *)
#[warnings="-register-all"]
Inductive brick :=
  | ActivationBrick (name : string)
  | BatchNormalizationBrick (bn : BatchNormalization.t)
  | SequenceBrick (name : string) (children : list brick).

Record Linear := {
  lin_name : string;
  lin_input_dim : pyval;
  lin_output_dim : pyval;
  lin_use_bias : bool
}.

Module MLP.

Record t := {
  activations : list brick;
  linear_transformations : list Linear;
  dims : list pyval;
  use_bias : bool;
  rng : rng_state
}.

(** Modelled from the spec: the "MLP composition base class"
    [blocks.bricks.MLP].  It keeps the activations it is given, creates one
    [Linear] brick per activation, and, like every [Initializable] brick,
    takes [use_bias] as a keyword that defaults to [True]. *)
Definition __init__ (activations : list brick) (dims : list pyval)
    (kw_use_bias : option bool) (rng : rng_state) : t :=
  {| activations := activations;
     linear_transformations :=
       imap (fun i _ => {| lin_name := "linear_" +:+ pretty i;
                           lin_input_dim := PNoneAllocation;
                           lin_output_dim := PNoneAllocation;
                           lin_use_bias := true |}) activations;
     dims := dims;
     use_bias := default true kw_use_bias;
     rng := rng |}.

(** Modelled from the spec: "shape propagation" in [blocks.bricks.MLP]:
    the i-th linear layer maps [dims[i]] to [dims[i+1]] and receives the
    MLP's [use_bias]; a [dims] of the wrong length is a [ValueError]. *)
Definition _push_allocation_config (self : t) : result t :=
  if negb (Z.of_nat (length (dims self)) - 1
           =? Z.of_nat (length (linear_transformations self)))
  then raise (ValueError "")
  else
    let* io := equizip (take (length (dims self) - 1) (dims self))
                       (drop 1 (dims self)) in
    let* layers := equizip io (linear_transformations self) in
    ok {| activations := activations self;
          linear_transformations :=
            map (fun '((input_dim, output_dim), layer) =>
                   {| lin_name := lin_name layer;
                      lin_input_dim := input_dim;
                      lin_output_dim := output_dim;
                      lin_use_bias := use_bias self |}) layers;
          dims := dims self;
          use_bias := use_bias self;
          rng := rng self |}.

End MLP.

Module BatchNormalizedMLP.

(** [BatchNormalization()]: every argument left to [lazy] and the
    defaults. *)
Definition fresh_batch_normalization (rng : rng_state) : BatchNormalization.t :=
  BatchNormalization.__init__ (BatchNormalization.lazy None) no_kwargs rng.

Definition __init__ (activations : list brick) (dims : list pyval)
    (kw_use_bias : option bool) (rng : rng_state) : MLP.t :=
  let activations :=
    imap (fun i act =>
            SequenceBrick ("batch_norm_activation_" +:+ pretty i)
              [BatchNormalizationBrick (fresh_batch_normalization rng); act])
         activations in
  (* kwargs.setdefault('use_bias', False) *)
  let kw_use_bias :=
    match kw_use_bias with
    | Some given => Some given
    | None => Some false
    end in
  MLP.__init__ activations dims kw_use_bias rng.

(** [act.children[0].input_dim = dim] *)
Definition set_first_child_input_dim (act : brick) (dim : pyval)
    : result brick :=
  match act with
  | SequenceBrick name (BatchNormalizationBrick bn :: rest) =>
      ok (SequenceBrick name
            (BatchNormalizationBrick
               (BatchNormalization.set_input_dim bn (Scalar dim))
             :: rest))
  | SequenceBrick name (_ :: _) =>
      (* any other brick merely gains an attribute the model does not track *)
      ok act
  | SequenceBrick _ [] | ActivationBrick _ | BatchNormalizationBrick _ =>
      raise IndexError
  end.

Fixpoint set_input_dims (pairs : list (brick * pyval)) : result (list brick) :=
  match pairs with
  | [] => ok []
  | (act, dim) :: rest =>
      let* act' := set_first_child_input_dim act dim in
      let* rest' := set_input_dims rest in
      ok (act' :: rest')
  end.

Definition _push_allocation_config (self : MLP.t) : result MLP.t :=
  let* self := MLP._push_allocation_config self in
  let* pairs := equizip (MLP.activations self) (drop 1 (MLP.dims self)) in
  let* activations := set_input_dims pairs in
  ok {| MLP.activations := activations;
        MLP.linear_transformations := MLP.linear_transformations self;
        MLP.dims := MLP.dims self;
        MLP.use_bias := MLP.use_bias self;
        MLP.rng := MLP.rng self |}.

End BatchNormalizedMLP.

(** ** Computation graphs *)

(** Graph variables, bricks and application calls are Python objects
    compared by identity.  Variables live in a store and are named by their
    index in it; a brick or an application call is never mutated here and is
    a value carrying its identity. *)
Abbreviation var_id := nat.

Record Brick := {
  brick_id : nat;
  (** [isinstance(brick, BatchNormalization)] *)
  brick_is_batch_normalization : bool
}.

Record ApplicationCall := {
  call_id : nat;
  (** [application_call.application.brick] *)
  call_brick : Brick
}.

Global Instance Brick_eq_dec : EqDecision Brick.
Proof. solve_decision. Defined.

Global Instance ApplicationCall_eq_dec : EqDecision ApplicationCall.
Proof. solve_decision. Defined.

Global Instance ApplicationCall_countable : Countable ApplicationCall.
Proof.
  refine (inj_countable'
            (fun c => (call_id c, brick_id (call_brick c),
                       brick_is_batch_normalization (call_brick c)))
            (fun '(i, j, b) =>
               {| call_id := i;
                  call_brick := {| brick_id := j;
                                   brick_is_batch_normalization := b |} |}) _).
  by intros [i [j b]].
Defined.

Inductive annotation :=
  | ABrick (b : Brick)
  | ACall (c : ApplicationCall)
  | ANone.

Inductive op :=
  | Mean (axes : list nat) (keepdims : bool)
  | Variance (axes : list nat) (keepdims : bool)
  | Add
  | Sqrt
  | OtherOp (name : string).

(** Where a variable comes from: a graph input or shared variable, a
    constant, or the application of an operation to other variables. *)
Inductive origin :=
  | Input
  | Const (c : scalar)
  | Apply (o : op) (inputs : list var_id).

Record tag_t := {
  roles : list role;
  annotations : list annotation;
  replacement_of : option var_id
}.

Record variable := {
  v_name : option string;
  v_origin : origin;
  v_broadcastable : list bool;
  v_tag : tag_t
}.

Abbreviation heap := (list variable).

(** A [ComputationGraph] keeps its outputs and the list of its variables,
    computed once when it is built. *)
Record ComputationGraph := {
  outputs : list var_id;
  variables : list var_id
}.

(** *** Stateful computations that may raise *)

Definition M (A : Type) : Type := heap -> heap * result A.

Definition ret {A} (a : A) : M A := fun h => (h, ok a).

Definition fail {A} (e : exn) : M A := fun h => (h, raise e).

Definition bind {A B} (m : M A) (k : A -> M B) : M B :=
  fun h =>
    match m h with
    | (h', inr a) => k a h'
    | (h', inl e) => (h', inl e)
    end.

Notation "'let!' x ':=' m 'in' k" := (bind m (fun x => k))
  (at level 10, x name, m at level 100, k at level 200).

(** A new object: its identity is the next free index. *)
Definition alloc (x : variable) : M var_id :=
  fun h => (h ++ [x], ok (length h)).

Definition read (v : var_id) : M variable :=
  fun h =>
    match h !! v with
    | Some x => (h, ok x)
    | None => (h, raise NoSuchObject)
    end.

(** In-place mutation of the object [v]. *)
Definition update (v : var_id) (f : variable -> variable) : M unit :=
  fun h =>
    match h !! v with
    | Some x => (<[v := f x]> h, ok tt)
    | None => (h, raise NoSuchObject)
    end.

Definition lift_option {A} (e : exn) (o : option A) : M A :=
  match o with
  | Some a => ret a
  | None => fail e
  end.

(** *** Tags *)

Definition empty_tag : tag_t :=
  {| roles := []; annotations := []; replacement_of := None |}.

Definition with_tag (f : tag_t -> tag_t) (x : variable) : variable :=
  {| v_name := v_name x; v_origin := v_origin x;
     v_broadcastable := v_broadcastable x; v_tag := f (v_tag x) |}.

Definition set_name (n : string) (x : variable) : variable :=
  {| v_name := Some n; v_origin := v_origin x;
     v_broadcastable := v_broadcastable x; v_tag := v_tag x |}.

Definition add_role (r : role) : variable -> variable :=
  with_tag (fun t => {| roles := add_role_list (roles t) r;
                        annotations := annotations t;
                        replacement_of := replacement_of t |}).

(** Modelled from the spec: [blocks.graph.add_annotation], the
    "annotation" metadata: the annotation is appended to the variable's
    list. *)
Definition add_annotation (a : annotation) : variable -> variable :=
  with_tag (fun t => {| roles := roles t;
                        annotations := annotations t ++ [a];
                        replacement_of := replacement_of t |}).

Definition set_replacement_of (old : var_id) : variable -> variable :=
  with_tag (fun t => {| roles := roles t;
                        annotations := annotations t;
                        replacement_of := Some old |}).

(** Modelled from the spec: [blocks.filter.get_brick] and
    [get_application_call]: the first annotation of the kind asked for. *)
Fixpoint get_brick_of (ans : list annotation) : option Brick :=
  match ans with
  | [] => None
  | ABrick b :: _ => Some b
  | _ :: rest => get_brick_of rest
  end.

Fixpoint get_application_call_of (ans : list annotation)
    : option ApplicationCall :=
  match ans with
  | [] => None
  | ACall c :: _ => Some c
  | _ :: rest => get_application_call_of rest
  end.

Definition get_application_call (h : heap) (v : var_id)
    : option ApplicationCall :=
  x ← h !! v; get_application_call_of (annotations (v_tag x)).

(** Modelled from the spec: [VariableFilter(bricks=[BatchNormalization],
    roles=[role])]: the variables that carry the role and whose brick is a
    [BatchNormalization]. *)
Definition selected (r : role) (x : variable) : bool :=
  bool_decide (r ∈ roles (v_tag x))
  && match get_brick_of (annotations (v_tag x)) with
     | Some b => brick_is_batch_normalization b
     | None => false
     end.

Definition variable_filter (r : role) (h : heap) (vars : list var_id)
    : list var_id :=
  List.filter (fun v => match h !! v with
                        | Some x => selected r x
                        | None => false
                        end) vars.

(** *** [collections.OrderedDict] *)

Section OrderedDict.
Context {K V : Type} `{EqDecision K}.

(** [d[k] = v]: a key already there keeps its place. *)
Fixpoint od_set (d : list (K * V)) (k : K) (v : V) : list (K * V) :=
  match d with
  | [] => [(k, v)]
  | (k', v') :: rest =>
      if decide (k = k') then (k, v) :: rest else (k', v') :: od_set rest k v
  end.

Fixpoint od_get (d : list (K * V)) (k : K) : option V :=
  match d with
  | [] => None
  | (k', v') :: rest => if decide (k = k') then Some v' else od_get rest k
  end.

Definition OrderedDict (pairs : list (K * V)) : list (K * V) :=
  foldl (fun d '(k, v) => od_set d k v) [] pairs.

End OrderedDict.

(** *** Symbolic tensor operations *)

(** [tuple(i for i, b in enumerate(bs) if b)] *)
Fixpoint true_indices_from (i : nat) (bs : list bool) : list nat :=
  match bs with
  | [] => []
  | b :: rest =>
      if b then i :: true_indices_from (S i) rest
      else true_indices_from (S i) rest
  end.

Definition true_indices := true_indices_from 0.

(** The pattern of a reduction over [axes]: with [keepdims] the reduced
    axes stay, with extent 1; without, they are dropped. *)
Definition reduced_pattern (axes : list nat) (keepdims : bool)
    (bs : list bool) : list bool :=
  if keepdims
  then imap (fun i b => bool_decide (i ∈ axes) || b) bs
  else imap (fun i b => if bool_decide (i ∈ axes) then [] else [b]) bs
       ≫= id.

Definition fresh_variable (o : origin) (bs : list bool) : variable :=
  {| v_name := None; v_origin := o; v_broadcastable := bs;
     v_tag := empty_tag |}.

(** [x.mean(axis=axes, keepdims=keepdims)].  The node is recorded for any
    axes: the check of the axes against the rank of [x], which Theano makes
    when it builds the node, is not modelled (see [statistics_fit]). *)
Definition tensor_mean (x : var_id) (axes : list nat) (keepdims : bool)
    : M var_id :=
  let! xv := read x in
  alloc (fresh_variable (Apply (Mean axes keepdims) [x])
           (reduced_pattern axes keepdims (v_broadcastable xv))).

(** [tensor.var(x, axis=axes, keepdims=keepdims)], recorded for any axes
    like the mean. *)
Definition tensor_var (x : var_id) (axes : list nat) (keepdims : bool)
    : M var_id :=
  let! xv := read x in
  alloc (fresh_variable (Apply (Variance axes keepdims) [x])
           (reduced_pattern axes keepdims (v_broadcastable xv))).

(** [x + c] for a Python float [c], which becomes a constant of the graph. *)
Definition tensor_add_constant (x : var_id) (c : scalar) : M var_id :=
  let! xv := read x in
  let! cv := alloc (fresh_variable (Const c) []) in
  alloc (fresh_variable (Apply Add [x; cv]) (v_broadcastable xv)).

(** [tensor.sqrt(x)] *)
Definition tensor_sqrt (x : var_id) : M var_id :=
  let! xv := read x in
  alloc (fresh_variable (Apply Sqrt [x]) (v_broadcastable xv)).

(** *** [ComputationGraph.replace] *)

Definition inputs_of (x : variable) : list var_id :=
  match v_origin x with
  | Apply _ ins => ins
  | _ => []
  end.

(** The variables a variable is computed from, inputs first. *)
Fixpoint ancestors (fuel : nat) (h : heap) (seen : list var_id) (v : var_id)
    : list var_id :=
  if bool_decide (v ∈ seen) then seen
  else
    match fuel with
    | O => seen ++ [v]
    | S fuel' =>
        let ins := from_option inputs_of [] (h !! v) in
        foldl (ancestors fuel' h) seen ins ++ [v]
    end.

(** [ComputationGraph(outputs)] *)
Definition ComputationGraph_of (outs : list var_id) : M ComputationGraph :=
  fun h =>
    (h, ok {| outputs := outs;
              variables := foldl (ancestors (length h) h) [] outs |}).

Definition substitute (m : gmap var_id var_id) (v : var_id) : var_id :=
  default v (m !! v).

(** One variable of the old graph: a replaced variable stands for its
    replacement, an input or constant is shared with the old graph, and an
    applied operation is copied, tag included, onto the new inputs. *)
Definition clone_variable (repl m : gmap var_id var_id) (v : var_id)
    : M (gmap var_id var_id) :=
  match repl !! v with
  | Some new => ret (<[v := new]> m)
  | None =>
      let! xv := read v in
      match v_origin xv with
      | Apply o ins =>
          let! copy := alloc {| v_name := v_name xv;
                                v_origin := Apply o (substitute m <$> ins);
                                v_broadcastable := v_broadcastable xv;
                                v_tag := v_tag xv |} in
          ret (<[v := copy]> m)
      | _ => ret m
      end
  end.

Fixpoint clone_variables (repl m : gmap var_id var_id) (vars : list var_id)
    : M (gmap var_id var_id) :=
  match vars with
  | [] => ret m
  | v :: rest =>
      let! m := clone_variable repl m v in
      clone_variables repl m rest
  end.

(** Modelled from the spec: [ComputationGraph.replace], the 'graph
    "replace" operation returning a new graph with substitutions applied':
    the variables of the graph are copied in their (topological) order with
    every replaced variable exchanged for its replacement, which is used as
    it is, and a new graph is built on the images of the outputs.  As in a
    dictionary built from the pairs, the last replacement given for a
    variable counts. *)
Definition replace (cg : ComputationGraph)
    (replacements : list (var_id * var_id)) : M ComputationGraph :=
  let! m := clone_variables (list_to_map (reverse replacements)) ∅
              (variables cg) in
  ComputationGraph_of (substitute m <$> outputs cg).

(** ** batch_normalize *)

Definition default_epsilon : scalar := Lit (1 # 10000).

(** [get_application_call_dict(variable_filter)] *)
Definition get_application_call_dict (r : role) (h : heap)
    (computation_graph : ComputationGraph)
    : list (option ApplicationCall * var_id) :=
  OrderedDict
    (map (fun v => (get_application_call h v, v))
         (variable_filter r h (variables computation_graph))).

Definition same_keys (d1 d2 : list (option ApplicationCall * var_id)) : bool :=
  bool_decide (list_to_set d1.*1 =@{gset (option ApplicationCall)}
               list_to_set d2.*1).

Definition isdisjoint (vs1 vs2 : list var_id) : bool :=
  bool_decide (list_to_set vs1 ##@{gset var_id} list_to_set vs2).

(** The nested function [prepare_replacement]; the list it appends to is
    passed in and returned. *)
Definition prepare_replacement (replacements : list (var_id * var_id))
    (old new : var_id) (r : role)
    (application_call : option ApplicationCall)
    : M (list (var_id * var_id)) :=
  let! _ := update new (add_role BATCH_NORM_MINIBATCH_ESTIMATE) in
  let! _ := update new (add_role r) in
  let! _ := update new (add_annotation
                     (from_option ACall ANone application_call)) in
  match application_call with
  | None =>
      (* None.application *)
      fail AttributeError
  | Some call =>
      let! _ := update new (add_annotation (ABrick (call_brick call))) in
      let! _ := update new (set_replacement_of old) in
      ret (replacements ++ [(old, new)])
  end.

Section batch_normalize.
Variables (means stdevs inputs : list (option ApplicationCall * var_id)).
Variable epsilon : scalar.

(** The body of [for application_call in means]. *)
Definition replace_statistics (replacements : list (var_id * var_id))
    (application_call : option ApplicationCall)
    : M (list (var_id * var_id)) :=
  let! mean := lift_option KeyError (od_get means application_call) in
  let! mean_var := read mean in
  let axes := true_indices (v_broadcastable mean_var) in
  let! input := lift_option KeyError (od_get inputs application_call) in
  let! minibatch_mean := tensor_mean input axes true in
  let! _ := update minibatch_mean (set_name "minibatch_offset") in
  let! variance := tensor_var input axes true in
  let! stabilized := tensor_add_constant variance epsilon in
  let! minibatch_std := tensor_sqrt stabilized in
  let! _ := update minibatch_std (set_name "minibatch_divisor") in
  let! replacements := prepare_replacement replacements mean minibatch_mean
                    BATCH_NORM_OFFSET application_call in
  let! stdev := lift_option KeyError (od_get stdevs application_call) in
  prepare_replacement replacements stdev minibatch_std
    BATCH_NORM_DIVISOR application_call.

Fixpoint for_each_call (replacements : list (var_id * var_id))
    (calls : list (option ApplicationCall)) : M (list (var_id * var_id)) :=
  match calls with
  | [] => ret replacements
  | application_call :: rest =>
      let! replacements := replace_statistics replacements application_call in
      for_each_call replacements rest
  end.

End batch_normalize.

(** Everything in [batch_normalize] before its [return]: the list
    [replacements]. *)
Definition batch_normalize_replacements
    (computation_graph : ComputationGraph) (epsilon : scalar)
    : M (list (var_id * var_id)) :=
  fun h =>
    let means :=
      get_application_call_dict BATCH_NORM_OFFSET h computation_graph in
    let stdevs :=
      get_application_call_dict BATCH_NORM_DIVISOR h computation_graph in
    let inputs := get_application_call_dict INPUT h computation_graph in
    if negb (same_keys means stdevs && same_keys means inputs)
    then (h, raise AssertionError)
    else if negb (isdisjoint means.*2 stdevs.*2)
    then (h, raise AssertionError)
    else for_each_call means stdevs inputs epsilon [] means.*1 h.

Definition batch_normalize (computation_graph : ComputationGraph)
    (epsilon : option scalar) : M ComputationGraph :=
  let! replacements := batch_normalize_replacements computation_graph
                    (default default_epsilon epsilon) in
  replace computation_graph replacements.

(** ** BatchNormalization.apply *)

(** A brick as a graph sees it: its identity and the variables of the
    store that are its shared variables. *)
Record graph_brick := {
  gb_brick : Brick;
  gb_save_memory : bool;
  gb_W : var_id;
  gb_b : var_id;
  gb_population_mean : var_id;
  gb_population_stdev : var_id
}.

(** [x.copy(name=name)]: a new variable of the same type. *)
Definition tensor_copy (x : var_id) (name : string) : M var_id :=
  let! xv := read x in
  alloc {| v_name := Some name;
           v_origin := Apply (OtherOp "copy") [x];
           v_broadcastable := v_broadcastable xv;
           v_tag := empty_tag |}.

(** The nested function [annotate]. *)
Definition annotate (self : Brick) (application_call : ApplicationCall)
    (var : var_id) (r : role) : M unit :=
  let! _ := update var (add_role r) in
  let! _ := update var (add_annotation (ABrick self)) in
  update var (add_annotation (ACall application_call)).

(** An elementwise operation of Theano on tensors of one rank: the result
    is broadcastable along an axis when all arguments are. *)
Fixpoint read_all (vs : list var_id) : M (list variable) :=
  match vs with
  | [] => ret []
  | v :: rest =>
      let! x := read v in
      let! xs := read_all rest in
      ret (x :: xs)
  end.

Definition elemwise_pattern (xs : list variable) : list bool :=
  match v_broadcastable <$> xs with
  | [] => []
  | pattern :: patterns => foldr (zip_with andb) pattern patterns
  end.

Definition elemwise (o : op) (args : list var_id) : M var_id :=
  let! xs := read_all args in
  alloc (fresh_variable (Apply o args) (elemwise_pattern xs)).

(** The two values of [mode] that [apply] passes. *)
Inductive bn_mode := low_mem | high_mem.

(** [bn.batch_normalization(inputs, gamma, beta, mean, std, mode)]: with
    ['low_mem'] one composite elementwise operation on
    [(inputs, mean, std, gamma, beta)], with ['high_mem'] the expression
    [(inputs - mean) * (gamma / std) + beta], one variable for each of its
    four operations. *)
Definition batch_normalization (inputs gamma beta mean std : var_id)
    (mode : bn_mode) : M var_id :=
  match mode with
  | low_mem => elemwise (OtherOp "BNComposite") [inputs; mean; std; gamma; beta]
  | high_mem =>
      let! centered := elemwise (OtherOp "sub") [inputs; mean] in
      let! scale := elemwise (OtherOp "true_div") [gamma; std] in
      let! scaled := elemwise (OtherOp "mul") [centered; scale] in
      elemwise Add [scaled; beta]
  end.

(** The body of [apply].  The [application] decorator, which makes the
    application call and tags [input_], is not part of it. *)
Definition BatchNormalization_apply (self : graph_brick) (input_ : var_id)
    (application_call : ApplicationCall) : M var_id :=
  let! mean := tensor_copy (gb_population_mean self) "population_offset" in
  let! stdev := tensor_copy (gb_population_stdev self) "population_divisor" in
  let! _ := annotate (gb_brick self) application_call mean
              BATCH_NORM_OFFSET in
  let! _ := annotate (gb_brick self) application_call stdev
              BATCH_NORM_DIVISOR in
  batch_normalization input_ (gb_W self) (gb_b self) mean stdev
    (if gb_save_memory self then low_mem else high_mem).

(** * Vocabulary of the specification *)

Import BatchNormalization.

(** ** Shapes and masks *)

(** The shape [_allocate] computes: a batch axis of extent 1, then each
    input axis, collapsed to 1 where it is averaged over. *)
Definition collapsed (dims : list pyval) (mask : list bool) : list pyval :=
  PInt 1
  :: zip_with (fun dim (b : bool) => if b then PInt 1 else dim) dims mask.

Definition valid_extent (d : pyval) : bool :=
  match d with PInt z => 0 <=? z | _ => false end.

(** What [_allocate] builds from a shape of valid extents. *)
Definition allocated_variable (name : string) (fill : scalar)
    (zs : list Z) (mask : list bool) (rs : list role) : shared_variable :=
  {| sv_name := name;
     sv_value := {| nd_shape := zs;
                    nd_data := replicate (shape_size zs) fill |};
     sv_broadcastable := true :: mask;
     sv_roles := rs |}.

Definition spatial_mask (l : list pyval) : list bool :=
  false :: replicate (length l - 1) true.

Definition at_least_two_axes (d : input_dim_t) : Prop :=
  exists l, d = Seq l /\ (2 <= length l)%nat.

Definition wrapped_name (i : nat) : string :=
  "batch_norm_activation_" +:+ pretty i.

(** ** What a run of batch_normalize adds to the store *)

(** What [prepare_replacement] makes of the new variable. *)
Definition prepared (old : var_id) (r : role) (call : ApplicationCall)
    (x : variable) : variable :=
  set_replacement_of old
    (add_annotation (ABrick (call_brick call))
       (add_annotation (ACall call)
          (add_role r (add_role BATCH_NORM_MINIBATCH_ESTIMATE x)))).

(** The five variables one turn of the loop adds to a store of [n]
    objects: the minibatch mean, then the variance, the constant epsilon,
    their sum and its square root, the minibatch standard deviation. *)
Definition statistics_block (call : ApplicationCall)
    (mean stdev input : var_id) (mean_var input_var : variable)
    (epsilon : scalar) (n : nat) : list variable :=
  let axes := true_indices (v_broadcastable mean_var) in
  let pattern := reduced_pattern axes true (v_broadcastable input_var) in
  [ prepared mean BATCH_NORM_OFFSET call
      (set_name "minibatch_offset"
         (fresh_variable (Apply (Mean axes true) [input]) pattern));
    fresh_variable (Apply (Variance axes true) [input]) pattern;
    fresh_variable (Const epsilon) [];
    fresh_variable (Apply Add [(n + 1)%nat; (n + 2)%nat]) pattern;
    prepared stdev BATCH_NORM_DIVISOR call
      (set_name "minibatch_divisor"
         (fresh_variable (Apply Sqrt [(n + 3)%nat]) pattern)) ].

(** The variables as they are once both statistics are built and named,
    before [prepare_replacement] tags them. *)
Definition untagged_block (epsilon : scalar) (input : var_id)
    (mean_var input_var : variable)
    (n : nat) : list variable :=
  let axes := true_indices (v_broadcastable mean_var) in
  let pattern := reduced_pattern axes true (v_broadcastable input_var) in
  [ set_name "minibatch_offset"
      (fresh_variable (Apply (Mean axes true) [input]) pattern);
    fresh_variable (Apply (Variance axes true) [input]) pattern;
    fresh_variable (Const epsilon) [];
    fresh_variable (Apply Add [(n + 1)%nat; (n + 2)%nat]) pattern;
    set_name "minibatch_divisor"
      (fresh_variable (Apply Sqrt [(n + 3)%nat]) pattern) ].

Section statistics.
Variables (means stdevs inputs : list (option ApplicationCall * var_id)).
Variable epsilon : scalar.

(** A turn of the loop goes through for an application call that is not
    [None] and for which the three dictionaries name variables of the
    store. *)
Definition processable (h : heap) (application_call : option ApplicationCall)
    : Prop :=
  exists call mean stdev input mean_var input_var,
    application_call = Some call
    /\ od_get means application_call = Some mean
    /\ h !! mean = Some mean_var
    /\ od_get inputs application_call = Some input
    /\ h !! input = Some input_var
    /\ od_get stdevs application_call = Some stdev.

Definition block_of (h : heap) (n : nat)
    (application_call : option ApplicationCall) : list variable :=
  match application_call, od_get means application_call,
        od_get stdevs application_call, od_get inputs application_call with
  | Some call, Some mean, Some stdev, Some input =>
      match h !! mean, h !! input with
      | Some mean_var, Some input_var =>
          statistics_block call mean stdev input mean_var input_var epsilon n
      | _, _ => []
      end
  | _, _, _, _ => []
  end.

Definition pairs_of (n : nat) (application_call : option ApplicationCall)
    : list (var_id * var_id) :=
  match od_get means application_call, od_get stdevs application_call with
  | Some mean, Some stdev => [(mean, n); (stdev, (n + 4)%nat)]
  | _, _ => []
  end.

Fixpoint statistics_blocks (h : heap) (n : nat)
    (calls : list (option ApplicationCall)) : list variable :=
  match calls with
  | [] => []
  | application_call :: rest =>
      block_of h n application_call ++ statistics_blocks h (n + 5) rest
  end.

Fixpoint statistics_replacements (n : nat)
    (calls : list (option ApplicationCall)) : list (var_id * var_id) :=
  match calls with
  | [] => []
  | application_call :: rest =>
      pairs_of n application_call ++ statistics_replacements (n + 5) rest
  end.

End statistics.

(** ** Graphs and assertions *)

(** Every variable of the graph is an object of the store. *)
Definition valid_graph (h : heap) (cg : ComputationGraph) : Prop :=
  Forall (fun v => (v < length h)%nat) (variables cg).

(** The two assertions of [batch_normalize]. *)
Definition assertions_hold (computation_graph : ComputationGraph) (h : heap)
    : bool :=
  same_keys (get_application_call_dict BATCH_NORM_OFFSET h computation_graph)
    (get_application_call_dict BATCH_NORM_DIVISOR h computation_graph)
  && same_keys (get_application_call_dict BATCH_NORM_OFFSET h computation_graph)
       (get_application_call_dict INPUT h computation_graph)
  && isdisjoint
       (get_application_call_dict BATCH_NORM_OFFSET h computation_graph).*2
       (get_application_call_dict BATCH_NORM_DIVISOR h computation_graph).*2.

(** The application calls that own a variable with role [r] of a batch
    normalization brick. *)
Definition owners (r : role) (h : heap) (cg : ComputationGraph)
    : list (option ApplicationCall) :=
  get_application_call h <$> variable_filter r h (variables cg).

Definition same_owners (h : heap) (cg : ComputationGraph) : Prop :=
  (forall c, c ∈ owners BATCH_NORM_OFFSET h cg
             <-> c ∈ owners BATCH_NORM_DIVISOR h cg)
  /\ (forall c, c ∈ owners BATCH_NORM_OFFSET h cg
                <-> c ∈ owners INPUT h cg).

(** A variable that is both offset and divisor of batch normalization
    bricks. *)
Definition offset_and_divisor (h : heap) (cg : ComputationGraph) (v : var_id)
    : Prop :=
  v ∈ variable_filter BATCH_NORM_OFFSET h (variables cg)
  /\ v ∈ variable_filter BATCH_NORM_DIVISOR h (variables cg).

(** The graphs [batch_normalize] is meant for: the same application calls
    own offsets, divisors and inputs, and no variable is both offset and
    divisor. *)
Definition well_formed (h : heap) (cg : ComputationGraph) : Prop :=
  same_owners h cg /\ forall v, ~ offset_and_divisor h cg v.

(** ** Expressions *)

(** The expression a variable stands for, over the variables that were
    there before ([Old]): a variable made since is unfolded into its node,
    stripped of the identities of its inputs, and the expressions of its
    inputs. *)
#[warnings="-register-all"]
Inductive expr :=
  | Old (v : var_id)
  | Cut
  | New (node : variable) (args : list expr).

Definition erase_inputs (x : variable) : variable :=
  {| v_name := v_name x;
     v_origin := match v_origin x with
                 | Apply o _ => Apply o []
                 | o => o
                 end;
     v_broadcastable := v_broadcastable x;
     v_tag := v_tag x |}.

Fixpoint expr_of (base : nat) (h : heap) (fuel : nat) (v : var_id) : expr :=
  if (v <? base)%nat then Old v
  else
    match fuel with
    | O => Cut
    | S fuel' =>
        match h !! v with
        | None => Cut
        | Some x =>
            New (erase_inputs x) (expr_of base h fuel' <$> inputs_of x)
        end
    end.

(** Two replacements put structurally equal expressions in the place of
    the same variable. *)
Definition same_replacement (base : nat) (h1 h2 : heap)
    (p1 p2 : var_id * var_id) : Prop :=
  p1.1 = p2.1
  /\ forall fuel, expr_of base h1 fuel p1.2 = expr_of base h2 fuel p2.2.

(** ** Two graphs *)

Definition example_brick : Brick :=
  {| brick_id := 0; brick_is_batch_normalization := true |}.

Definition example_call : ApplicationCall :=
  {| call_id := 0; call_brick := example_brick |}.

Definition annotated (n : string) (o : origin) (bs : list bool) (r : role)
    : variable :=
  {| v_name := Some n; v_origin := o; v_broadcastable := bs;
     v_tag := {| roles := [r];
                 annotations := [ABrick example_brick; ACall example_call];
                 replacement_of := None |} |}.

Definition plain (n : string) (o : origin) (bs : list bool) (rs : list role)
    : variable :=
  {| v_name := Some n; v_origin := o; v_broadcastable := bs;
     v_tag := {| roles := rs; annotations := []; replacement_of := None |} |}.

Definition example_heap : heap :=
  [ plain "features" Input [false; false] [];
    annotated "input_" (Apply (OtherOp "copy") [0%nat]) [false; false] INPUT;
    plain "population_mean" Input [true; false] [BATCH_NORM_POPULATION_MEAN];
    annotated "population_offset" (Apply (OtherOp "copy") [2%nat])
      [true; false] BATCH_NORM_OFFSET;
    plain "population_stdev" Input [true; false] [BATCH_NORM_POPULATION_STDEV];
    annotated "population_divisor" (Apply (OtherOp "copy") [4%nat])
      [true; false] BATCH_NORM_DIVISOR;
    plain "batch_norm_scale" Input [true; false] [WEIGHT];
    plain "batch_norm_shift" Input [true; false] [BIAS];
    plain "output" (Apply (OtherOp "batch_normalization")
                      [1; 6; 7; 3; 5]%nat) [false; false] [] ].

Definition example_graph : ComputationGraph :=
  {| outputs := [8%nat]; variables := seq 0 9 |}.

(** A graph in which a variable is both offset and divisor of an
    application call that owns another offset and another divisor later in
    the graph. *)
Definition aliased_heap : heap :=
  [ annotated "input_" Input [false; false] INPUT;
    {| v_name := Some "aliased"; v_origin := Input;
       v_broadcastable := [true; false];
       v_tag := {| roles := [BATCH_NORM_OFFSET; BATCH_NORM_DIVISOR];
                   annotations := [ABrick example_brick; ACall example_call];
                   replacement_of := None |} |};
    annotated "population_offset" Input [true; false] BATCH_NORM_OFFSET;
    annotated "population_divisor" Input [true; false] BATCH_NORM_DIVISOR;
    plain "output" (Apply (OtherOp "batch_normalization")
                      [0; 1; 2; 3]%nat) [false; false] [] ].

Definition aliased_graph : ComputationGraph :=
  {| outputs := [4%nat]; variables := seq 0 5 |}.

(** ** Further vocabulary *)

(** What [MLP._push_allocation_config] makes of a linear brick. *)
Definition pushed_linear (use_bias : bool) (layer : pyval * pyval * Linear)
    : Linear :=
  {| lin_name := lin_name layer.2;
     lin_input_dim := layer.1.1;
     lin_output_dim := layer.1.2;
     lin_use_bias := use_bias |}.

(** The dictionaries name variables of the store for this key. *)
Definition lookups_succeed
    (means stdevs inputs : list (option ApplicationCall * var_id))
    (h : heap) (application_call : option ApplicationCall) : Prop :=
  exists mean stdev input mean_var input_var,
    od_get means application_call = Some mean
    /\ h !! mean = Some mean_var
    /\ od_get inputs application_call = Some input
    /\ h !! input = Some input_var
    /\ od_get stdevs application_call = Some stdev.

(** A graph in which the variables of a batch normalization brick carry no
    application call. *)
Definition uncalled (n : string) (r : role) : variable :=
  {| v_name := Some n; v_origin := Input; v_broadcastable := [true; false];
     v_tag := {| roles := [r]; annotations := [ABrick example_brick];
                 replacement_of := None |} |}.

Definition uncalled_heap : heap :=
  [ uncalled "input_" INPUT;
    uncalled "population_offset" BATCH_NORM_OFFSET;
    uncalled "population_divisor" BATCH_NORM_DIVISOR ].

Definition uncalled_graph : ComputationGraph :=
  {| outputs := [0%nat]; variables := seq 0 3 |}.

(** ** The graph [replace] returns *)

(** The order of [ComputationGraph.variables]: every variable stands
    once, and after the variables it is computed from. *)
Fixpoint topological (h : heap) (vars : list var_id) : bool :=
  match vars with
  | [] => true
  | v :: rest =>
      bool_decide (v ∉ rest)
      && forallb (fun i => bool_decide (i ∉ v :: rest))
           (from_option inputs_of [] (h !! v))
      && topological h rest
  end.



(** ** Applying a brick *)

(** A copy of a population statistic as [apply] annotates it. *)
Definition annotated_copy (self : graph_brick) (call : ApplicationCall)
    (source : var_id) (source_var : variable) (n : string) (r : role)
    : variable :=
  {| v_name := Some n;
     v_origin := Apply (OtherOp "copy") [source];
     v_broadcastable := v_broadcastable source_var;
     v_tag := {| roles := [r];
                 annotations := [ABrick (gb_brick self); ACall call];
                 replacement_of := None |} |}.

(** Whether the filter for role [r] lets the variable [v] pass. *)
Definition passes (r : role) (h : heap) (v : var_id) : bool :=
  match h !! v with
  | Some x => selected r x
  | None => false
  end.

(** [cg'] shows, of the store [h'], what [cg] shows and the input, the
    offset and the divisor of one more application, and beyond these only
    variables that none of the three filters lets pass. *)
Definition graph_after_apply (h' : heap) (cg cg' : ComputationGraph)
    (input_ mean stdev : var_id) : bool :=
  forallb (fun v => bool_decide (v ∈ variables cg'))
    (variables cg ++ [input_; mean; stdev])
  && forallb (fun v =>
                bool_decide (v ∈ variables cg)
                || bool_decide (v ∈ [input_; mean; stdev])
                || (bool_decide (v < length h')%nat
                    && negb (passes BATCH_NORM_OFFSET h' v
                             || passes BATCH_NORM_DIVISOR h' v
                             || passes INPUT h' v)))
       (variables cg').

(** The variable [input_] as the [application] decorator hands it to
    [apply]: an input of the brick, owned by the application call. *)
Definition decorated_input (h : heap) (input_ : var_id)
    (call : ApplicationCall) : bool :=
  passes INPUT h input_
  && negb (passes BATCH_NORM_OFFSET h input_)
  && negb (passes BATCH_NORM_DIVISOR h input_)
  && bool_decide (get_application_call h input_ = Some call).

(** A store with the variables a first application of a batch
    normalization brick finds, and the graphs before and after it. *)
Definition example_graph_brick : graph_brick :=
  {| gb_brick := example_brick; gb_save_memory := true;
     gb_W := 4%nat; gb_b := 5%nat;
     gb_population_mean := 2%nat; gb_population_stdev := 3%nat |}.

Definition apply_heap : heap :=
  [ plain "features" Input [false; false] [];
    annotated "input_" (Apply (OtherOp "copy") [0%nat]) [false; false] INPUT;
    plain "population_mean" Input [true; false] [BATCH_NORM_POPULATION_MEAN];
    plain "population_stdev" Input [true; false] [BATCH_NORM_POPULATION_STDEV];
    plain "batch_norm_scale" Input [true; false] [WEIGHT];
    plain "batch_norm_shift" Input [true; false] [BIAS] ].

Definition apply_graph : ComputationGraph :=
  {| outputs := [0%nat]; variables := [0%nat] |}.

Definition applied_heap : heap :=
  fst (BatchNormalization_apply example_graph_brick 1%nat example_call
         apply_heap).

Definition applied_graph : ComputationGraph :=
  {| outputs := [8%nat];
     variables := foldl (ancestors (length applied_heap) applied_heap) []
                    [8%nat] |}.

(** * Properties *)

(** ** Allocation *)


Lemma equizip_same_length {A B} (xs : list A) (ys : list B) :
  length xs = length ys -> equizip xs ys = ok (zip xs ys).
Proof.
  revert ys; induction xs as [|x xs IH]; intros [|y ys] Hlen;
    simpl in *; try discriminate; [reflexivity|].
  rewrite IH by congruence. reflexivity.
Qed.

Lemma var_dim_same_length dims mask :
  length dims = length mask -> var_dim dims mask = ok (collapsed dims mask).
Proof.
  intros Hlen. unfold var_dim, collapsed.
  rewrite equizip_same_length by exact Hlen. simpl. do 2 f_equal.
  clear Hlen. revert mask; induction dims as [|d dims IH]; intros [|b mask];
    simpl; try reflexivity. by rewrite IH.
Qed.

Lemma np_ints_ok shape zs : np_ints shape = ok zs <-> shape = PInt <$> zs.
Proof.
  revert zs; induction shape as [|d shape IH]; intros zs; simpl.
  - split; intros H.
    + injection H as <-. reflexivity.
    + by destruct zs.
  - destruct d as [z| |]; try (split; [discriminate | by destruct zs]).
    destruct (np_ints shape) as [e|zs'] eqn:E; simpl.
    + split; [discriminate|]. destruct zs as [|z' zs]; [discriminate|].
      simpl. intros [= -> H]. apply IH in H. discriminate.
    + split.
      * intros [= <-]. simpl. f_equal. by apply IH.
      * destruct zs as [|z' zs]; [discriminate|]. simpl.
        intros [= -> H]. apply IH in H. by injection H as ->.
Qed.

Lemma np_ints_valid shape zs :
  np_ints shape = ok zs ->
  forallb (fun z => 0 <=? z) zs = forallb valid_extent shape.
Proof.
  intros H%np_ints_ok. subst shape. induction zs as [|z zs IH]; simpl;
    [reflexivity | by rewrite IH].
Qed.

Lemma np_ints_invalid shape e :
  np_ints shape = raise e -> forallb valid_extent shape = false.
Proof.
  revert e; induction shape as [|d shape IH]; intros e; simpl;
    [discriminate|].
  destruct d as [z| |]; try reflexivity.
  destruct (np_ints shape) as [e'|zs]; simpl; [|discriminate].
  intros _. rewrite (IH e') by reflexivity. apply andb_false_r.
Qed.

Lemma pattern_fits_collapsed dims mask zs :
  length dims = length mask ->
  np_ints (collapsed dims mask) = ok zs ->
  pattern_fits (true :: mask) zs = true.
Proof.
  intros Hlen H%np_ints_ok. unfold collapsed in H.
  destruct zs as [|z zs]; [discriminate|]. simpl in H.
  injection H as Hz H. subst z. unfold pattern_fits. simpl.
  revert dims zs Hlen H. induction mask as [|b mask IH];
    intros [|d dims] [|z' zs] Hlen H; simpl in *; try discriminate;
    try reflexivity.
  injection H as Hd H. injection Hlen as Hlen.
  specialize (IH dims zs Hlen H).
  apply andb_true_iff in IH as [Hl Hf]. apply andb_true_iff. split.
  - exact Hl.
  - rewrite Hf, andb_true_r. destruct b; [|reflexivity].
    injection Hd as <-. reflexivity.
Qed.

Lemma bind_ok {A B} (a : A) (k : A -> result B) : bind_result (ok a) k = k a.
Proof. reflexivity. Qed.

Lemma bind_raise {A B} (e : exn) (k : A -> result B) :
  bind_result (raise e) k = raise e.
Proof. reflexivity. Qed.

Lemma np_full_ok v shape zs :
  np_ints shape = ok zs ->
  forallb (fun z => 0 <=? z) zs = true ->
  np_full v shape =
  ok {| nd_shape := zs; nd_data := replicate (shape_size zs) v |}.
Proof. intros Hzs Hval. unfold np_full. by rewrite Hzs, bind_ok, Hval. Qed.

Lemma shared_floatx_fill_ok v shape zs name mask :
  np_ints shape = ok zs ->
  forallb (fun z => 0 <=? z) zs = true ->
  pattern_fits (true :: mask) zs = true ->
  (let* a := np_full v shape in shared_floatx a name (true :: mask)) =
  ok (allocated_variable name v zs mask []).
Proof.
  intros Hzs Hval Hfit. rewrite (np_full_ok _ _ _ Hzs Hval), bind_ok.
  unfold shared_floatx. simpl nd_shape. by rewrite Hfit.
Qed.

Lemma allocate_same_length (self : t) zs :
  length (input_dim_tuple self) = length (broadcastable_tuple self) ->
  np_ints (collapsed (input_dim_tuple self) (broadcastable_tuple self)) = ok zs ->
  forallb (fun z => 0 <=? z) zs = true ->
  let mask := broadcastable_tuple self in
  _allocate self =
  ok {| input_dim := input_dim self;
        broadcastable := broadcastable self;
        save_memory := save_memory self;
        weights_init := weights_init self;
        biases_init := biases_init self;
        _W := Some (allocated_variable "batch_norm_scale" NaN zs mask [WEIGHT]);
        _b := Some (allocated_variable "batch_norm_shift" NaN zs mask [BIAS]);
        parameters := parameters self ++ [ref_W; ref_b];
        population_mean :=
          Some (allocated_variable "population_mean" (Lit 0) zs mask
                  [BATCH_NORM_POPULATION_MEAN]);
        population_stdev :=
          Some (allocated_variable "population_stdev" (Lit 1) zs mask
                  [BATCH_NORM_POPULATION_STDEV]);
        rng := rng self |}.
Proof.
  intros Hlen Hzs Hval mask. unfold _allocate.
  rewrite Hlen, Nat.eqb_refl. simpl negb. cbv iota.
  rewrite var_dim_same_length by exact Hlen.
  pose proof (pattern_fits_collapsed _ _ _ Hlen Hzs) as Hfit.
  fold mask in Hzs, Hfit |- *.
  generalize dependent (collapsed (input_dim_tuple self) mask).
  intros shape Hzs. rewrite bind_ok.
  unfold shared_floatx_nans, shared_floatx_zeros, np_zeros, np_ones.
  rewrite !(shared_floatx_fill_ok _ _ _ _ _ Hzs Hval Hfit), !bind_ok.
  rewrite (np_full_ok _ _ _ Hzs Hval), bind_ok.
  unfold shared_floatx. simpl nd_shape. rewrite Hfit, bind_ok.
  reflexivity.
Qed.

Lemma allocate_fails_on_invalid_extent (self : t) :
  length (input_dim_tuple self) = length (broadcastable_tuple self) ->
  forallb valid_extent
    (collapsed (input_dim_tuple self) (broadcastable_tuple self)) = false ->
  exists e, _allocate self = raise e /\ e <> ValueError same_length_msg.
Proof.
  intros Hlen Hinv. unfold _allocate.
  rewrite Hlen, Nat.eqb_refl. simpl negb. cbv iota.
  rewrite var_dim_same_length by exact Hlen.
  generalize dependent (collapsed (input_dim_tuple self) (broadcastable_tuple self)).
  intros shape Hinv. rewrite bind_ok.
  unfold shared_floatx_nans, np_full.
  destruct (np_ints shape) as [e|zs] eqn:Hzs.
  - rewrite !bind_raise. exists e. split; [reflexivity|].
    clear Hinv. revert e Hzs. induction shape as [|d shape IH]; intros e; simpl;
      [discriminate|].
    destruct d as [z| |]; try (intros [= <-]; discriminate).
    destruct (np_ints shape) as [e'|zs']; simpl; [|discriminate].
    intros [= <-]. by apply IH.
  - rewrite bind_ok, (np_ints_valid _ _ Hzs), Hinv, !bind_raise.
    eexists. split; [reflexivity | discriminate].
Qed.

Lemma allocate_ok_iff (self : t) :
  is_ok (_allocate self) =
  (length (input_dim_tuple self) =? length (broadcastable_tuple self))%nat
  && forallb valid_extent
       (collapsed (input_dim_tuple self) (broadcastable_tuple self)).
Proof.
  destruct (length (input_dim_tuple self) =? length (broadcastable_tuple self))%nat
    eqn:Hlen.
  - apply Nat.eqb_eq in Hlen. rewrite andb_true_l.
    destruct (forallb valid_extent
                (collapsed (input_dim_tuple self) (broadcastable_tuple self)))
      eqn:Hval.
    + destruct (np_ints (collapsed (input_dim_tuple self) (broadcastable_tuple self)))
        as [e|zs] eqn:Hzs.
      * by rewrite (np_ints_invalid _ _ Hzs) in Hval.
      * rewrite <- (np_ints_valid _ _ Hzs) in Hval.
        pose proof (allocate_same_length self zs Hlen Hzs Hval) as Heq.
        cbv zeta in Heq. rewrite Heq. reflexivity.
    + destruct (allocate_fails_on_invalid_extent self Hlen Hval) as (e & -> & _).
      reflexivity.
  - unfold _allocate. rewrite Hlen. reflexivity.
Qed.

(** C6: [_allocate] raises the [ValueError] "input_dim and broadcastable
    must be same length" exactly when a mask was supplied and its length
    differs from that of [input_dim] (a 1-tuple when [input_dim] is not a
    sequence); with a mask of the same length, or with none, it never raises
    that error. *)
Theorem allocate_length_mismatch_iff (self : t) :
  _allocate self = raise (ValueError same_length_msg) <->
  exists mask, broadcastable self = Some mask /\
               length (input_dim_tuple self) <> length mask.
Proof.
  split.
  - intros Herr.
    destruct (decide (length (input_dim_tuple self)
                      = length (broadcastable_tuple self))) as [Hlen|Hne].
    + exfalso.
      destruct (forallb valid_extent
                  (collapsed (input_dim_tuple self) (broadcastable_tuple self)))
        eqn:Hval.
      * pose proof (allocate_ok_iff self) as Hok.
        rewrite Hlen, Nat.eqb_refl, Hval, Herr in Hok. discriminate.
      * destruct (allocate_fails_on_invalid_extent self Hlen Hval)
          as (e & He & Hne).
        rewrite He in Herr. by injection Herr.
    + unfold broadcastable_tuple in Hne.
      destruct (broadcastable self) as [mask|] eqn:Hb.
      * by exists mask.
      * by rewrite length_replicate in Hne.
  - intros (mask & Hb & Hne). unfold _allocate, broadcastable_tuple.
    rewrite Hb. apply Nat.eqb_neq in Hne. by rewrite Hne.
Qed.

Example allocate_mismatch_example :
  _allocate (__init__ (Seq [PInt 3; PInt 4])
               {| kw_broadcastable := Some (Some [false]);
                  kw_save_memory := None;
                  kw_weights_init := None; kw_biases_init := None |} 0%N)
  = raise (ValueError "input_dim and broadcastable must be same length").
Proof. reflexivity. Qed.

Example allocate_int_input_dim_example :
  is_ok (_allocate (__init__ (Scalar (PInt 7))
                      {| kw_broadcastable := Some (Some [false]);
                         kw_save_memory := None;
                         kw_weights_init := None; kw_biases_init := None |}
                      0%N)) = true.
Proof. reflexivity. Qed.

(** C10: with [input_dim] and mask of the same length, the scale, shift,
    population mean and population stdev that [_allocate] creates all have
    shape [(1,)] followed by 1 for an averaged axis and the input extent
    otherwise, and broadcastable pattern [(True,)] followed by the mask;
    allocation succeeds exactly when those extents are non-negative ints. *)
Theorem allocated_shapes (self : t) :
  length (input_dim_tuple self) = length (broadcastable_tuple self) ->
  (forall self', _allocate self = ok self' ->
     exists zs,
       PInt <$> zs = collapsed (input_dim_tuple self) (broadcastable_tuple self)
       /\ Forall (fun v => exists sv, v = Some sv
                     /\ nd_shape (sv_value sv) = zs
                     /\ sv_broadcastable sv = true :: broadcastable_tuple self)
            [W self'; b self'; population_mean self'; population_stdev self'])
  /\ is_ok (_allocate self)
     = forallb valid_extent
         (collapsed (input_dim_tuple self) (broadcastable_tuple self)).
Proof.
  intros Hlen. split.
  - intros self' Hok.
    pose proof (allocate_ok_iff self) as Hiff.
    rewrite Hok, Hlen, Nat.eqb_refl in Hiff. simpl is_ok in Hiff.
    rewrite andb_true_l in Hiff. symmetry in Hiff.
    destruct (np_ints (collapsed (input_dim_tuple self) (broadcastable_tuple self)))
      as [e|zs] eqn:Hzs.
    + by rewrite (np_ints_invalid _ _ Hzs) in Hiff.
    + rewrite <- (np_ints_valid _ _ Hzs) in Hiff.
      pose proof (allocate_same_length self zs Hlen Hzs Hiff) as Heq.
      cbv zeta in Heq. rewrite Heq in Hok. injection Hok as <-.
      exists zs. split; [symmetry; by apply np_ints_ok|].
      repeat constructor; eexists; (split; [reflexivity|]); by split.
  - by rewrite allocate_ok_iff, Hlen, Nat.eqb_refl.
Qed.

Lemma allocated_shapes_witness :
  let self := __init__ (Seq [PInt 3; PInt 32; PInt 32])
                {| kw_broadcastable := Some (Some [false; true; true]);
                   kw_save_memory := None;
                   kw_weights_init := None; kw_biases_init := None |} 0%N in
  (exists self', _allocate self = ok self')
  /\ (forall self', _allocate self = ok self' ->
        exists zs, PInt <$> zs = [PInt 1; PInt 3; PInt 1; PInt 1]
          /\ Forall (fun v => exists sv, v = Some sv
                       /\ nd_shape (sv_value sv) = zs
                       /\ sv_broadcastable sv = [true; false; true; true])
               [W self'; b self'; population_mean self'; population_stdev self']).
Proof.
  intros self. split.
  - eexists. reflexivity.
  - exact (proj1 (allocated_shapes self eq_refl)).
Defined.

(** C8: a brick constructed without explicit initializers uses
    [Constant(1)] for the scale and [Constant(0)] for the shift; after
    [_allocate] and [_initialize] every entry of the population mean is 0,
    every entry of the population stdev is 1, and the scale and shift hold
    what those initializers generate: all ones and all zeros. *)
Theorem default_statistics_and_initializers
    (dim : input_dim_t) (kw : kwargs) (rng0 : rng_state) :
  mjoin (kw_weights_init kw) = None ->
  mjoin (kw_biases_init kw) = None ->
  let self := __init__ dim kw rng0 in
  weights_init self = Constant (Lit 1)
  /\ biases_init self = Constant (Lit 0)
  /\ (forall self1, _allocate self = ok self1 ->
      exists self2 W_ b_ mean stdev,
        _initialize self1 = ok self2
        /\ W self2 = Some W_ /\ b self2 = Some b_
        /\ population_mean self2 = Some mean
        /\ population_stdev self2 = Some stdev
        /\ nd_data (sv_value mean)
           = replicate (shape_size (nd_shape (sv_value mean))) (Lit 0)
        /\ nd_data (sv_value stdev)
           = replicate (shape_size (nd_shape (sv_value stdev))) (Lit 1)
        /\ nd_data (sv_value W_)
           = generate (Constant (Lit 1)) rng0 (nd_shape (sv_value W_))
        /\ nd_data (sv_value W_)
           = replicate (shape_size (nd_shape (sv_value W_))) (Lit 1)
        /\ nd_data (sv_value b_)
           = generate (Constant (Lit 0)) rng0 (nd_shape (sv_value b_))
        /\ nd_data (sv_value b_)
           = replicate (shape_size (nd_shape (sv_value b_))) (Lit 0))
  /\ is_ok (_allocate self)
     = (length (input_dim_tuple self) =? length (broadcastable_tuple self))%nat
       && forallb valid_extent
            (collapsed (input_dim_tuple self) (broadcastable_tuple self)).
Proof.
  intros HW Hb self.
  assert (HWi : weights_init self = Constant (Lit 1))
    by (unfold self, __init__; simpl; by rewrite HW).
  assert (Hbi : biases_init self = Constant (Lit 0))
    by (unfold self, __init__; simpl; by rewrite Hb).
  split; [exact HWi|]. split; [exact Hbi|]. split; [|apply allocate_ok_iff].
  clearbody self. intros self1 Hok.
  pose proof (allocate_ok_iff self) as Hiff. rewrite Hok in Hiff.
  simpl is_ok in Hiff. symmetry in Hiff.
  apply andb_true_iff in Hiff as [Hlen%Nat.eqb_eq Hval].
  destruct (np_ints (collapsed (input_dim_tuple self) (broadcastable_tuple self)))
    as [e|zs] eqn:Hzs.
  { by rewrite (np_ints_invalid _ _ Hzs) in Hval. }
  rewrite <- (np_ints_valid _ _ Hzs) in Hval.
  pose proof (allocate_same_length self zs Hlen Hzs Hval) as Heq.
  cbv zeta in Heq. rewrite Heq in Hok. injection Hok as <-.
  unfold _initialize, W, b. cbn [_W _b weights_init biases_init].
  rewrite HWi, Hbi.
  do 5 eexists. split; [reflexivity|].
  cbn. repeat split; reflexivity.
Qed.

Lemma default_statistics_and_initializers_witness :
  let self := __init__ (Seq [PInt 2; PInt 3]) no_kwargs 5%N in
  mjoin (kw_weights_init no_kwargs) = None
  /\ mjoin (kw_biases_init no_kwargs) = None
  /\ weights_init self = Constant (Lit 1)
  /\ biases_init self = Constant (Lit 0)
  /\ is_ok (_allocate self) = true.
Proof.
  intros self.
  destruct (default_statistics_and_initializers
              (Seq [PInt 2; PInt 3]) no_kwargs 5%N eq_refl eq_refl)
    as (HW & Hb & _ & Hok).
  split; [reflexivity|]. split; [reflexivity|].
  split; [exact HW|]. split; [exact Hb|].
  exact (eq_trans Hok eq_refl).
Defined.

Example default_initialization_example :
  let self := __init__ (Seq [PInt 2; PInt 3]) no_kwargs 5%N in
  exists self1 self2 W_ b_ mean stdev,
    _allocate self = ok self1 /\ _initialize self1 = ok self2
    /\ W self2 = Some W_ /\ b self2 = Some b_
    /\ population_mean self2 = Some mean
    /\ population_stdev self2 = Some stdev
    /\ nd_shape (sv_value W_) = [1; 2; 3]
    /\ nd_data (sv_value mean) = replicate 6 (Lit 0)
    /\ nd_data (sv_value stdev) = replicate 6 (Lit 1)
    /\ nd_data (sv_value W_) = replicate 6 (Lit 1)
    /\ nd_data (sv_value b_) = replicate 6 (Lit 0).
Proof. do 6 eexists. repeat split; reflexivity. Qed.

(** ** The spatial variant *)

(** C4, as the code has it: constructed with a sequence [input_dim] of
    length at least 2 and no [broadcastable] keyword, the brick's mask is
    [(False,)] followed by [True] for every remaining axis; a
    [broadcastable] keyword passed by the caller is kept as given. *)
Theorem spatial_mask_default (l : list pyval) (kw : kwargs) (rng0 : rng_state) :
  (2 <= length l)%nat ->
  exists self,
    SpatialBatchNormalization.__init__ (Seq l) kw rng0 = ok self
    /\ (kw_broadcastable kw = None ->
        broadcastable self = Some (spatial_mask l)
        /\ broadcastable_tuple self = spatial_mask l)
    /\ (forall given, kw_broadcastable kw = Some given ->
        broadcastable self = given).
Proof.
  intros Hlen. unfold SpatialBatchNormalization.__init__.
  destruct (length l <? 2)%nat eqn:Hlt; [apply Nat.ltb_lt in Hlt; lia|].
  eexists. split; [reflexivity|]. split.
  - intros Hkw. unfold broadcastable_tuple. simpl. by rewrite Hkw.
  - intros given Hkw. simpl. by rewrite Hkw.
Qed.

Lemma spatial_mask_default_witness :
  exists self,
    SpatialBatchNormalization.__init__
      (Seq [PInt 3; PInt 32; PInt 32]) no_kwargs 0%N = ok self
    /\ broadcastable self = Some [false; true; true].
Proof.
  destruct (spatial_mask_default [PInt 3; PInt 32; PInt 32] no_kwargs 0%N)
    as (self & Hself & Hdefault & _).
  - simpl. lia.
  - exists self. split; [exact Hself|]. exact (proj1 (Hdefault eq_refl)).
Defined.

(** C4 as stated fails: a caller who passes [broadcastable] gets that mask,
    here one that averages over the channel axis too. *)
Lemma spatial_mask_keyword_counterexample :
  exists self,
    SpatialBatchNormalization.__init__ (Seq [PInt 3; PInt 32; PInt 32])
      {| kw_broadcastable := Some (Some [true; true; true]);
         kw_save_memory := None;
         kw_weights_init := None; kw_biases_init := None |} 0%N = ok self
    /\ broadcastable self = Some [true; true; true]
    /\ broadcastable self <> Some (spatial_mask [PInt 3; PInt 32; PInt 32]).
Proof. eexists. split; [reflexivity|]. split; [reflexivity|]. discriminate. Qed.

(** C7: constructing the spatial variant raises the [ValueError] unless
    [input_dim] is a sequence of length at least 2 (so for every int, for
    [None], for an omitted [input_dim] and for shorter sequences); with a
    sequence of length at least 2 it does not raise. *)
Theorem spatial_requires_two_axes
    (d : input_dim_t) (kw : kwargs) (rng0 : rng_state) :
  (~ at_least_two_axes d ->
   SpatialBatchNormalization.__init__ d kw rng0
   = raise (ValueError SpatialBatchNormalization.too_short_msg))
  /\ (at_least_two_axes d ->
      is_ok (SpatialBatchNormalization.__init__ d kw rng0) = true).
Proof.
  unfold at_least_two_axes, SpatialBatchNormalization.__init__. split.
  - intros Hnot. destruct d as [v|l]; [reflexivity|].
    destruct (length l <? 2)%nat eqn:Hlt; [reflexivity|].
    apply Nat.ltb_ge in Hlt. exfalso. apply Hnot. by exists l.
  - intros (l & -> & Hlen).
    destruct (length l <? 2)%nat eqn:Hlt; [apply Nat.ltb_lt in Hlt; lia|].
    reflexivity.
Qed.

Lemma spatial_requires_two_axes_witness :
  SpatialBatchNormalization.__init__ (Scalar (PInt 5)) no_kwargs 0%N
  = raise (ValueError
             "expected input_dim to be length >= 2 (channels, height, width)")
  /\ is_ok (SpatialBatchNormalization.__init__
              (Seq [PInt 3; PInt 8]) no_kwargs 0%N) = true.
Proof.
  split.
  - apply (spatial_requires_two_axes (Scalar (PInt 5)) no_kwargs 0%N).
    intros (l & Hl & _). discriminate.
  - apply (spatial_requires_two_axes (Seq [PInt 3; PInt 8]) no_kwargs 0%N).
    exists [PInt 3; PInt 8]. split; [reflexivity | simpl; lia].
Defined.

Example spatial_rejects_omitted_input_dim :
  SpatialBatchNormalization.__init__ (lazy None) no_kwargs 0%N
  = raise (ValueError SpatialBatchNormalization.too_short_msg).
Proof. reflexivity. Qed.

Example spatial_rejects_short_sequence :
  SpatialBatchNormalization.__init__ (Seq [PInt 3]) no_kwargs 0%N
  = raise (ValueError SpatialBatchNormalization.too_short_msg).
Proof. reflexivity. Qed.

(** ** The batch-normalized MLP *)

Lemma set_input_dims_wrapped (name : nat -> string) bn0 acts ds :
  length acts = length ds ->
  BatchNormalizedMLP.set_input_dims
    (zip (imap (fun i act =>
                  SequenceBrick (name i) [BatchNormalizationBrick bn0; act])
               acts) ds)
  = ok (imap (fun i '(act, d) =>
                SequenceBrick (name i)
                  [BatchNormalizationBrick (set_input_dim bn0 (Scalar d)); act])
             (zip acts ds)).
Proof.
  revert name ds. induction acts as [|act acts IH]; intros name [|d ds] Hlen;
    simpl in *; try discriminate; [reflexivity|].
  injection Hlen as Hlen.
  pose proof (IH (name ∘ S) ds Hlen) as IH'.
  cbv [compose] in *. rewrite IH', bind_ok. reflexivity.
Qed.

Lemma mlp_push_ok (self : MLP.t) :
  length (MLP.dims self) = S (length (MLP.linear_transformations self)) ->
  MLP._push_allocation_config self =
  ok {| MLP.activations := MLP.activations self;
        MLP.linear_transformations :=
          map (fun '((input_dim, output_dim), layer) =>
                 {| lin_name := lin_name layer;
                    lin_input_dim := input_dim;
                    lin_output_dim := output_dim;
                    lin_use_bias := MLP.use_bias self |})
              (zip (zip (take (length (MLP.dims self) - 1) (MLP.dims self))
                        (drop 1 (MLP.dims self)))
                   (MLP.linear_transformations self));
        MLP.dims := MLP.dims self;
        MLP.use_bias := MLP.use_bias self;
        MLP.rng := MLP.rng self |}.
Proof.
  intros Hlen. unfold MLP._push_allocation_config.
  replace (Z.of_nat (length (MLP.dims self)) - 1
           =? Z.of_nat (length (MLP.linear_transformations self)))
    with true by (symmetry; apply Z.eqb_eq; lia).
  simpl negb. cbv iota.
  rewrite equizip_same_length, bind_ok
    by (rewrite length_take, length_drop; lia).
  rewrite equizip_same_length, bind_ok
    by (rewrite length_zip, length_take, length_drop; lia).
  reflexivity.
Qed.

(** C9: the MLP's [use_bias] is [False] unless the caller passes it; every
    activation is wrapped in a sequence of a [BatchNormalization] brick
    followed by that activation; with [dims] one longer than the
    activations, pushing the allocation configuration succeeds, hands that
    [use_bias] to every linear brick, and sets the input dimension of the
    i-th batch normalization brick to [dims[i+1]], the output dimension of
    the i-th linear brick. *)
Theorem batch_normalized_mlp_configuration
    (acts : list brick) (dims : list pyval) (kw_use_bias : option bool)
    (rng0 : rng_state) :
  let self := BatchNormalizedMLP.__init__ acts dims kw_use_bias rng0 in
  MLP.use_bias self = default false kw_use_bias
  /\ (forall i act, acts !! i = Some act ->
        exists bn,
          MLP.activations self !! i
          = Some (SequenceBrick (wrapped_name i)
                    [BatchNormalizationBrick bn; act]))
  /\ (length dims = S (length acts) ->
      exists self',
        BatchNormalizedMLP._push_allocation_config self = ok self'
        /\ forall i act, acts !! i = Some act ->
             exists bn lin dim,
               dims !! S i = Some dim
               /\ MLP.activations self' !! i
                  = Some (SequenceBrick (wrapped_name i)
                            [BatchNormalizationBrick bn; act])
               /\ input_dim bn = Scalar dim
               /\ MLP.linear_transformations self' !! i = Some lin
               /\ lin_output_dim lin = dim
               /\ lin_use_bias lin = default false kw_use_bias).
Proof.
  intros self.
  assert (Hbias : MLP.use_bias self = default false kw_use_bias)
    by (by destruct kw_use_bias).
  split; [exact Hbias|]. split.
  - intros i act Hact. eexists. unfold self, BatchNormalizedMLP.__init__.
    simpl. rewrite list_lookup_imap, Hact. reflexivity.
  - intros Hlen.
    assert (Hlin : length (MLP.linear_transformations self) = length acts)
      by (unfold self; simpl; by rewrite !length_imap).
    unfold BatchNormalizedMLP._push_allocation_config.
    rewrite mlp_push_ok by (rewrite Hlin; exact Hlen).
    rewrite bind_ok. cbn [MLP.activations MLP.dims MLP.linear_transformations
                          MLP.use_bias MLP.rng].
    rewrite equizip_same_length, bind_ok
      by (unfold self; simpl; rewrite length_imap, length_drop; lia).
    unfold self at 1, BatchNormalizedMLP.__init__ at 1.
    cbn [MLP.__init__ MLP.activations].
    rewrite set_input_dims_wrapped, bind_ok
      by (unfold self; simpl; rewrite length_drop; lia).
    eexists. split; [reflexivity|].
    intros i act Hact.
    assert (Hi : (i < length acts)%nat) by (eapply lookup_lt_Some; eauto).
    destruct (lookup_lt_is_Some_2 dims (S i)) as [dim Hdim]; [lia|].
    assert (Hdrop : drop 1 dims !! i = Some dim)
      by (rewrite lookup_drop; exact Hdim).
    destruct (lookup_lt_is_Some_2 (take (length dims - 1) dims) i)
      as [din Hdin]; [rewrite length_take; lia|].
    destruct (lookup_lt_is_Some_2 (MLP.linear_transformations self) i)
      as [lin0 Hlin0]; [lia|].
    eexists _, _, dim. split; [exact Hdim|].
    cbn [MLP.activations MLP.linear_transformations MLP.dims].
    split.
    { rewrite list_lookup_imap.
      unfold self at 1. cbn [BatchNormalizedMLP.__init__ MLP.__init__ MLP.dims].
      rewrite lookup_zip_with, Hact. simpl. rewrite Hdrop. reflexivity. }
    split; [reflexivity|].
    split.
    { rewrite list_lookup_fmap.
      unfold self at 1 2. cbn [BatchNormalizedMLP.__init__ MLP.__init__ MLP.dims].
      fold self.
      change (MLP.dims self) with dims.
      rewrite !lookup_zip_with, Hdin. cbn [mbind option_bind].
      rewrite Hdrop. cbn [mbind option_bind]. rewrite Hlin0. reflexivity. }
    split; [reflexivity| exact Hbias].
Qed.

Lemma batch_normalized_mlp_configuration_witness :
  let self :=
    BatchNormalizedMLP.__init__
      [ActivationBrick "Tanh"; ActivationBrick "Softmax"]
      [PInt 784; PInt 100; PInt 10] None 0%N in
  MLP.use_bias self = false
  /\ exists self' bn lin,
       BatchNormalizedMLP._push_allocation_config self = ok self'
       /\ MLP.activations self' !! 1%nat
          = Some (SequenceBrick "batch_norm_activation_1"
                    [BatchNormalizationBrick bn; ActivationBrick "Softmax"])
       /\ input_dim bn = Scalar (PInt 10)
       /\ MLP.linear_transformations self' !! 1%nat = Some lin
       /\ lin_output_dim lin = PInt 10
       /\ lin_use_bias lin = false.
Proof.
  intros self.
  destruct (batch_normalized_mlp_configuration
              [ActivationBrick "Tanh"; ActivationBrick "Softmax"]
              [PInt 784; PInt 100; PInt 10] None 0%N)
    as (Hbias & _ & Hpush).
  split; [exact Hbias|].
  destruct (Hpush eq_refl) as (self' & Hok & Hall).
  destruct (Hall 1%nat (ActivationBrick "Softmax") eq_refl)
    as (bn & lin & dim & Hdim & Hact & Hin & Hlin & Hout & Hub).
  injection Hdim as <-.
  exists self', bn, lin. repeat split; assumption.
Defined.

(** ** A graph with one application of a batch normalization brick *)

(** ** Running the store operations *)

Lemma run_bind_ok {A B} (m : M A) (k : A -> M B) h h' a :
  m h = (h', ok a) -> bind m k h = k a h'.
Proof. intros Hm. unfold bind. by rewrite Hm. Qed.

Lemma run_bind_raise {A B} (m : M A) (k : A -> M B) h h' e :
  m h = (h', raise e) -> bind m k h = (h', raise e).
Proof. intros Hm. unfold bind. by rewrite Hm. Qed.

Lemma run_alloc (g t : heap) x :
  alloc x (g ++ t) = (g ++ (t ++ [x]), ok (length g + length t)%nat).
Proof. unfold alloc. by rewrite length_app, app_assoc. Qed.

Lemma run_read_old (g t : heap) v x :
  g !! v = Some x -> read v (g ++ t) = (g ++ t, ok x).
Proof. intros Hv. unfold read. by rewrite (lookup_app_l_Some _ _ _ _ Hv). Qed.

Lemma lookup_new (g t : heap) k : (g ++ t) !! (length g + k)%nat = t !! k.
Proof. rewrite lookup_app_r by lia. f_equal. lia. Qed.

Lemma run_read_new (g t : heap) k x :
  t !! k = Some x -> read (length g + k)%nat (g ++ t) = (g ++ t, ok x).
Proof. intros Hk. unfold read. by rewrite lookup_new, Hk. Qed.

Lemma run_update_new (g t : heap) k x f :
  t !! k = Some x ->
  update (length g + k)%nat f (g ++ t) = (g ++ <[k := f x]> t, ok tt).
Proof.
  intros Hk. unfold update. rewrite lookup_new, Hk.
  by rewrite insert_app_r.
Qed.

Lemma run_tensor_mean (g t : heap) x xv axes keepdims :
  g !! x = Some xv ->
  tensor_mean x axes keepdims (g ++ t)
  = (g ++ (t ++ [fresh_variable (Apply (Mean axes keepdims) [x])
                   (reduced_pattern axes keepdims (v_broadcastable xv))]),
     ok (length g + length t)%nat).
Proof.
  intros Hx. unfold tensor_mean.
  rewrite (run_bind_ok _ _ _ _ _ (run_read_old g t x xv Hx)).
  apply run_alloc.
Qed.

Lemma run_tensor_mean_start (g : heap) x xv axes keepdims :
  g !! x = Some xv ->
  tensor_mean x axes keepdims g
  = (g ++ [fresh_variable (Apply (Mean axes keepdims) [x])
             (reduced_pattern axes keepdims (v_broadcastable xv))],
     ok (length g + 0)%nat).
Proof.
  intros Hx. rewrite <- (app_nil_r g) at 1.
  rewrite (run_tensor_mean g [] x xv axes keepdims Hx). reflexivity.
Qed.

Lemma run_tensor_var (g t : heap) x xv axes keepdims :
  g !! x = Some xv ->
  tensor_var x axes keepdims (g ++ t)
  = (g ++ (t ++ [fresh_variable (Apply (Variance axes keepdims) [x])
                   (reduced_pattern axes keepdims (v_broadcastable xv))]),
     ok (length g + length t)%nat).
Proof.
  intros Hx. unfold tensor_var.
  rewrite (run_bind_ok _ _ _ _ _ (run_read_old g t x xv Hx)).
  apply run_alloc.
Qed.

Lemma run_tensor_add_constant (g t : heap) k xv c :
  t !! k = Some xv ->
  tensor_add_constant (length g + k)%nat c (g ++ t)
  = (g ++ (t ++ [fresh_variable (Const c) [];
                 fresh_variable
                   (Apply Add [(length g + k)%nat; (length g + length t)%nat])
                   (v_broadcastable xv)]),
     ok (length g + S (length t))%nat).
Proof.
  intros Hk. unfold tensor_add_constant.
  rewrite (run_bind_ok _ _ _ _ _ (run_read_new g t k xv Hk)).
  rewrite (run_bind_ok _ _ _ _ _ (run_alloc g t _)).
  rewrite run_alloc, <- app_assoc, length_app. simpl.
  do 3 f_equal. lia.
Qed.

Lemma run_tensor_sqrt (g t : heap) k xv :
  t !! k = Some xv ->
  tensor_sqrt (length g + k)%nat (g ++ t)
  = (g ++ (t ++ [fresh_variable (Apply Sqrt [(length g + k)%nat])
                   (v_broadcastable xv)]),
     ok (length g + length t)%nat).
Proof.
  intros Hk. unfold tensor_sqrt.
  rewrite (run_bind_ok _ _ _ _ _ (run_read_new g t k xv Hk)).
  apply run_alloc.
Qed.

Lemma run_prepare_replacement (g t : heap) reps old k x r call :
  t !! k = Some x ->
  prepare_replacement reps old (length g + k)%nat r (Some call) (g ++ t)
  = (g ++ <[k := prepared old r call x]> t,
     ok (reps ++ [(old, (length g + k)%nat)])).
Proof.
  intros Hk. pose proof (lookup_lt_Some _ _ _ Hk) as Hlt.
  unfold prepare_replacement, prepared.
  rewrite (run_bind_ok _ _ _ _ _ (run_update_new g t k x _ Hk)).
  erewrite run_bind_ok
    by (apply run_update_new; by apply list_lookup_insert_eq).
  rewrite list_insert_insert_eq.
  erewrite run_bind_ok
    by (apply run_update_new; by apply list_lookup_insert_eq).
  rewrite list_insert_insert_eq.
  erewrite run_bind_ok
    by (apply run_update_new; by apply list_lookup_insert_eq).
  rewrite list_insert_insert_eq.
  erewrite run_bind_ok
    by (apply run_update_new; by apply list_lookup_insert_eq).
  rewrite list_insert_insert_eq.
  reflexivity.
Qed.

Lemma run_prepare_replacement_None (g t : heap) reps old k x r :
  t !! k = Some x ->
  prepare_replacement reps old (length g + k)%nat r None (g ++ t)
  = (g ++ <[k := add_annotation ANone
                    (add_role r (add_role BATCH_NORM_MINIBATCH_ESTIMATE x))]> t,
     raise AttributeError).
Proof.
  intros Hk. pose proof (lookup_lt_Some _ _ _ Hk) as Hlt.
  unfold prepare_replacement.
  rewrite (run_bind_ok _ _ _ _ _ (run_update_new g t k x _ Hk)).
  erewrite run_bind_ok
    by (apply run_update_new; by apply list_lookup_insert_eq).
  rewrite list_insert_insert_eq.
  erewrite run_bind_ok
    by (apply run_update_new; by apply list_lookup_insert_eq).
  rewrite list_insert_insert_eq.
  reflexivity.
Qed.

(** ** One turn of the loop *)

Section replace_statistics.
Variables (means stdevs inputs : list (option ApplicationCall * var_id)).
Variable epsilon : scalar.

Lemma run_statistics reps application_call (g : heap)
    mean input mean_var input_var :
  od_get means application_call = Some mean ->
  g !! mean = Some mean_var ->
  od_get inputs application_call = Some input ->
  g !! input = Some input_var ->
  replace_statistics means stdevs inputs epsilon reps application_call g
  = bind (prepare_replacement reps mean (length g + 0)%nat BATCH_NORM_OFFSET
            application_call)
      (fun reps =>
         bind (lift_option KeyError (od_get stdevs application_call))
           (fun stdev =>
              prepare_replacement reps stdev (length g + 4)%nat
                BATCH_NORM_DIVISOR application_call))
      (g ++ untagged_block epsilon input mean_var input_var (length g)).
Proof.
  intros Hmean Hmv Hinput Hiv. unfold replace_statistics.
  rewrite Hmean, Hinput.
  rewrite (run_bind_ok _ _ g g mean eq_refl).
  erewrite run_bind_ok by (unfold read; by rewrite Hmv).
  rewrite (run_bind_ok _ _ g g input eq_refl).
  erewrite run_bind_ok by (by apply run_tensor_mean_start).
  erewrite run_bind_ok by (by apply run_update_new).
  cbn [list_insert insert].
  erewrite run_bind_ok by (by apply run_tensor_var).
  cbn [app length].
  erewrite run_bind_ok by (by apply (run_tensor_add_constant g _ 1)).
  cbn [app length].
  erewrite run_bind_ok by (by apply (run_tensor_sqrt g _ 3)).
  cbn [app length].
  erewrite run_bind_ok by (by apply (run_update_new g _ 4)).
  cbn [list_insert insert].
  reflexivity.
Qed.

Lemma replace_statistics_ok reps call (g : heap)
    mean stdev input mean_var input_var :
  od_get means (Some call) = Some mean ->
  g !! mean = Some mean_var ->
  od_get inputs (Some call) = Some input ->
  g !! input = Some input_var ->
  od_get stdevs (Some call) = Some stdev ->
  replace_statistics means stdevs inputs epsilon reps (Some call) g
  = (g ++ statistics_block call mean stdev input mean_var input_var
            epsilon (length g),
     ok (reps ++ [(mean, length g); (stdev, (length g + 4)%nat)])).
Proof.
  intros Hmean Hmv Hinput Hiv Hstdev.
  rewrite (run_statistics _ _ _ _ _ _ _ Hmean Hmv Hinput Hiv).
  unfold untagged_block.
  erewrite run_bind_ok by (by apply (run_prepare_replacement g _ _ _ 0)).
  cbn [list_insert insert]. rewrite Hstdev.
  rewrite (run_bind_ok _ _ _ _ stdev eq_refl).
  erewrite (run_prepare_replacement g _ _ _ 4) by reflexivity.
  cbn [list_insert insert]. unfold statistics_block.
  rewrite <- app_assoc, !Nat.add_0_r. reflexivity.
Qed.

(** Every way a turn of the loop can end. *)
Lemma replace_statistics_cases reps application_call (g : heap) :
  (exists e t,
     replace_statistics means stdevs inputs epsilon reps application_call g
     = (g ++ t, raise e)
     /\ e <> AssertionError)
  \/ (exists call mean stdev input mean_var input_var,
        application_call = Some call
        /\ od_get means application_call = Some mean
        /\ g !! mean = Some mean_var
        /\ od_get inputs application_call = Some input
        /\ g !! input = Some input_var
        /\ od_get stdevs application_call = Some stdev).
Proof.
  destruct (od_get means application_call) as [mean|] eqn:Hmean; cycle 1.
  { left. exists KeyError, []. rewrite app_nil_r. split; [|done].
    unfold replace_statistics. by rewrite Hmean. }
  destruct (g !! mean) as [mean_var|] eqn:Hmv; cycle 1.
  { left. exists NoSuchObject, []. rewrite app_nil_r. split; [|done].
    unfold replace_statistics. rewrite Hmean.
    rewrite (run_bind_ok _ _ g g mean eq_refl).
    apply run_bind_raise. unfold read. by rewrite Hmv. }
  destruct (od_get inputs application_call) as [input|] eqn:Hinput; cycle 1.
  { left. exists KeyError, []. rewrite app_nil_r. split; [|done].
    unfold replace_statistics. rewrite Hmean, Hinput.
    rewrite (run_bind_ok _ _ g g mean eq_refl).
    erewrite run_bind_ok by (unfold read; by rewrite Hmv).
    reflexivity. }
  destruct (g !! input) as [input_var|] eqn:Hiv; cycle 1.
  { left. exists NoSuchObject, []. rewrite app_nil_r. split; [|done].
    unfold replace_statistics. rewrite Hmean, Hinput.
    rewrite (run_bind_ok _ _ g g mean eq_refl).
    erewrite run_bind_ok by (unfold read; by rewrite Hmv).
    rewrite (run_bind_ok _ _ g g input eq_refl).
    apply run_bind_raise. unfold tensor_mean.
    apply run_bind_raise. unfold read. by rewrite Hiv. }
  destruct application_call as [call|]; cycle 1.
  { left. eexists _, _.
    rewrite (run_statistics _ _ _ _ _ _ _ Hmean Hmv Hinput Hiv).
    unfold untagged_block.
    split; [apply run_bind_raise;
            by apply (run_prepare_replacement_None g _ _ _ 0) | done]. }
  destruct (od_get stdevs (Some call)) as [stdev|] eqn:Hstdev; cycle 1.
  { left. eexists KeyError, _.
    rewrite (run_statistics _ _ _ _ _ _ _ Hmean Hmv Hinput Hiv).
    unfold untagged_block.
    erewrite run_bind_ok by (by apply (run_prepare_replacement g _ _ _ 0)).
    rewrite Hstdev. split; [reflexivity | done]. }
  right. by exists call, mean, stdev, input, mean_var, input_var.
Qed.

End replace_statistics.

(** ** The whole loop *)

Section for_each_call.
Variables (means stdevs inputs : list (option ApplicationCall * var_id)).
Variable epsilon : scalar.

Lemma for_each_call_run (h : heap) calls :
  Forall (processable means stdevs inputs h) calls ->
  forall (t : heap) reps,
    for_each_call means stdevs inputs epsilon reps calls (h ++ t)
    = (h ++ (t ++ statistics_blocks means stdevs inputs epsilon h (length h + length t) calls),
       ok (reps ++ statistics_replacements means stdevs (length h + length t) calls)).
Proof.
  induction 1 as [|ac calls Hac _ IH]; intros t reps; simpl.
  { by rewrite !app_nil_r. }
  destruct Hac as (call & mean & stdev & input & mean_var & input_var
                   & -> & Hmean & Hmv & Hinput & Hiv & Hstdev).
  erewrite run_bind_ok.
  2:{ apply replace_statistics_ok; eauto using lookup_app_l_Some. }
  rewrite <- app_assoc, IH.
  unfold block_of, pairs_of. rewrite Hmean, Hstdev, Hinput, Hmv, Hiv.
  rewrite !length_app. cbn [length statistics_block].
  rewrite <- !app_assoc, !Nat.add_assoc. reflexivity.
Qed.

Lemma for_each_call_frame calls :
  forall reps (g : heap),
    exists t,
      fst (for_each_call means stdevs inputs epsilon reps calls g) = g ++ t
      /\ snd (for_each_call means stdevs inputs epsilon reps calls g)
         <> raise AssertionError.
Proof.
  induction calls as [|ac calls IH]; intros reps g; simpl.
  { exists []. by rewrite app_nil_r. }
  destruct (replace_statistics_cases means stdevs inputs epsilon reps ac g)
    as [(e & t & Hrun & He)
       |(call & mean & stdev & input & mean_var & input_var
         & -> & Hmean & Hmv & Hinput & Hiv & Hstdev)].
  - rewrite (run_bind_raise _ _ _ _ _ Hrun). exists t. split; [done|].
    simpl. intros [= ->]. by apply He.
  - erewrite run_bind_ok by (by apply replace_statistics_ok).
    destruct (IH (reps ++ [(mean, length g); (stdev, (length g + 4)%nat)])
                 (g ++ statistics_block call mean stdev input mean_var
                         input_var epsilon (length g)))
      as (t & Ht & Hne).
    eexists. rewrite Ht, <- app_assoc. by split.
Qed.

Lemma for_each_call_ok_inv calls :
  forall reps (g g' : heap) reps',
    for_each_call means stdevs inputs epsilon reps calls g = (g', ok reps') ->
    Forall is_Some calls.
Proof.
  induction calls as [|ac calls IH]; intros reps g g' reps' Hrun;
    [constructor|].
  simpl in Hrun.
  destruct (replace_statistics_cases means stdevs inputs epsilon reps ac g)
    as [(e & t & Hbody & He)
       |(call & mean & stdev & input & mean_var & input_var
         & -> & Hmean & Hmv & Hinput & Hiv & Hstdev)].
  - rewrite (run_bind_raise _ _ _ _ _ Hbody) in Hrun. discriminate.
  - erewrite run_bind_ok in Hrun by (by apply replace_statistics_ok).
    constructor; [by eexists | eauto].
Qed.

End for_each_call.

(** ** Ordered dictionaries *)

Section OrderedDict_facts.
Context {K V : Type} `{EqDecision K}.
Implicit Types (d pairs : list (K * V)) (k : K) (v : V).

Lemma od_get_set d k v k' :
  od_get (od_set d k v) k' = if decide (k' = k) then Some v else od_get d k'.
Proof.
  induction d as [|[k0 v0] d IH]; simpl.
  - by destruct (decide (k' = k)).
  - destruct (decide (k = k0)) as [->|Hne]; simpl.
    + by destruct (decide (k' = k0)).
    + destruct (decide (k' = k0)) as [->|Hne'].
      * destruct (decide (k0 = k)); congruence.
      * exact IH.
Qed.

Lemma od_set_elem_of d k v k' v' :
  (k', v') ∈ od_set d k v -> (k', v') = (k, v) \/ (k', v') ∈ d.
Proof.
  induction d as [|[k0 v0] d IH]; simpl.
  - intros ->%list_elem_of_singleton. by left.
  - destruct (decide (k = k0)) as [->|Hne].
    + intros [->| Hin]%elem_of_cons; [by left | right; by right].
    + intros [->| Hin]%elem_of_cons; [right; by left |].
      destruct (IH Hin) as [?|?]; [by left | right; by right].
Qed.

Lemma od_set_keys d k v k' :
  k' ∈ (od_set d k v).*1 <-> k' = k \/ k' ∈ d.*1.
Proof.
  induction d as [|[k0 v0] d IH]; simpl.
  - rewrite list_elem_of_singleton, elem_of_nil. tauto.
  - destruct (decide (k = k0)) as [->|Hne]; simpl.
    + rewrite !elem_of_cons. tauto.
    + rewrite !elem_of_cons, IH. tauto.
Qed.

Lemma od_set_keys_NoDup d k v : NoDup d.*1 -> NoDup (od_set d k v).*1.
Proof.
  induction d as [|[k0 v0] d IH]; simpl; intros Hnd.
  - apply NoDup_singleton.
  - apply NoDup_cons in Hnd as [Hnotin Hnd].
    destruct (decide (k = k0)) as [->|Hne]; simpl.
    + by apply NoDup_cons.
    + apply NoDup_cons. split; [|by apply IH].
      rewrite od_set_keys. intros [?|?]; [congruence | done].
Qed.

Lemma od_set_fresh d k v : k ∉ d.*1 -> od_set d k v = d ++ [(k, v)].
Proof.
  induction d as [|[k0 v0] d IH]; simpl; intros Hnotin; [done|].
  apply not_elem_of_cons in Hnotin as [Hne Hnotin].
  destruct (decide (k = k0)); [done|]. by rewrite IH.
Qed.

Lemma OrderedDict_snoc pairs k v :
  OrderedDict (pairs ++ [(k, v)]) = od_set (OrderedDict pairs) k v.
Proof. unfold OrderedDict. by rewrite foldl_app. Qed.

(** [d[k]] is the value of the last pair given for [k]. *)
Lemma od_get_OrderedDict pairs k :
  od_get (OrderedDict pairs) k = od_get (reverse pairs) k.
Proof.
  induction pairs as [|[k0 v0] pairs IH] using rev_ind; [done|].
  rewrite OrderedDict_snoc, od_get_set, reverse_app. simpl.
  destruct (decide (k = k0)); [done | exact IH].
Qed.

Lemma OrderedDict_keys pairs k : k ∈ (OrderedDict pairs).*1 <-> k ∈ pairs.*1.
Proof.
  induction pairs as [|[k0 v0] pairs IH] using rev_ind; [done|].
  rewrite OrderedDict_snoc, od_set_keys, fmap_app, elem_of_app, IH. simpl.
  rewrite list_elem_of_singleton. tauto.
Qed.

Lemma OrderedDict_keys_NoDup pairs : NoDup (OrderedDict pairs).*1.
Proof.
  induction pairs as [|[k0 v0] pairs IH] using rev_ind; [constructor|].
  rewrite OrderedDict_snoc. by apply od_set_keys_NoDup.
Qed.

Lemma OrderedDict_elem_of pairs k v :
  (k, v) ∈ OrderedDict pairs -> (k, v) ∈ pairs.
Proof.
  induction pairs as [|[k0 v0] pairs IH] using rev_ind; [done|].
  rewrite OrderedDict_snoc, elem_of_app, list_elem_of_singleton.
  intros [?|?]%od_set_elem_of; [by right | left; by apply IH].
Qed.

(** Pairs with distinct keys are kept as they are. *)
Lemma OrderedDict_NoDup pairs : NoDup pairs.*1 -> OrderedDict pairs = pairs.
Proof.
  induction pairs as [|[k0 v0] pairs IH] using rev_ind; [done|].
  rewrite fmap_app. intros Hnd. apply NoDup_app in Hnd as (Hnd & Hdisj & _).
  rewrite OrderedDict_snoc, IH by done.
  apply od_set_fresh. intros Hin. apply (Hdisj _ Hin). simpl. by left.
Qed.

Lemma od_get_elem_of d k v : od_get d k = Some v -> (k, v) ∈ d.
Proof.
  induction d as [|[k0 v0] d IH]; simpl; [done|].
  destruct (decide (k = k0)) as [->|Hne].
  - intros [= ->]. by left.
  - intros Hget. right. by apply IH.
Qed.

Lemma od_get_is_Some d k : k ∈ d.*1 -> is_Some (od_get d k).
Proof.
  induction d as [|[k0 v0] d IH]; simpl.
  - by intros ?%elem_of_nil.
  - destruct (decide (k = k0)); [by eexists|].
    intros [?|?]%elem_of_cons; [done | by apply IH].
Qed.

Lemma elem_of_od_get d k v : NoDup d.*1 -> (k, v) ∈ d -> od_get d k = Some v.
Proof.
  induction d as [|[k0 v0] d IH]; simpl; intros Hnd Hin.
  - by apply elem_of_nil in Hin.
  - apply NoDup_cons in Hnd as [Hnotin Hnd].
    apply elem_of_cons in Hin as [[= -> ->]|Hin].
    + by destruct (decide (k0 = k0)).
    + destruct (decide (k = k0)) as [->|Hne]; [|by apply IH].
      exfalso. apply Hnotin. apply list_elem_of_fmap. by exists (k0, v).
Qed.

End OrderedDict_facts.

(** ** Reading a graph *)

Lemma variable_filter_elem_of r (h : heap) vars v :
  v ∈ variable_filter r h vars <->
  v ∈ vars /\ exists x, h !! v = Some x /\ selected r x = true.
Proof.
  unfold variable_filter. rewrite !list_elem_of_In, filter_In.
  split; intros [Hin Hsel]; (split; [exact Hin|]).
  - destruct (h !! v) as [x|]; [by exists x | discriminate].
  - destruct Hsel as (x & -> & Hsel). exact Hsel.
Qed.

Lemma variable_filter_extend r (h t : heap) vars :
  Forall (fun v => (v < length h)%nat) vars ->
  variable_filter r (h ++ t) vars = variable_filter r h vars.
Proof.
  intros Hvalid. unfold variable_filter.
  induction Hvalid as [|v vars Hv _ IH]; simpl; [done|].
  by rewrite IH, (lookup_app_l h t v Hv).
Qed.

Lemma variable_filter_valid r (h : heap) vars :
  Forall (fun v => (v < length h)%nat) (variable_filter r h vars).
Proof.
  apply Forall_forall. intros v (_ & x & Hx & _)%variable_filter_elem_of.
  by eapply lookup_lt_Some.
Qed.

Lemma get_application_call_dict_extend r (h t : heap) cg :
  valid_graph h cg ->
  get_application_call_dict r (h ++ t) cg = get_application_call_dict r h cg.
Proof.
  intros Hvalid. unfold get_application_call_dict.
  rewrite (variable_filter_extend r h t _ Hvalid). f_equal.
  apply Forall_fmap_ext_1.
  eapply Forall_impl; [apply variable_filter_valid|].
  intros v Hv. simpl. unfold get_application_call.
  by rewrite (lookup_app_l h t v Hv).
Qed.

(** The variables a dictionary holds passed the filter. *)
Lemma get_application_call_dict_elem_of r (h : heap) cg k v :
  (k, v) ∈ get_application_call_dict r h cg ->
  v ∈ variable_filter r h (variables cg) /\ k = get_application_call h v.
Proof.
  intros Hin%OrderedDict_elem_of.
  apply list_elem_of_fmap in Hin as (v' & [= -> ->] & Hin). by split.
Qed.

Lemma get_application_call_dict_keys r (h : heap) cg k :
  k ∈ (get_application_call_dict r h cg).*1 <->
  k ∈ get_application_call h <$> variable_filter r h (variables cg).
Proof.
  unfold get_application_call_dict.
  by rewrite OrderedDict_keys, <- list_fmap_compose.
Qed.

Lemma get_application_call_dict_lookup r (h : heap) cg k :
  k ∈ (get_application_call_dict r h cg).*1 ->
  exists v x, od_get (get_application_call_dict r h cg) k = Some v
              /\ h !! v = Some x /\ selected r x = true.
Proof.
  intros [v Hget]%od_get_is_Some. pose proof Hget as Hin%od_get_elem_of.
  apply get_application_call_dict_elem_of in Hin as [Hin _].
  apply variable_filter_elem_of in Hin as (_ & x & Hx & Hsel).
  by exists v, x.
Qed.

Lemma same_keys_spec d1 d2 :
  same_keys d1 d2 = true <-> forall k, k ∈ d1.*1 <-> k ∈ d2.*1.
Proof.
  unfold same_keys. rewrite bool_decide_eq_true. split.
  - intros Heq k. by rewrite <- !(elem_of_list_to_set (C:=gset _)), Heq.
  - intros Hiff. apply set_eq. intros k.
    by rewrite !elem_of_list_to_set.
Qed.

Lemma isdisjoint_spec vs1 vs2 :
  isdisjoint vs1 vs2 = true <-> forall v, v ∈ vs1 -> v ∈ vs2 -> False.
Proof.
  unfold isdisjoint. rewrite bool_decide_eq_true, elem_of_disjoint.
  split; intros Hdisj v; specialize (Hdisj v);
    rewrite ?elem_of_list_to_set in *; exact Hdisj.
Qed.

(** ** Replacing *)

Lemma clone_variable_frame repl m v (g : heap) :
  exists t,
    fst (clone_variable repl m v g) = g ++ t
    /\ snd (clone_variable repl m v g) <> raise AssertionError
    /\ ((v < length g)%nat -> is_ok (snd (clone_variable repl m v g)) = true).
Proof.
  unfold clone_variable. destruct (repl !! v) as [new|].
  { exists []. by rewrite app_nil_r. }
  destruct (g !! v) as [xv|] eqn:Hv.
  - rewrite (run_bind_ok _ _ g g xv) by (unfold read; by rewrite Hv).
    destruct (v_origin xv) as [|c|o ins].
    + exists []. rewrite app_nil_r. by repeat split.
    + exists []. rewrite app_nil_r. by repeat split.
    + eexists. unfold bind, alloc, ret. cbn.
      split; [reflexivity|]. by split.
  - rewrite (run_bind_raise _ _ g g NoSuchObject)
      by (unfold read; by rewrite Hv).
    exists []. rewrite app_nil_r. simpl. split; [done|]. split; [done|].
    intros Hlt. apply lookup_ge_None in Hv. lia.
Qed.

Lemma clone_variables_frame repl vars :
  forall m (g : heap),
    exists t,
      fst (clone_variables repl m vars g) = g ++ t
      /\ snd (clone_variables repl m vars g) <> raise AssertionError
      /\ (Forall (fun v => (v < length g)%nat) vars ->
          is_ok (snd (clone_variables repl m vars g)) = true).
Proof.
  induction vars as [|v vars IH]; intros m g; simpl.
  { exists []. by rewrite app_nil_r. }
  destruct (clone_variable_frame repl m v g) as (t & Ht & Hne & Hok).
  unfold bind.
  destruct (clone_variable repl m v g) as [g' [e|m']] eqn:Hrun;
    simpl in Ht, Hne, Hok; subst g'.
  - exists t. split; [done|]. split; [done|].
    intros Hvalid. apply Forall_cons in Hvalid as [Hv _].
    by specialize (Hok Hv).
  - destruct (IH m' (g ++ t)) as (t' & Ht' & Hne' & Hok').
    exists (t ++ t'). rewrite Ht', app_assoc. split; [done|].
    split; [done|].
    intros Hvalid. apply Forall_cons in Hvalid as [_ Hvalid].
    apply Hok'. eapply Forall_impl; [exact Hvalid|].
    intros v'. simpl. rewrite length_app. lia.
Qed.

Lemma replace_frame cg reps (g : heap) :
  exists t,
    fst (replace cg reps g) = g ++ t
    /\ snd (replace cg reps g) <> raise AssertionError
    /\ (Forall (fun v => (v < length g)%nat) (variables cg) ->
        is_ok (snd (replace cg reps g)) = true).
Proof.
  unfold replace, bind.
  destruct (clone_variables_frame (list_to_map (reverse reps)) (variables cg)
              ∅ g) as (t & Ht & Hne & Hok).
  destruct (clone_variables _ _ _ g) as [g' [e|m]]; simpl in *; subst g'.
  - exists t. split; [reflexivity|]. split; [|assumption].
    intros [= ->]. by apply Hne.
  - exists t. split; [reflexivity|]. split; [discriminate | reflexivity].
Qed.

(** ** Collecting the replacements *)

Lemma true_indices_from_spec n bs i :
  i ∈ true_indices_from n bs <->
  exists j, i = (n + j)%nat /\ bs !! j = Some true.
Proof.
  revert n. induction bs as [|b bs IH]; intros n; simpl.
  - rewrite elem_of_nil. split; [done|]. by intros (j & _ & ?).
  - assert (Htail : i ∈ true_indices_from (S n) bs <->
                    exists j, i = (n + S j)%nat /\ bs !! j = Some true).
    { rewrite IH. split; intros (j & -> & Hj); exists j; split; [lia|done|lia|done]. }
    destruct b.
    + rewrite elem_of_cons, Htail. split.
      * intros [->|(j & -> & Hj)]; [exists 0%nat | exists (S j)];
          split; [lia|done|done|done].
      * intros ([|j] & -> & Hj); [left; lia | right; by exists j].
    + rewrite Htail. split.
      * intros (j & -> & Hj). by exists (S j).
      * intros ([|j] & -> & Hj); [done | by exists j].
Qed.

Lemma true_indices_spec bs i :
  i ∈ true_indices bs <-> bs !! i = Some true.
Proof.
  unfold true_indices. rewrite true_indices_from_spec. split.
  - by intros (j & -> & Hj).
  - intros Hi. by exists i.
Qed.

Section replacements.
Variables (computation_graph : ComputationGraph) (epsilon : scalar).
Variable h : heap.

Let means := get_application_call_dict BATCH_NORM_OFFSET h computation_graph.
Let stdevs := get_application_call_dict BATCH_NORM_DIVISOR h computation_graph.
Let inputs := get_application_call_dict INPUT h computation_graph.

Lemma keys_processable application_call :
  same_keys means stdevs && same_keys means inputs = true ->
  application_call ∈ means.*1 ->
  is_Some application_call ->
  processable means stdevs inputs h application_call.
Proof.
  intros [Hs Hi]%andb_true_iff Hin [call ->].
  rewrite same_keys_spec in Hs, Hi.
  destruct (get_application_call_dict_lookup _ _ _ _ Hin)
    as (mean & mean_var & Hmean & Hmv & _).
  destruct (get_application_call_dict_lookup _ _ _ _ (proj1 (Hi _) Hin))
    as (input & input_var & Hinput & Hiv & _).
  destruct (od_get_is_Some _ _ (proj1 (Hs _) Hin)) as [stdev Hstdev].
  by exists call, mean, stdev, input, mean_var, input_var.
Qed.

Lemma replacements_raise_unless_asserted :
  assertions_hold computation_graph h = false ->
  batch_normalize_replacements computation_graph epsilon h
  = (h, raise AssertionError).
Proof.
  unfold assertions_hold, batch_normalize_replacements.
  fold means stdevs inputs.
  destruct (same_keys means stdevs && same_keys means inputs); [|done].
  simpl. by intros ->.
Qed.

Lemma replacements_loop :
  assertions_hold computation_graph h = true ->
  batch_normalize_replacements computation_graph epsilon h
  = for_each_call means stdevs inputs epsilon [] means.*1 h.
Proof.
  unfold assertions_hold, batch_normalize_replacements.
  fold means stdevs inputs.
  intros [-> ->]%andb_true_iff. reflexivity.
Qed.

(** On a store that extends [h] without changing what the graph shows, the
    replacements are collected as on [h], further up in the store. *)
Lemma replacements_run (t : heap) :
  (forall r, get_application_call_dict r (h ++ t) computation_graph
             = get_application_call_dict r h computation_graph) ->
  assertions_hold computation_graph h = true ->
  Forall is_Some means.*1 ->
  batch_normalize_replacements computation_graph epsilon (h ++ t)
  = (h ++ (t ++ statistics_blocks means stdevs inputs epsilon h
                  (length h + length t) means.*1),
     ok (statistics_replacements means stdevs (length h + length t)
           means.*1)).
Proof.
  intros Hsame Hassert Hsome.
  unfold batch_normalize_replacements. rewrite !Hsame.
  fold means stdevs inputs.
  unfold assertions_hold in Hassert. fold means stdevs inputs in Hassert.
  apply andb_true_iff in Hassert as [Hkeys Hdisj].
  rewrite Hkeys, Hdisj. simpl negb. cbv iota.
  rewrite (for_each_call_run means stdevs inputs epsilon h); [done|].
  apply Forall_forall. intros ac Hin.
  apply keys_processable; [done..|].
  by eapply Forall_forall in Hsome.
Qed.

Lemma replacements_ok_inv (h1 : heap) reps :
  batch_normalize_replacements computation_graph epsilon h = (h1, ok reps) ->
  assertions_hold computation_graph h = true /\ Forall is_Some means.*1.
Proof.
  intros Hrun. destruct (assertions_hold computation_graph h) eqn:Hassert.
  - split; [done|]. rewrite replacements_loop in Hrun by done.
    by eapply for_each_call_ok_inv.
  - rewrite replacements_raise_unless_asserted in Hrun by done. discriminate.
Qed.


Lemma replacements_assertion_iff :
  snd (batch_normalize_replacements computation_graph epsilon h)
  = raise AssertionError <-> assertions_hold computation_graph h = false.
Proof.
  split.
  - intros Hraise. destruct (assertions_hold computation_graph h) eqn:Hassert; [|done].
    rewrite replacements_loop in Hraise by done.
    destruct (for_each_call_frame means stdevs inputs epsilon means.*1 [] h)
      as (t & _ & Hne). by destruct Hne.
  - intros Hassert. by rewrite replacements_raise_unless_asserted.
Qed.

End replacements.

Lemma statistics_blocks_elem means stdevs inputs epsilon (h : heap) calls :
  Forall (processable means stdevs inputs h) calls ->
  forall n application_call,
    application_call ∈ calls ->
    exists pre post call mean stdev input mean_var input_var,
      application_call = Some call
      /\ od_get means application_call = Some mean
      /\ h !! mean = Some mean_var
      /\ od_get inputs application_call = Some input
      /\ h !! input = Some input_var
      /\ od_get stdevs application_call = Some stdev
      /\ statistics_blocks means stdevs inputs epsilon h n calls
         = pre ++ statistics_block call mean stdev input mean_var input_var
                    epsilon (n + length pre) ++ post
      /\ (mean, (n + length pre)%nat)
         ∈ statistics_replacements means stdevs n calls
      /\ (stdev, (n + length pre + 4)%nat)
         ∈ statistics_replacements means stdevs n calls.
Proof.
  induction 1 as [|ac calls Hac Hcalls IH]; intros n application_call Hin.
  { by apply elem_of_nil in Hin. }
  pose proof Hac as (call & mean & stdev & input & mean_var & input_var
                     & -> & Hmean & Hmv & Hinput & Hiv & Hstdev).
  apply elem_of_cons in Hin as [->|Hin].
  - exists [], (statistics_blocks means stdevs inputs epsilon h (n + 5) calls),
      call, mean, stdev, input, mean_var, input_var.
    do 6 (split; [done|]). cbn [statistics_blocks statistics_replacements].
    unfold block_of, pairs_of. rewrite Hmean, Hstdev, Hinput, Hmv, Hiv.
    cbn [length app]. rewrite Nat.add_0_r. split; [done|].
    split; [by left | right; by left].
  - destruct (IH (n + 5)%nat _ Hin)
      as (pre & post & call' & mean' & stdev' & input' & mean_var'
          & input_var' & -> & Hmean' & Hmv' & Hinput' & Hiv' & Hstdev'
          & Hblocks & Hpm & Hps).
    exists (statistics_block call mean stdev input mean_var input_var
              epsilon n ++ pre), post,
      call', mean', stdev', input', mean_var', input_var'.
    do 6 (split; [done|]). cbn [statistics_blocks statistics_replacements].
    unfold block_of, pairs_of. rewrite Hmean, Hstdev, Hinput, Hmv, Hiv.
    rewrite Hblocks, length_app. cbn [length statistics_block].
    replace (n + (5 + length pre))%nat with (n + 5 + length pre)%nat by lia.
    split; [by rewrite <- app_assoc|].
    split; (do 2 right); assumption.
Qed.

(** ** batch_normalize as a whole *)

Lemma lookup_block_final (h pre block post t : heap) k :
  (k < length block)%nat ->
  (h ++ (pre ++ block ++ post) ++ t) !! (length h + length pre + k)%nat
  = block !! k.
Proof.
  intros Hk. rewrite <- Nat.add_assoc, lookup_new.
  rewrite <- !app_assoc, lookup_new. by apply lookup_app_l.
Qed.

Section batch_normalize_facts.
Variables (computation_graph : ComputationGraph) (epsilon : option scalar).
Variable h : heap.

Let means := get_application_call_dict BATCH_NORM_OFFSET h computation_graph.
Let stdevs := get_application_call_dict BATCH_NORM_DIVISOR h computation_graph.
Let inputs := get_application_call_dict INPUT h computation_graph.
Let eps := default default_epsilon epsilon.
Let blocks := statistics_blocks means stdevs inputs eps h (length h) means.*1.
Let replacements := statistics_replacements means stdevs (length h) means.*1.

Lemma replacements_run_here :
  assertions_hold computation_graph h = true ->
  Forall is_Some means.*1 ->
  batch_normalize_replacements computation_graph eps h
  = (h ++ blocks, ok replacements).
Proof.
  intros Hassert Hsome.
  pose proof (replacements_run computation_graph eps h []) as Hrun.
  rewrite !app_nil_r in Hrun. simpl in Hrun. rewrite Nat.add_0_r in Hrun.
  by apply Hrun.
Qed.

Lemma batch_normalize_ok_inv (h' : heap) cg' :
  batch_normalize computation_graph epsilon h = (h', ok cg') ->
  assertions_hold computation_graph h = true
  /\ Forall is_Some means.*1
  /\ replace computation_graph replacements (h ++ blocks) = (h', ok cg')
  /\ exists t, h' = h ++ blocks ++ t.
Proof.
  unfold batch_normalize, bind. fold eps.
  destruct (batch_normalize_replacements computation_graph eps h)
    as [h1 [e|reps]] eqn:Hrun; [discriminate|].
  intros Hreplace.
  destruct (replacements_ok_inv _ _ _ _ _ Hrun) as [Hassert Hsome].
  rewrite replacements_run_here in Hrun by done.
  injection Hrun as <- <-.
  do 2 (split; [done|]). split; [done|].
  destruct (replace_frame computation_graph replacements (h ++ blocks))
    as (t & Ht & _).
  rewrite Hreplace in Ht. simpl in Ht. exists t. by rewrite app_assoc.
Qed.

Lemma batch_normalize_ok :
  valid_graph h computation_graph ->
  assertions_hold computation_graph h = true ->
  Forall is_Some means.*1 ->
  is_ok (snd (batch_normalize computation_graph epsilon h)) = true.
Proof.
  intros Hvalid Hassert Hsome. unfold batch_normalize. fold eps.
  rewrite (run_bind_ok _ _ _ _ _ (replacements_run_here Hassert Hsome)).
  destruct (replace_frame computation_graph replacements (h ++ blocks))
    as (_ & _ & _ & Hok).
  apply Hok. eapply Forall_impl; [exact Hvalid|].
  intros v. simpl. rewrite length_app. lia.
Qed.


Lemma batch_normalize_assertion_iff :
  snd (batch_normalize computation_graph epsilon h) = raise AssertionError
  <-> assertions_hold computation_graph h = false.
Proof.
  rewrite <- (replacements_assertion_iff computation_graph eps h).
  unfold batch_normalize, bind. fold eps.
  destruct (batch_normalize_replacements computation_graph eps h)
    as [h1 [e|reps]]; simpl.
  - split; intros [= ->]; reflexivity.
  - destruct (replace_frame computation_graph reps h1) as (_ & _ & Hne & _).
    split; [|discriminate]. intros Hraise. by destruct Hne.
Qed.

End batch_normalize_facts.

(** C1: for every application call [batch_normalize] goes through, with
    offset variable [mean], divisor variable [stdev] and input variable
    [input]: the reduction axes are exactly the indices at which the
    broadcastable pattern of [mean] is [True]; [mean] is replaced by the
    mean of [input] over those axes with [keepdims=True]; [stdev] is
    replaced by the square root of the sum of the variance of [input] over
    those axes with [keepdims=True] and the constant epsilon, which is the
    argument of that name, 1e-4 when it is left out.  On a graph whose
    variables all exist, the function returns exactly when its assertions
    hold and no call is [None]. *)
Theorem minibatch_statistics
    (computation_graph : ComputationGraph) (epsilon : option scalar)
    (h : heap) :
  let means := get_application_call_dict BATCH_NORM_OFFSET h computation_graph in
  let stdevs :=
    get_application_call_dict BATCH_NORM_DIVISOR h computation_graph in
  let inputs := get_application_call_dict INPUT h computation_graph in
  (forall (h' : heap) cg',
     batch_normalize computation_graph epsilon h = (h', ok cg') ->
     forall application_call mean,
       (application_call, mean) ∈ means ->
       exists mean_var stdev input
              minibatch_mean variance constant stabilized minibatch_std,
         h !! mean = Some mean_var
         /\ od_get stdevs application_call = Some stdev
         /\ od_get inputs application_call = Some input
         /\ let axes := true_indices (v_broadcastable mean_var) in
            (forall i, i ∈ axes <-> v_broadcastable mean_var !! i = Some true)
            /\ v_origin <$> h' !! minibatch_mean
               = Some (Apply (Mean axes true) [input])
            /\ replacement_of ∘ v_tag <$> h' !! minibatch_mean
               = Some (Some mean)
            /\ v_origin <$> h' !! minibatch_std
               = Some (Apply Sqrt [stabilized])
            /\ replacement_of ∘ v_tag <$> h' !! minibatch_std
               = Some (Some stdev)
            /\ v_origin <$> h' !! stabilized
               = Some (Apply Add [variance; constant])
            /\ v_origin <$> h' !! variance
               = Some (Apply (Variance axes true) [input])
            /\ v_origin <$> h' !! constant
               = Some (Const (default (Lit (1 # 10000)) epsilon)))
  /\ (valid_graph h computation_graph ->
      (is_ok (snd (batch_normalize computation_graph epsilon h)) = true <->
       assertions_hold computation_graph h = true
       /\ Forall is_Some means.*1)).
Proof.
  intros means stdevs inputs. split.
  - intros h' cg' Hrun application_call mean Hin.
    destruct (batch_normalize_ok_inv _ _ _ _ _ Hrun)
      as (Hassert & Hsome & _ & t & ->).
    fold means stdevs inputs in Hsome |- *.
    assert (Hkey : application_call ∈ means.*1).
    { apply list_elem_of_fmap. by exists (application_call, mean). }
    assert (Hproc : Forall (processable means stdevs inputs h) means.*1).
    { apply Forall_forall. intros ac Hac.
      unfold assertions_hold in Hassert.
      apply andb_true_iff in Hassert as [Hkeys _].
      apply keys_processable; [done..|].
      by eapply Forall_forall in Hsome. }
    destruct (statistics_blocks_elem means stdevs inputs
                (default default_epsilon epsilon) h _ Hproc (length h) _ Hkey)
      as (pre & post & call & mean' & stdev & input & mean_var & input_var
          & -> & Hmean & Hmv & Hinput & Hiv & Hstdev & -> & _).
    assert (mean' = mean) as ->.
    { pose proof (elem_of_od_get means _ _
                    (OrderedDict_keys_NoDup _) Hin) as Hget.
      congruence. }
    set (n := (length h + length pre)%nat).
    exists mean_var, stdev, input, (n + 0)%nat, (n + 1)%nat, (n + 2)%nat,
      (n + 3)%nat, (n + 4)%nat.
    do 3 (split; [done|]). cbv zeta.
    split; [intros i; apply true_indices_spec|].
    unfold n. rewrite !lookup_block_final by (simpl; lia).
    repeat split; reflexivity.
  - intros Hvalid. split.
    + intros Hok.
      destruct (batch_normalize computation_graph epsilon h)
        as [h' [e|cg']] eqn:Hrun; [discriminate|].
      destruct (batch_normalize_ok_inv _ _ _ _ _ Hrun) as (? & ? & _).
      by split.
    + intros [Hassert Hsome]. by apply batch_normalize_ok.
Qed.

Lemma minibatch_statistics_witness :
  exists (h' : heap) cg' mean_var stdev input
         minibatch_mean variance constant stabilized minibatch_std,
    batch_normalize example_graph None example_heap = (h', ok cg')
    /\ example_heap !! 3%nat = Some mean_var
    /\ od_get (get_application_call_dict BATCH_NORM_DIVISOR example_heap
                 example_graph) (Some example_call) = Some stdev
    /\ od_get (get_application_call_dict INPUT example_heap example_graph)
         (Some example_call) = Some input
    /\ v_origin <$> h' !! minibatch_mean
       = Some (Apply (Mean (true_indices (v_broadcastable mean_var)) true)
                 [input])
    /\ v_origin <$> h' !! minibatch_std = Some (Apply Sqrt [stabilized])
    /\ v_origin <$> h' !! stabilized = Some (Apply Add [variance; constant])
    /\ v_origin <$> h' !! variance
       = Some (Apply (Variance (true_indices (v_broadcastable mean_var)) true)
                 [input])
    /\ v_origin <$> h' !! constant = Some (Const (Lit (1 # 10000))).
Proof.
  destruct (batch_normalize example_graph None example_heap)
    as [h' [e|cg']] eqn:Hrun.
  { vm_compute in Hrun. discriminate. }
  assert (Hin : (Some example_call, 3%nat)
                ∈ get_application_call_dict BATCH_NORM_OFFSET example_heap
                    example_graph).
  { replace (get_application_call_dict BATCH_NORM_OFFSET example_heap
               example_graph)
      with [(Some example_call, 3%nat)] by (vm_compute; reflexivity).
    by left. }
  destruct (proj1 (minibatch_statistics example_graph None example_heap)
              h' cg' Hrun (Some example_call) 3%nat Hin)
    as (mean_var & stdev & input & minibatch_mean & variance & constant
        & stabilized & minibatch_std & Hmv & Hstdev & Hinput & _ & Hmean
        & _ & Hstd & _ & Hadd & Hvar & Hconst).
  exists h', cg', mean_var, stdev, input, minibatch_mean, variance, constant,
    stabilized, minibatch_std.
  repeat split; assumption.
Defined.


Lemma statistics_replacements_new means stdevs n calls old new :
  (old, new) ∈ statistics_replacements means stdevs n calls -> (n <= new)%nat.
Proof.
  revert n. induction calls as [|ac calls IH]; intros n; simpl.
  { by intros ?%elem_of_nil. }
  rewrite elem_of_app. intros [Hin|Hin].
  - unfold pairs_of in Hin.
    destruct (od_get means ac), (od_get stdevs ac);
      try by apply elem_of_nil in Hin.
    apply elem_of_cons in Hin as [[= -> ->]|Hin]; [lia|].
    apply list_elem_of_singleton in Hin as [= -> ->]. lia.
  - apply IH in Hin. lia.
Qed.

Example example_replacements :
  snd (batch_normalize_replacements example_graph default_epsilon example_heap)
  = ok [(3%nat, 9%nat); (5%nat, 13%nat)].
Proof. vm_compute. reflexivity. Qed.

Example example_new_graph :
  exists h' cg',
    batch_normalize example_graph None example_heap = (h', ok cg')
    /\ outputs cg' = [15%nat]
    /\ v_origin <$> h' !! 15%nat
       = Some (Apply (OtherOp "batch_normalization")
                 [14; 6; 7; 9; 13]%nat).
Proof. eexists _, _. split; [vm_compute; reflexivity|]. by split. Qed.

(** ** The assertions *)

Lemma same_keys_false d1 d2 :
  same_keys d1 d2 = false <-> ~ forall k, k ∈ d1.*1 <-> k ∈ d2.*1.
Proof.
  rewrite <- same_keys_spec. by destruct (same_keys d1 d2).
Qed.

Lemma isdisjoint_false vs1 vs2 :
  isdisjoint vs1 vs2 = false <-> exists v, v ∈ vs1 /\ v ∈ vs2.
Proof.
  split.
  - intros Hfalse.
    destruct (decide (Exists (fun v => v ∈ vs2) vs1)) as [Hex|Hnex].
    + apply Exists_exists in Hex as (v & ? & ?). by exists v.
    + assert (isdisjoint vs1 vs2 = true); [|congruence].
      apply isdisjoint_spec. intros v Hv1 Hv2. apply Hnex.
      apply Exists_exists. by exists v.
  - intros (v & Hv1 & Hv2).
    destruct (isdisjoint vs1 vs2) eqn:Hdisj; [|done].
    rewrite isdisjoint_spec in Hdisj. by destruct (Hdisj v).
Qed.

Lemma assertions_hold_false (h : heap) cg :
  assertions_hold cg h = false <->
  ~ same_owners h cg
  \/ exists v,
       v ∈ (get_application_call_dict BATCH_NORM_OFFSET h cg).*2
       /\ v ∈ (get_application_call_dict BATCH_NORM_DIVISOR h cg).*2.
Proof.
  unfold assertions_hold, same_owners, owners.
  pose proof (same_keys_spec
                (get_application_call_dict BATCH_NORM_OFFSET h cg)
                (get_application_call_dict BATCH_NORM_DIVISOR h cg)) as H1.
  pose proof (same_keys_spec
                (get_application_call_dict BATCH_NORM_OFFSET h cg)
                (get_application_call_dict INPUT h cg)) as H2.
  pose proof (isdisjoint_false
                (get_application_call_dict BATCH_NORM_OFFSET h cg).*2
                (get_application_call_dict BATCH_NORM_DIVISOR h cg).*2) as H3.
  setoid_rewrite get_application_call_dict_keys in H1.
  setoid_rewrite get_application_call_dict_keys in H2.
  destruct (same_keys _ _), (same_keys _ _), (isdisjoint _ _); simpl;
    intuition congruence.
Qed.

(** A dictionary holds variables that passed its filter, and all of them
    when no two belong to the same application call. *)
Lemma get_application_call_dict_values r (h : heap) cg v :
  v ∈ (get_application_call_dict r h cg).*2 ->
  v ∈ variable_filter r h (variables cg).
Proof.
  intros ([k v'] & -> & Hin)%list_elem_of_fmap.
  by apply get_application_call_dict_elem_of in Hin as [? _].
Qed.

Lemma get_application_call_dict_NoDup r (h : heap) cg :
  NoDup (owners r h cg) ->
  (get_application_call_dict r h cg).*2 = variable_filter r h (variables cg).
Proof.
  intros Hnd. unfold get_application_call_dict.
  rewrite OrderedDict_NoDup.
  - rewrite <- list_fmap_compose. apply list_fmap_id.
  - by rewrite <- list_fmap_compose.
Qed.

(** C2, as the code has it: [batch_normalize] fails its assertions exactly
    when the application calls owning offsets, divisors and inputs are not
    the same three sets, or some variable is held both by the dictionary of
    offsets and by the dictionary of divisors, where a dictionary holds for
    each application call the last of its variables in the order of the
    graph.  When no application call owns two offsets or two divisors, that
    is: exactly when the sets differ or some variable is both an offset and
    a divisor.  On a well-formed graph the assertions do not fail. *)
Theorem assertion_failure_iff
    (computation_graph : ComputationGraph) (epsilon : option scalar)
    (h : heap) :
  let result := snd (batch_normalize computation_graph epsilon h) in
  let dict r := get_application_call_dict r h computation_graph in
  (result = raise AssertionError <->
   ~ same_owners h computation_graph
   \/ exists v, v ∈ (dict BATCH_NORM_OFFSET).*2
                /\ v ∈ (dict BATCH_NORM_DIVISOR).*2)
  /\ (forall r application_call,
        od_get (dict r) application_call
        = od_get (reverse
                    ((fun v => (get_application_call h v, v))
                       <$> variable_filter r h (variables computation_graph)))
            application_call)
  /\ (NoDup (owners BATCH_NORM_OFFSET h computation_graph) ->
      NoDup (owners BATCH_NORM_DIVISOR h computation_graph) ->
      (result = raise AssertionError <->
       ~ same_owners h computation_graph
       \/ exists v, offset_and_divisor h computation_graph v))
  /\ (well_formed h computation_graph -> result <> raise AssertionError).
Proof.
  intros result dict. unfold result.
  rewrite batch_normalize_assertion_iff, assertions_hold_false.
  split; [done|]. split.
  { intros r application_call. apply od_get_OrderedDict. }
  split.
  - intros Hnd1 Hnd2. unfold offset_and_divisor.
    rewrite <- (get_application_call_dict_NoDup _ _ _ Hnd1).
    by rewrite <- (get_application_call_dict_NoDup _ _ _ Hnd2).
  - intros [Hsame Hnone] Hfail.
    destruct Hfail as [Hne|(v & Hv1 & Hv2)]; [done|].
    apply (Hnone v).
    split; by apply get_application_call_dict_values.
Qed.

Lemma assertion_failure_iff_witness :
  well_formed example_heap example_graph
  /\ snd (batch_normalize example_graph None example_heap)
     <> raise AssertionError.
Proof.
  assert (Hwf : well_formed example_heap example_graph).
  { unfold well_formed, same_owners, offset_and_divisor, owners.
    replace (variable_filter BATCH_NORM_OFFSET example_heap
               (variables example_graph)) with [3%nat]
      by (vm_compute; reflexivity).
    replace (variable_filter BATCH_NORM_DIVISOR example_heap
               (variables example_graph)) with [5%nat]
      by (vm_compute; reflexivity).
    replace (variable_filter INPUT example_heap (variables example_graph))
      with [1%nat] by (vm_compute; reflexivity).
    split; [split; intros c; reflexivity|].
    intros v [H3%list_elem_of_singleton H5%list_elem_of_singleton].
    congruence. }
  split; [exact Hwf|].
  exact (proj2 (proj2 (proj2 (assertion_failure_iff example_graph None
                                example_heap))) Hwf).
Defined.

(** C2 as stated fails: variable 1 is both an offset and a divisor, yet no
    assertion fails and a new graph is returned. *)
Lemma aliased_variable_passes_assertions :
  offset_and_divisor aliased_heap aliased_graph 1%nat
  /\ same_owners aliased_heap aliased_graph
  /\ is_ok (snd (batch_normalize aliased_graph None aliased_heap)) = true
  /\ snd (batch_normalize aliased_graph None aliased_heap)
     <> raise AssertionError.
Proof.
  unfold offset_and_divisor, same_owners, owners.
  replace (variable_filter BATCH_NORM_OFFSET aliased_heap
             (variables aliased_graph)) with [1%nat; 2%nat]
    by (vm_compute; reflexivity).
  replace (variable_filter BATCH_NORM_DIVISOR aliased_heap
             (variables aliased_graph)) with [1%nat; 3%nat]
    by (vm_compute; reflexivity).
  replace (variable_filter INPUT aliased_heap (variables aliased_graph))
    with [0%nat] by (vm_compute; reflexivity).
  split; [split; by left|].
  split.
  { change (get_application_call aliased_heap <$> [1%nat; 2%nat])
      with [Some example_call; Some example_call].
    change (get_application_call aliased_heap <$> [1%nat; 3%nat])
      with [Some example_call; Some example_call].
    change (get_application_call aliased_heap <$> [0%nat])
      with [Some example_call].
    split; intros c; rewrite !elem_of_cons, elem_of_nil; tauto. }
  destruct (batch_normalize aliased_graph None aliased_heap)
    as [h' [e|cg']] eqn:Hrun.
  { vm_compute in Hrun. discriminate. }
  split; [reflexivity | discriminate].
Qed.

(** ** Running twice *)

Lemma expr_of_old base (h : heap) fuel v :
  (v < base)%nat -> expr_of base h fuel v = Old v.
Proof.
  intros Hv%Nat.ltb_lt. destruct fuel; simpl; by rewrite Hv.
Qed.

Lemma expr_of_cut base (h : heap) v :
  (base <= v)%nat -> expr_of base h 0 v = Cut.
Proof. intros Hv%Nat.ltb_ge. simpl. by rewrite Hv. Qed.

Lemma expr_of_new base (h : heap) fuel v x :
  (base <= v)%nat ->
  h !! v = Some x ->
  expr_of base h (S fuel) v
  = New (erase_inputs x) (expr_of base h fuel <$> inputs_of x).
Proof. intros Hv%Nat.ltb_ge Hx. simpl. by rewrite Hv, Hx. Qed.

Lemma block_exprs base (h1 h2 : heap) n1 n2
    call mean stdev input mean_var input_var epsilon :
  (forall k, (k < 5)%nat ->
     h1 !! (n1 + k)%nat
     = statistics_block call mean stdev input mean_var input_var epsilon n1
         !! k) ->
  (forall k, (k < 5)%nat ->
     h2 !! (n2 + k)%nat
     = statistics_block call mean stdev input mean_var input_var epsilon n2
         !! k) ->
  (base <= n1)%nat -> (base <= n2)%nat -> (input < base)%nat ->
  forall fuel,
    expr_of base h1 fuel (n1 + 0)%nat = expr_of base h2 fuel (n2 + 0)%nat
    /\ expr_of base h1 fuel (n1 + 4)%nat = expr_of base h2 fuel (n2 + 4)%nat.
Proof.
  intros Hl1 Hl2 Hn1 Hn2 Hinput fuel.
  pose proof (Hl1 0%nat ltac:(lia)) as Ha0.
  pose proof (Hl1 1%nat ltac:(lia)) as Ha1.
  pose proof (Hl1 2%nat ltac:(lia)) as Ha2.
  pose proof (Hl1 3%nat ltac:(lia)) as Ha3.
  pose proof (Hl1 4%nat ltac:(lia)) as Ha4.
  pose proof (Hl2 0%nat ltac:(lia)) as Hb0.
  pose proof (Hl2 1%nat ltac:(lia)) as Hb1.
  pose proof (Hl2 2%nat ltac:(lia)) as Hb2.
  pose proof (Hl2 3%nat ltac:(lia)) as Hb3.
  pose proof (Hl2 4%nat ltac:(lia)) as Hb4.
  cbn [statistics_block lookup list_lookup] in *.
  split.
  - destruct fuel as [|fuel]; [by rewrite !expr_of_cut by lia|].
    rewrite (expr_of_new base h1 fuel (n1 + 0)%nat _ ltac:(lia) Ha0).
    rewrite (expr_of_new base h2 fuel (n2 + 0)%nat _ ltac:(lia) Hb0).
    cbn. by rewrite !expr_of_old by lia.
  - destruct fuel as [|fuel]; [by rewrite !expr_of_cut by lia|].
    rewrite (expr_of_new base h1 fuel (n1 + 4)%nat _ ltac:(lia) Ha4).
    rewrite (expr_of_new base h2 fuel (n2 + 4)%nat _ ltac:(lia) Hb4).
    cbn [inputs_of prepared set_replacement_of add_annotation add_role
         with_tag set_name fresh_variable v_origin fmap list_fmap].
    f_equal. f_equal.
    destruct fuel as [|fuel]; [by rewrite !expr_of_cut by lia|].
    rewrite (expr_of_new base h1 fuel (n1 + 3)%nat _ ltac:(lia) Ha3).
    rewrite (expr_of_new base h2 fuel (n2 + 3)%nat _ ltac:(lia) Hb3).
    cbn [inputs_of fresh_variable v_origin fmap list_fmap].
    f_equal.
    destruct fuel as [|fuel]; [by rewrite !expr_of_cut by lia|].
    rewrite (expr_of_new base h1 fuel (n1 + 1)%nat _ ltac:(lia) Ha1).
    rewrite (expr_of_new base h2 fuel (n2 + 1)%nat _ ltac:(lia) Hb1).
    rewrite (expr_of_new base h1 fuel (n1 + 2)%nat _ ltac:(lia) Ha2).
    rewrite (expr_of_new base h2 fuel (n2 + 2)%nat _ ltac:(lia) Hb2).
    cbn [inputs_of fresh_variable v_origin fmap list_fmap].
    by rewrite !expr_of_old by lia.
Qed.

Lemma lookup_in_block (h pre block rest post : heap) k :
  (k < length block)%nat ->
  (h ++ pre ++ (block ++ rest) ++ post) !! (length h + length pre + k)%nat
  = block !! k.
Proof.
  intros Hk. rewrite <- Nat.add_assoc, lookup_new, lookup_new.
  rewrite <- app_assoc. by apply lookup_app_l.
Qed.

Lemma blocks_same_replacements means stdevs inputs epsilon (h : heap) calls :
  Forall (processable means stdevs inputs h) calls ->
  forall pre1 post1 pre2 post2 : heap,
    Forall2
      (same_replacement (length h)
         (h ++ pre1
            ++ statistics_blocks means stdevs inputs epsilon h
                 (length h + length pre1) calls ++ post1)
         (h ++ pre2
            ++ statistics_blocks means stdevs inputs epsilon h
                 (length h + length pre2) calls ++ post2))
      (statistics_replacements means stdevs (length h + length pre1) calls)
      (statistics_replacements means stdevs (length h + length pre2) calls).
Proof.
  induction 1 as [|ac calls Hac _ IH]; intros pre1 post1 pre2 post2.
  { constructor. }
  destruct Hac as (call & mean & stdev & input & mean_var & input_var
                   & -> & Hmean & Hmv & Hinput & Hiv & Hstdev).
  cbn [statistics_blocks statistics_replacements].
  unfold block_of, pairs_of. rewrite Hmean, Hstdev, Hinput, Hmv, Hiv.
  set (block n := statistics_block call mean stdev input mean_var input_var
                    epsilon n).
  apply Forall2_app.
  - pose proof (lookup_lt_Some _ _ _ Hiv) as Hlt.
    match goal with
    | |- Forall2 (same_replacement _ ?H1 ?H2) _ _ =>
        pose proof (block_exprs (length h) H1 H2
                      (length h + length pre1)%nat (length h + length pre2)%nat
                      call mean stdev input mean_var input_var epsilon)
          as Hexprs
    end.
    specialize (Hexprs
      (fun k (Hk : (k < 5)%nat) =>
         lookup_in_block h pre1 (block (length h + length pre1)%nat)
           (statistics_blocks means stdevs inputs epsilon h
              (length h + length pre1 + 5) calls) post1 k Hk)
      (fun k (Hk : (k < 5)%nat) =>
         lookup_in_block h pre2 (block (length h + length pre2)%nat)
           (statistics_blocks means stdevs inputs epsilon h
              (length h + length pre2 + 5) calls) post2 k Hk)
      ltac:(lia) ltac:(lia) Hlt).
    rewrite !Nat.add_0_r in Hexprs.
    repeat constructor; simpl; intros fuel; apply Hexprs.
  - specialize (IH (pre1 ++ block (length h + length pre1)%nat) post1
                   (pre2 ++ block (length h + length pre2)%nat) post2).
    rewrite !length_app in IH.
    change (length (block (length h + length pre1)%nat)) with 5%nat in IH.
    change (length (block (length h + length pre2)%nat)) with 5%nat in IH.
    rewrite !Nat.add_assoc, <- !app_assoc in IH.
    rewrite <- !app_assoc. exact IH.
Qed.

(** C5: when a run of [batch_normalize] on a graph has collected its
    replacements, a second run on the same graph with the same epsilon,
    started once the first has finished (the store then holds the variables
    the first run made, [t] standing for those [replace] added), collects
    replacements too: as many, in the same order, each for the same old
    variable and with a structurally equal new expression. *)
Theorem replacements_reproducible
    (computation_graph : ComputationGraph) (epsilon : scalar)
    (h h1 t : heap) replacements1 :
  valid_graph h computation_graph ->
  batch_normalize_replacements computation_graph epsilon h
  = (h1, ok replacements1) ->
  exists (h2 : heap) replacements2,
    batch_normalize_replacements computation_graph epsilon (h1 ++ t)
    = (h2, ok replacements2)
    /\ Forall2 (same_replacement (length h) h1 h2)
         replacements1 replacements2.
Proof.
  intros Hvalid Hrun1.
  destruct (replacements_ok_inv _ _ _ _ _ Hrun1) as [Hassert Hsome].
  set (means := get_application_call_dict BATCH_NORM_OFFSET h
                  computation_graph) in *.
  set (stdevs := get_application_call_dict BATCH_NORM_DIVISOR h
                   computation_graph).
  set (inputs := get_application_call_dict INPUT h computation_graph).
  pose proof (replacements_run computation_graph epsilon h []) as Hfirst.
  rewrite !app_nil_r in Hfirst. cbn [length app] in Hfirst.
  rewrite Nat.add_0_r in Hfirst.
  rewrite Hfirst in Hrun1 by done. injection Hrun1 as <- <-.
  fold means stdevs inputs.
  set (blocks := statistics_blocks means stdevs inputs epsilon h (length h)
                   means.*1).
  pose proof (replacements_run computation_graph epsilon h (blocks ++ t)
                (fun r => get_application_call_dict_extend r h _ _ Hvalid)
                Hassert Hsome) as Hsecond.
  fold means stdevs inputs in Hsecond. rewrite app_assoc in Hsecond.
  eexists _, _. split; [exact Hsecond|].
  assert (Hproc : Forall (processable means stdevs inputs h) means.*1).
  { apply Forall_forall. intros ac Hac.
    unfold assertions_hold in Hassert.
    apply andb_true_iff in Hassert as [Hkeys _].
    apply keys_processable; [done..|].
    by eapply Forall_forall in Hsome. }
  pose proof (blocks_same_replacements means stdevs inputs epsilon h _ Hproc
                [] [] (blocks ++ t) []) as Hsame.
  cbn [length app] in Hsame. rewrite Nat.add_0_r, !app_nil_r in Hsame.
  exact Hsame.
Qed.

Lemma replacements_reproducible_witness :
  valid_graph example_heap example_graph
  /\ exists (h1 h' h2 : heap) cg' replacements1 replacements2,
       batch_normalize_replacements example_graph default_epsilon example_heap
       = (h1, ok replacements1)
       /\ batch_normalize example_graph None example_heap = (h', ok cg')
       /\ batch_normalize_replacements example_graph default_epsilon h'
          = (h2, ok replacements2)
       /\ Forall2 (same_replacement (length example_heap) h1 h2)
            replacements1 replacements2.
Proof.
  assert (Hvalid : valid_graph example_heap example_graph).
  { unfold valid_graph. cbn. repeat constructor; lia. }
  split; [exact Hvalid|].
  destruct (batch_normalize_replacements example_graph default_epsilon
              example_heap) as [h1 [e|replacements1]] eqn:Hrun1.
  { vm_compute in Hrun1. discriminate. }
  destruct (replace example_graph replacements1 h1) as [h' r] eqn:Hreplace.
  destruct (replace_frame example_graph replacements1 h1) as (t & Ht & _).
  rewrite Hreplace in Ht. simpl in Ht. subst h'.
  destruct r as [e|cg'].
  { unfold batch_normalize_replacements in Hrun1.
    vm_compute in Hrun1. injection Hrun1 as <- <-.
    vm_compute in Hreplace. discriminate. }
  destruct (replacements_reproducible example_graph default_epsilon
              example_heap h1 t replacements1 Hvalid Hrun1)
    as (h2 & replacements2 & Hrun2 & Hsame).
  exists h1, (h1 ++ t), h2, cg', replacements1, replacements2.
  split; [reflexivity|]. split; [|by split].
  unfold batch_normalize. simpl default.
  rewrite (run_bind_ok _ _ _ _ _ Hrun1). exact Hreplace.
Defined.

(** * Further properties of the bricks *)

(** ** Shape inference inside a convolutional sequence *)

Lemma last_two_short {A} (l : list A) :
  (length l <= 2)%nat -> last_two l = l.
Proof.
  intros Hlen. unfold last_two.
  by replace (length l - 2)%nat with 0%nat by lia.
Qed.

Lemma last_two_cons {A} (x : A) (l : list A) :
  (2 <= length l)%nat -> last_two (x :: l) = last_two l.
Proof.
  intros Hlen. unfold last_two. simpl length.
  by replace (S (length l) - 2)%nat with (S (length l - 2)) by lia.
Qed.

Lemma last_two_length {A} (l : list A) :
  length (last_two l) = (length l `min` 2)%nat.
Proof. unfold last_two. rewrite length_drop. lia. Qed.

(** Whatever [input_dim] was, a number, [None], the placeholder of an
    omitted argument or a non-empty tuple, setting [num_channels] and an
    [image_size] of two items, in either order, leaves the brick with
    [input_dim = (channels, height, width)], which is then what [get_dim]
    and [output_dim] answer. *)
Theorem channels_and_image_size_set_input_dim
    (self : t) (channels height width : pyval) :
  input_dim self <> Seq [] ->
  let expected := Seq [channels; height; width] in
  (exists self',
     set_image_size (set_num_channels self channels) [height; width]
     = ok self'
     /\ input_dim self' = expected
     /\ get_dim self' "input" = ok expected
     /\ get_dim self' "output" = ok expected
     /\ output_dim self' = expected)
  /\ (exists self',
        set_image_size self [height; width] = ok self'
        /\ input_dim (set_num_channels self' channels) = expected).
Proof.
  intros Hne expected. unfold set_image_size, set_num_channels, get_dim,
    output_dim.
  destruct (input_dim self) as [v|[|c l]] eqn:Hdim; [| done |].
  - split; eexists; (split; [reflexivity|]); simpl; by repeat split.
  - split.
    + simpl. destruct (last_two (c :: l)); eexists;
        (split; [reflexivity|]); simpl; by repeat split.
    + eexists. split; [reflexivity|]. simpl. reflexivity.
Qed.

Lemma channels_and_image_size_set_input_dim_witness :
  let self := __init__ (lazy None) no_kwargs 0%N in
  input_dim self <> Seq []
  /\ exists self',
       set_image_size (set_num_channels self (PInt 3)) [PInt 32; PInt 32]
       = ok self'
       /\ input_dim self' = Seq [PInt 3; PInt 32; PInt 32].
Proof.
  intros self.
  assert (Hne : input_dim self <> Seq []) by discriminate.
  split; [exact Hne|].
  destruct (channels_and_image_size_set_input_dim self (PInt 3) (PInt 32)
              (PInt 32) Hne) as [(self' & Hset & Hdim & _) _].
  by exists self'.
Defined.

(** What is written through a setter is what the getter reads: the number
    of channels always; the image size when it has two items (of a longer
    one the last two are read, of a shorter one also the channels).  The
    [num_channels] setter keeps at most two axes after the channels: it
    keeps the image size of an [input_dim] with at least two entries and
    drops whatever stood between the channels and the last two axes. *)
Theorem setters_round_trip (self : t) (channels : pyval)
    (value : list pyval) :
  num_channels (set_num_channels self channels) = ok channels
  /\ (forall self',
        set_image_size self value = ok self' ->
        (2 <= length value)%nat ->
        image_size self' = ok (last_two value)
        /\ num_channels self' = match input_dim self with
                                | Seq (c :: _) => ok c
                                | _ => ok PNone
                                end)
  /\ (forall l,
        input_dim self = Seq l ->
        (2 <= length l)%nat ->
        image_size (set_num_channels self channels) = image_size self)
  /\ (forall l,
        input_dim self = Seq l ->
        input_dim (set_num_channels self channels)
        = Seq (channels :: last_two l)
        /\ length (channels :: last_two l) = (1 + length l `min` 2)%nat).
Proof.
  split; [|split; [|split]].
  - unfold num_channels, set_num_channels.
    by destruct (input_dim self) as [v|l].
  - intros self' Hset Hlen. unfold set_image_size in Hset.
    unfold image_size, num_channels.
    destruct (input_dim self) as [v|[|c l]]; [| done |];
      injection Hset as <-; simpl; by rewrite last_two_cons.
  - intros l Hl Hlen. unfold image_size, set_num_channels. rewrite Hl.
    simpl. f_equal. rewrite last_two_cons by (rewrite last_two_length; lia).
    apply last_two_short. rewrite last_two_length. lia.
  - intros l Hl. unfold set_num_channels. rewrite Hl. simpl.
    split; [reflexivity|]. by rewrite last_two_length.
Qed.

Lemma setters_round_trip_witness :
  let self := __init__ (Seq [PInt 3; PInt 5; PInt 8; PInt 8]) no_kwargs 0%N in
  (exists self',
     set_image_size self [PInt 16; PInt 16] = ok self'
     /\ image_size self' = ok [PInt 16; PInt 16]
     /\ num_channels self' = ok (PInt 3))
  /\ image_size (set_num_channels self (PInt 4)) = ok [PInt 8; PInt 8]
  /\ input_dim (set_num_channels self (PInt 4)) = Seq [PInt 4; PInt 8; PInt 8].
Proof.
  intros self.
  destruct (setters_round_trip self (PInt 4) [PInt 16; PInt 16])
    as (_ & Himage & Hkeep & Hdrop).
  split; [|split].
  - eexists. split; [reflexivity|].
    apply Himage; [reflexivity | simpl; lia].
  - rewrite (Hkeep _ eq_refl); [reflexivity | simpl; lia].
  - exact (proj1 (Hdrop _ eq_refl)).
Defined.

(** ** Allocation, further *)

Lemma zip_with_collapse_all (l : list pyval) :
  zip_with (fun dim (b : bool) => if b then PInt 1 else dim) l
    (replicate (length l) true)
  = replicate (length l) (PInt 1).
Proof. induction l as [|d l IH]; simpl; [done | by rewrite IH]. Qed.

Lemma forallb_valid_extent_ones n :
  forallb valid_extent (replicate n (PInt 1)) = true.
Proof. induction n as [|n IH]; simpl; [done | exact IH]. Qed.

Lemma np_ints_ones n :
  np_ints (replicate n (PInt 1)) = ok (replicate n 1).
Proof. induction n as [|n IH]; simpl; [done | by rewrite IH]. Qed.

Lemma product_ones n : foldr Z.mul 1 (replicate n 1) = 1.
Proof. induction n as [|n IH]; simpl; [done | by rewrite IH]. Qed.

(** The spatial variant, constructed without a [broadcastable] keyword,
    keeps one scale, shift, mean and stdev per channel.  Whenever its
    allocation succeeds, the number of channels is a non-negative int and
    every tensor has shape (1, channels, 1, ..., 1) and as many entries as
    channels, whatever the spatial extents are: they are never looked at,
    so that [None] will do.  Allocation fails when the number of channels
    is not a non-negative int. *)
Theorem spatial_allocation
    (channels : pyval) (spatial : list pyval) (kw : kwargs)
    (rng0 : rng_state) :
  (1 <= length spatial)%nat ->
  kw_broadcastable kw = None ->
  exists self,
    SpatialBatchNormalization.__init__ (Seq (channels :: spatial)) kw rng0
    = ok self
    /\ (valid_extent channels = false -> is_ok (_allocate self) = false)
    /\ forall self',
         _allocate self = ok self' ->
         exists c,
           channels = PInt c /\ 0 <= c
           /\ Forall (fun v => exists sv,
                        v = Some sv
                        /\ nd_shape (sv_value sv)
                           = 1 :: c :: replicate (length spatial) 1
                        /\ length (nd_data (sv_value sv)) = Z.to_nat c)
                [W self'; b self'; population_mean self';
                 population_stdev self'].
Proof.
  intros Hlen Hkw. unfold SpatialBatchNormalization.__init__.
  destruct (length (channels :: spatial) <? 2)%nat eqn:Hlt;
    [apply Nat.ltb_lt in Hlt; simpl in Hlt; lia|].
  eexists. split; [reflexivity|].
  set (self := __init__ _ _ _).
  assert (Hdims : input_dim_tuple self = channels :: spatial) by done.
  assert (Hmask : broadcastable_tuple self
                  = false :: replicate (length spatial) true).
  { unfold broadcastable_tuple, self. simpl. rewrite Hkw. simpl.
    by rewrite Nat.sub_0_r. }
  assert (Hcollapsed :
    collapsed (input_dim_tuple self) (broadcastable_tuple self)
    = PInt 1 :: channels :: replicate (length spatial) (PInt 1)).
  { rewrite Hdims, Hmask. unfold collapsed. simpl.
    by rewrite zip_with_collapse_all. }
  assert (Hsame : length (input_dim_tuple self)
                  = length (broadcastable_tuple self)).
  { rewrite Hdims, Hmask. simpl. by rewrite length_replicate. }
  assert (Hok : is_ok (_allocate self) = valid_extent channels).
  { rewrite allocate_ok_iff, Hsame, Nat.eqb_refl, Hcollapsed. simpl.
    by rewrite forallb_valid_extent_ones, andb_true_r. }
  split; [intros Hno; by rewrite Hok|].
  intros self' Halloc. rewrite Halloc in Hok. simpl in Hok.
  destruct channels as [c| |]; try discriminate.
  simpl in Hok. symmetry in Hok. apply Z.leb_le in Hok.
  exists c. split; [done|]. split; [done|].
  assert (Hzs : np_ints (collapsed (input_dim_tuple self)
                           (broadcastable_tuple self))
                = ok (1 :: c :: replicate (length spatial) 1)).
  { rewrite Hcollapsed. simpl. by rewrite np_ints_ones. }
  assert (Hval : forallb (fun z => 0 <=? z)
                   (1 :: c :: replicate (length spatial) 1) = true).
  { rewrite (np_ints_valid _ _ Hzs), Hcollapsed. simpl.
    rewrite forallb_valid_extent_ones, andb_true_r. by apply Z.leb_le. }
  pose proof (allocate_same_length self _ Hsame Hzs Hval) as Heq.
  cbv zeta in Heq. rewrite Heq in Halloc. injection Halloc as <-.
  assert (Hsize : shape_size (1 :: c :: replicate (length spatial) 1)
                  = Z.to_nat c).
  { unfold shape_size. simpl foldr. rewrite product_ones. f_equal. lia. }
  repeat constructor; eexists; (split; [reflexivity|]);
    (split; [reflexivity|]); simpl; by rewrite length_replicate, Hsize.
Qed.

Lemma spatial_allocation_witness :
  exists self self' sv,
    SpatialBatchNormalization.__init__ (Seq [PInt 3; PNone; PNone])
      no_kwargs 0%N = ok self
    /\ _allocate self = ok self'
    /\ W self' = Some sv
    /\ nd_shape (sv_value sv) = [1; 3; 1; 1]
    /\ length (nd_data (sv_value sv)) = 3%nat.
Proof.
  destruct (spatial_allocation (PInt 3) [PNone; PNone] no_kwargs 0%N)
    as (self & Hself & _ & Hshape); [simpl; lia | reflexivity |].
  injection Hself as <-.
  destruct (_allocate _) as [e|self'] eqn:Halloc;
    [vm_compute in Halloc; discriminate|].
  destruct (Hshape self' eq_refl) as (c & [= <-] & _ & HW).
  apply Forall_cons in HW as [(sv & HW & Hsh & Hlen) _].
  by eexists _, self', sv.
Defined.

(** The failures of [_allocate], as far as the shape decides: the
    [ValueError] for a mask of another length than [input_dim], or, with
    matching lengths, an extent that is not a non-negative int. *)
Lemma allocate_failure_cases (self : t) (e : exn) :
  _allocate self = raise e ->
  (e = ValueError same_length_msg
   /\ length (input_dim_tuple self) <> length (broadcastable_tuple self))
  \/ (length (input_dim_tuple self) = length (broadcastable_tuple self)
      /\ forallb valid_extent
           (collapsed (input_dim_tuple self) (broadcastable_tuple self))
         = false
      /\ (e = TypeError
          \/ e = ValueError "negative dimensions are not allowed")).
Proof.
  intros Hfail.
  destruct (decide (length (input_dim_tuple self)
                    = length (broadcastable_tuple self))) as [Hlen|Hne].
  - right. split; [done|].
    pose proof (allocate_ok_iff self) as Hok.
    rewrite Hfail, Hlen, Nat.eqb_refl, andb_true_l in Hok.
    simpl is_ok in Hok. symmetry in Hok.
    split; [done|].
    unfold _allocate in Hfail. rewrite Hlen, Nat.eqb_refl in Hfail.
    simpl negb in Hfail. cbv iota in Hfail.
    rewrite var_dim_same_length in Hfail by exact Hlen.
    revert Hfail Hok.
    generalize (collapsed (input_dim_tuple self) (broadcastable_tuple self)).
    intros shape Hfail Hinv. rewrite bind_ok in Hfail.
    unfold shared_floatx_nans, np_full in Hfail.
    destruct (np_ints shape) as [e'|zs] eqn:Hzs.
    + rewrite !bind_raise in Hfail. injection Hfail as ->. left.
      clear Hinv. revert e Hzs.
      induction shape as [|d shape IH]; intros e; simpl; [discriminate|].
      destruct d as [z| |]; try by intros [= <-].
      destruct (np_ints shape) as [e'|zs']; simpl; [|discriminate].
      intros [= <-]. by apply IH.
    + rewrite bind_ok, (np_ints_valid _ _ Hzs), Hinv in Hfail.
      cbn in Hfail. injection Hfail as <-. by right.
  - left. split; [|done]. unfold _allocate in Hfail.
    apply Nat.eqb_neq in Hne. rewrite Hne in Hfail. by injection Hfail.
Qed.

(** The length check of [_allocate] shields [equizip]: whatever the
    brick, [_allocate] never fails with the error [equizip] raises for
    iterables of different lengths.  With matching lengths it fails
    whenever an extent that is not collapsed is not a non-negative int,
    and then not with the [ValueError] of the length check. *)
Theorem allocate_failures (self : t) :
  _allocate self <> raise IterableLengthMismatch
  /\ (length (input_dim_tuple self) = length (broadcastable_tuple self) ->
      forallb valid_extent
        (collapsed (input_dim_tuple self) (broadcastable_tuple self))
      = false ->
      is_ok (_allocate self) = false
      /\ _allocate self <> raise (ValueError same_length_msg)).
Proof.
  split.
  - intros Hfail.
    destruct (allocate_failure_cases self _ Hfail)
      as [[? _]|(_ & _ & [?|?])]; discriminate.
  - intros Hlen Hinv.
    assert (Hok : is_ok (_allocate self) = false).
    { by rewrite allocate_ok_iff, Hlen, Nat.eqb_refl, Hinv. }
    split; [exact Hok|]. intros Hfail.
    destruct (allocate_failure_cases self _ Hfail)
      as [[_ Hne]|(_ & _ & [?|?])]; [done|discriminate..].
Qed.

Lemma allocate_failures_witness :
  let self := __init__ (Seq [PInt 3; PNone]) no_kwargs 0%N in
  length (input_dim_tuple self) = length (broadcastable_tuple self)
  /\ is_ok (_allocate self) = false
  /\ is_ok (_allocate (__init__ (Seq [PInt 3; PNone])
                        {| kw_broadcastable := Some (Some [false; true]);
                           kw_save_memory := None;
                           kw_weights_init := None;
                           kw_biases_init := None |} 0%N)) = true.
Proof.
  intros self. split; [reflexivity|]. split; [|reflexivity].
  exact (proj1 (proj2 (allocate_failures self) eq_refl eq_refl)).
Defined.

(** After a successful [_allocate], [_initialize] succeeds whatever the
    initializers are.  It fills the shift first, from the generator of the
    brick, and then the scale, from the generator as the first call left
    it, and the brick keeps the generator as the second call left it.
    Shapes, broadcastable patterns and roles of scale and shift are kept,
    and the population statistics are not touched: they stay at zeros and
    ones whatever the initializers are. *)
Theorem initialize_after_allocate (self self1 : t) :
  _allocate self = ok self1 ->
  exists self2 W1 b1 W2 b2 mean stdev,
    _initialize self1 = ok self2
    /\ W self1 = Some W1 /\ b self1 = Some b1
    /\ W self2 = Some W2 /\ b self2 = Some b2
    /\ (let rng1 := generate_rng (biases_init self) (rng self)
                      (nd_shape (sv_value b1)) in
        nd_data (sv_value b2)
        = generate (biases_init self) (rng self) (nd_shape (sv_value b1))
        /\ nd_data (sv_value W2)
           = generate (weights_init self) rng1 (nd_shape (sv_value W1))
        /\ rng self2
           = generate_rng (weights_init self) rng1 (nd_shape (sv_value W1)))
    /\ nd_shape (sv_value W2) = nd_shape (sv_value W1)
    /\ nd_shape (sv_value b2) = nd_shape (sv_value b1)
    /\ sv_broadcastable W2 = sv_broadcastable W1
    /\ sv_broadcastable b2 = sv_broadcastable b1
    /\ sv_roles W2 = [WEIGHT] /\ sv_roles b2 = [BIAS]
    /\ population_mean self2 = Some mean
    /\ population_stdev self2 = Some stdev
    /\ population_mean self2 = population_mean self1
    /\ population_stdev self2 = population_stdev self1
    /\ nd_data (sv_value mean)
       = replicate (shape_size (nd_shape (sv_value mean))) (Lit 0)
    /\ nd_data (sv_value stdev)
       = replicate (shape_size (nd_shape (sv_value stdev))) (Lit 1).
Proof.
  intros Hok.
  pose proof (allocate_ok_iff self) as Hiff. rewrite Hok in Hiff.
  simpl is_ok in Hiff. symmetry in Hiff.
  apply andb_true_iff in Hiff as [Hlen%Nat.eqb_eq Hval].
  destruct (np_ints (collapsed (input_dim_tuple self) (broadcastable_tuple self)))
    as [e|zs] eqn:Hzs.
  { by rewrite (np_ints_invalid _ _ Hzs) in Hval. }
  rewrite <- (np_ints_valid _ _ Hzs) in Hval.
  pose proof (allocate_same_length self zs Hlen Hzs Hval) as Heq.
  cbv zeta in Heq. rewrite Heq in Hok. injection Hok as <-.
  do 7 eexists. split; [reflexivity|]. cbn. repeat split; reflexivity.
Qed.

Lemma initialize_after_allocate_witness :
  let counting :=
    Custom (fun state shape =>
              (replicate (shape_size shape) (Lit (inject_Z (Z.of_N state))),
               N.succ state)) in
  let self :=
    __init__ (Seq [PInt 2; PInt 3])
      {| kw_broadcastable := None; kw_save_memory := None;
         kw_weights_init := Some (Some counting);
         kw_biases_init := Some (Some counting) |} 7%N in
  exists self1 self2 W2 b2 mean,
    _allocate self = ok self1 /\ _initialize self1 = ok self2
    /\ W self2 = Some W2 /\ b self2 = Some b2
    /\ nd_data (sv_value b2) = replicate 6 (Lit 7)
    /\ nd_data (sv_value W2) = replicate 6 (Lit 8)
    /\ rng self2 = 9%N
    /\ population_mean self2 = Some mean
    /\ nd_data (sv_value mean) = replicate 6 (Lit 0).
Proof.
  intros counting self.
  destruct (_allocate self) as [e|self1] eqn:Halloc; [discriminate|].
  destruct (initialize_after_allocate self self1 Halloc)
    as (self2 & W1 & b1 & W2 & b2 & mean & stdev & Hinit & HW1 & Hb1 & HW2
        & Hb2 & (Hdb & HdW & Hrng) & _ & _ & _ & _ & _ & _ & Hmean & _ & _
        & _ & Hzeros & _).
  exists self1, self2, W2, b2, mean.
  split; [reflexivity|]. split; [exact Hinit|]. split; [exact HW2|].
  split; [exact Hb2|].
  vm_compute in Halloc. injection Halloc as <-.
  vm_compute in HW1. injection HW1 as <-.
  vm_compute in Hb1. injection Hb1 as <-.
  cbv in Hinit. injection Hinit as <-.
  cbv in Hmean. injection Hmean as <-.
  split; [exact Hdb|]. split; [exact HdW|]. split; [exact Hrng|].
  split; [reflexivity | exact Hzeros].
Defined.

(** ** Pushing the allocation configuration of a batch-normalized MLP *)

Lemma batch_normalized_mlp_push (acts : list brick) (dims : list pyval)
    (kw_use_bias : option bool) (rng0 : rng_state) :
  let self := BatchNormalizedMLP.__init__ acts dims kw_use_bias rng0 in
  length dims = S (length acts) ->
  BatchNormalizedMLP._push_allocation_config self
  = ok {| MLP.activations :=
            imap (fun i '(act, d) =>
                    SequenceBrick (wrapped_name i)
                      [BatchNormalizationBrick
                         (set_input_dim
                            (BatchNormalizedMLP.fresh_batch_normalization rng0)
                            (Scalar d)); act])
                 (zip acts (drop 1 dims));
          MLP.linear_transformations :=
            pushed_linear (MLP.use_bias self)
              <$> zip (zip (take (length dims - 1) dims) (drop 1 dims))
                      (MLP.linear_transformations self);
          MLP.dims := dims;
          MLP.use_bias := MLP.use_bias self;
          MLP.rng := rng0 |}.
Proof.
  intros self Hlen.
  assert (Hlin : length (MLP.linear_transformations self) = length acts)
    by (unfold self; simpl; by rewrite !length_imap).
  unfold BatchNormalizedMLP._push_allocation_config.
  rewrite mlp_push_ok by (rewrite Hlin; exact Hlen).
  rewrite bind_ok. cbn [MLP.activations MLP.dims MLP.linear_transformations
                        MLP.use_bias MLP.rng].
  rewrite equizip_same_length, bind_ok
    by (unfold self; simpl; rewrite length_imap, length_drop; lia).
  unfold self at 1, BatchNormalizedMLP.__init__ at 1.
  cbn [MLP.__init__ MLP.activations].
  rewrite set_input_dims_wrapped, bind_ok
    by (unfold self; simpl; rewrite length_drop; lia).
  f_equal. f_equal. apply list_fmap_ext. by intros i [[din dout] layer] _.
Qed.

Lemma set_input_dims_same (acts : list brick) (ds : list pyval) :
  Forall2 (fun a d => exists name bn rest,
             a = SequenceBrick name (BatchNormalizationBrick bn :: rest)
             /\ input_dim bn = Scalar d) acts ds ->
  BatchNormalizedMLP.set_input_dims (zip acts ds) = ok acts.
Proof.
  induction 1 as [|a d acts ds (name & bn & rest & -> & Hdim) _ IH]; [done|].
  simpl. rewrite IH. simpl. do 4 f_equal.
  destruct bn. simpl in *. by subst.
Qed.

Lemma wrapped_with_dims (name : nat -> string) bn0 acts ds :
  length acts = length ds ->
  Forall2 (fun a d => exists name bn rest,
             a = SequenceBrick name (BatchNormalizationBrick bn :: rest)
             /\ input_dim bn = Scalar d)
    (imap (fun i '(act, d) =>
             SequenceBrick (name i)
               [BatchNormalizationBrick (set_input_dim bn0 (Scalar d)); act])
          (zip acts ds)) ds.
Proof.
  revert name ds. induction acts as [|act acts IH]; intros name [|d ds] Hlen;
    simpl in *; try discriminate; constructor.
  - by eexists _, _, _.
  - apply (IH (name ∘ S)). congruence.
Qed.

Lemma pushed_linear_again use_bias (ios : list (pyval * pyval))
    (layers : list Linear) :
  pushed_linear use_bias
    <$> zip ios (pushed_linear use_bias <$> zip ios layers)
  = pushed_linear use_bias <$> zip ios layers.
Proof.
  revert layers. induction ios as [|io ios IH]; intros [|layer layers];
    simpl; try done. by rewrite IH.
Qed.

(** For a batch-normalized MLP as its constructor makes it, pushing the
    allocation configuration fails exactly when [dims] is not one longer
    than the activations, and then with the [ValueError] of the MLP; the
    loop of the subclass over activations and [dims[1:]] never raises. *)
Theorem push_allocation_config_succeeds_iff
    (acts : list brick) (dims : list pyval) (kw_use_bias : option bool)
    (rng0 : rng_state) :
  let self := BatchNormalizedMLP.__init__ acts dims kw_use_bias rng0 in
  is_ok (BatchNormalizedMLP._push_allocation_config self)
  = (length dims =? S (length acts))%nat
  /\ (length dims <> S (length acts) ->
      BatchNormalizedMLP._push_allocation_config self
      = raise (ValueError "")).
Proof.
  intros self.
  destruct (length dims =? S (length acts))%nat eqn:Hlen.
  - apply Nat.eqb_eq in Hlen. split; [|done].
    unfold self. by rewrite batch_normalized_mlp_push.
  - apply Nat.eqb_neq in Hlen.
    assert (Hfail : BatchNormalizedMLP._push_allocation_config self
                    = raise (ValueError "")).
    { unfold BatchNormalizedMLP._push_allocation_config,
        MLP._push_allocation_config.
      assert (Hlin : length (MLP.linear_transformations self) = length acts)
        by (unfold self; simpl; by rewrite !length_imap).
      rewrite Hlin. change (MLP.dims self) with dims.
      replace (Z.of_nat (length dims) - 1 =? Z.of_nat (length acts))
        with false by (symmetry; apply Z.eqb_neq; lia).
      reflexivity. }
    split; [by rewrite Hfail | done].
Qed.

Lemma push_allocation_config_succeeds_iff_witness :
  BatchNormalizedMLP._push_allocation_config
    (BatchNormalizedMLP.__init__ [ActivationBrick "Tanh"]
       [PInt 784; PInt 100; PInt 10] None 0%N)
  = raise (ValueError "").
Proof.
  apply (push_allocation_config_succeeds_iff [ActivationBrick "Tanh"]
           [PInt 784; PInt 100; PInt 10] None 0%N).
  simpl. lia.
Defined.

(** Pushing the allocation configuration again changes nothing: the
    result of a successful push is a fixed point of the push. *)
Theorem push_allocation_config_idempotent
    (acts : list brick) (dims : list pyval) (kw_use_bias : option bool)
    (rng0 : rng_state) (self' : MLP.t) :
  BatchNormalizedMLP._push_allocation_config
    (BatchNormalizedMLP.__init__ acts dims kw_use_bias rng0) = ok self' ->
  BatchNormalizedMLP._push_allocation_config self' = ok self'.
Proof.
  intros Hpush.
  assert (Hlen : length dims = S (length acts)).
  { destruct (decide (length dims = S (length acts))) as [|Hne]; [done|].
    unfold BatchNormalizedMLP._push_allocation_config,
      MLP._push_allocation_config in Hpush.
    simpl in Hpush. rewrite !length_imap in Hpush.
    replace (Z.of_nat (length dims) - 1 =? Z.of_nat (length acts))
      with false in Hpush by (symmetry; apply Z.eqb_neq; lia).
    discriminate. }
  rewrite batch_normalized_mlp_push in Hpush by exact Hlen.
  injection Hpush as <-.
  unfold BatchNormalizedMLP._push_allocation_config.
  rewrite mlp_push_ok.
  2:{ cbn [MLP.dims MLP.linear_transformations].
      rewrite length_fmap, !length_zip, length_take, length_drop.
      simpl. rewrite !length_imap. lia. }
  rewrite bind_ok. cbn [MLP.activations MLP.dims MLP.linear_transformations
                        MLP.use_bias MLP.rng].
  rewrite equizip_same_length, bind_ok
    by (rewrite length_imap, length_zip, length_drop; lia).
  rewrite set_input_dims_same, bind_ok
    by (apply wrapped_with_dims; rewrite length_drop; lia).
  f_equal. f_equal.
  etransitivity; [|apply pushed_linear_again].
  apply list_fmap_ext. by intros i [[din dout] layer] _.
Qed.

Lemma push_allocation_config_idempotent_witness :
  exists self',
    BatchNormalizedMLP._push_allocation_config
      (BatchNormalizedMLP.__init__
         [ActivationBrick "Tanh"; ActivationBrick "Softmax"]
         [PInt 784; PInt 100; PInt 10] None 0%N) = ok self'
    /\ BatchNormalizedMLP._push_allocation_config self' = ok self'.
Proof.
  destruct (BatchNormalizedMLP._push_allocation_config
              (BatchNormalizedMLP.__init__
                 [ActivationBrick "Tanh"; ActivationBrick "Softmax"]
                 [PInt 784; PInt 100; PInt 10] None 0%N))
    as [e|self'] eqn:Hpush.
  { vm_compute in Hpush. discriminate. }
  exists self'. split; [reflexivity|].
  exact (push_allocation_config_idempotent _ _ _ _ _ Hpush).
Defined.

(** * Further properties of [batch_normalize] *)

(** ** Every way it can end *)

Lemma for_each_call_outcome means stdevs inputs epsilon (h : heap) calls :
  Forall (lookups_succeed means stdevs inputs h) calls ->
  forall (t : heap) reps,
    snd (for_each_call means stdevs inputs epsilon reps calls (h ++ t))
    = if forallb (fun ac => bool_decide (is_Some ac)) calls
      then ok (reps ++ statistics_replacements means stdevs
                         (length h + length t) calls)
      else raise AttributeError.
Proof.
  induction 1 as [|ac calls Hac _ IH]; intros t reps.
  { simpl. by rewrite app_nil_r. }
  destruct Hac as (mean & stdev & input & mean_var & input_var
                   & Hmean & Hmv & Hinput & Hiv & Hstdev).
  cbn [for_each_call forallb].
  destruct ac as [call|].
  - erewrite run_bind_ok.
    2:{ apply replace_statistics_ok; eauto using lookup_app_l_Some. }
    rewrite <- app_assoc, IH. simpl andb.
    cbn [statistics_replacements]. unfold pairs_of. rewrite Hmean, Hstdev.
    rewrite !length_app. cbn [length statistics_block].
    by rewrite <- !app_assoc, !Nat.add_assoc.
  - simpl andb. cbv iota.
    erewrite run_bind_raise; [reflexivity|].
    rewrite (run_statistics means stdevs inputs epsilon reps None (h ++ t)
               mean input mean_var input_var)
      by eauto using lookup_app_l_Some.
    unfold untagged_block.
    apply run_bind_raise.
    by apply (run_prepare_replacement_None (h ++ t) _ _ _ 0).
Qed.

Lemma keys_lookups_succeed cg (h : heap) application_call :
  let means := get_application_call_dict BATCH_NORM_OFFSET h cg in
  let stdevs := get_application_call_dict BATCH_NORM_DIVISOR h cg in
  let inputs := get_application_call_dict INPUT h cg in
  same_keys means stdevs && same_keys means inputs = true ->
  application_call ∈ means.*1 ->
  lookups_succeed means stdevs inputs h application_call.
Proof.
  intros means stdevs inputs [Hs Hi]%andb_true_iff Hin.
  rewrite same_keys_spec in Hs, Hi.
  destruct (get_application_call_dict_lookup _ _ _ _ Hin)
    as (mean & mean_var & Hmean & Hmv & _).
  destruct (get_application_call_dict_lookup _ _ _ _ (proj1 (Hi _) Hin))
    as (input & input_var & Hinput & Hiv & _).
  destruct (od_get_is_Some _ _ (proj1 (Hs _) Hin)) as [stdev Hstdev].
  by exists mean, stdev, input, mean_var, input_var.
Qed.

Lemma replacements_outcome cg epsilon (h : heap) :
  let means := get_application_call_dict BATCH_NORM_OFFSET h cg in
  let stdevs := get_application_call_dict BATCH_NORM_DIVISOR h cg in
  snd (batch_normalize_replacements cg epsilon h)
  = if negb (assertions_hold cg h) then raise AssertionError
    else if forallb (fun ac => bool_decide (is_Some ac)) means.*1
         then ok (statistics_replacements means stdevs (length h) means.*1)
         else raise AttributeError.
Proof.
  intros means stdevs.
  destruct (assertions_hold cg h) eqn:Hassert; simpl negb; cbv iota.
  - rewrite replacements_loop by done.
    pose proof (for_each_call_outcome means stdevs
                  (get_application_call_dict INPUT h cg) epsilon h means.*1)
      as Hout.
    specialize (Hout ltac:(
      apply Forall_forall; intros ac Hac;
      apply keys_lookups_succeed; [|done];
      unfold assertions_hold in Hassert;
      by apply andb_true_iff in Hassert as [? _]) [] []).
    rewrite app_nil_r in Hout. simpl in Hout.
    by rewrite Nat.add_0_r in Hout.
  - by rewrite replacements_raise_unless_asserted.
Qed.

(** A variable of a batch normalization brick without an application
    call makes [batch_normalize] fail: when the filters select an offset, a
    divisor or an input that carries no application call, the function
    does not return, whatever else the graph holds.  The lookups in the
    three dictionaries never raise a [KeyError], and collecting the
    replacements ends in an [AttributeError] only when the assertions
    hold and an offset has no application call ([None] has no attribute
    [application]). *)
Theorem batch_normalize_failures
    (computation_graph : ComputationGraph) (epsilon : option scalar)
    (h : heap) :
  let collected :=
    snd (batch_normalize_replacements computation_graph
           (default default_epsilon epsilon) h) in
  (None ∈ owners BATCH_NORM_OFFSET h computation_graph
   \/ None ∈ owners BATCH_NORM_DIVISOR h computation_graph
   \/ None ∈ owners INPUT h computation_graph ->
   is_ok (snd (batch_normalize computation_graph epsilon h)) = false)
  /\ collected <> raise KeyError
  /\ (collected = raise AttributeError ->
      assertions_hold computation_graph h = true
      /\ None ∈ owners BATCH_NORM_OFFSET h computation_graph).
Proof.
  intros collected.
  pose proof (replacements_outcome computation_graph
                (default default_epsilon epsilon) h) as Hout.
  cbv zeta in Hout. fold collected in Hout.
  assert (Hnone : forallb (fun ac => bool_decide (is_Some ac))
                    (get_application_call_dict BATCH_NORM_OFFSET h
                       computation_graph).*1 = false ->
                  None ∈ owners BATCH_NORM_OFFSET h computation_graph).
  { intros Hall. unfold owners. apply get_application_call_dict_keys.
    destruct (decide (None ∈ (get_application_call_dict BATCH_NORM_OFFSET h
                                computation_graph).*1)) as [|Hnot];
      [done|].
    rewrite (proj2 (forallb_forall _ _)) in Hall; [discriminate|].
    intros [c|] Hin%list_elem_of_In; [by apply bool_decide_eq_true|done]. }
  split; [|split].
  - intros Hin.
    assert (Hfail : is_ok collected = false).
    { rewrite Hout.
      destruct (assertions_hold computation_graph h) eqn:Hassert;
        simpl negb; cbv iota; [|done].
      assert (Hkey : None ∈ (get_application_call_dict BATCH_NORM_OFFSET h
                               computation_graph).*1).
      { unfold assertions_hold in Hassert.
        apply andb_true_iff in Hassert as [[Hs Hi]%andb_true_iff _].
        rewrite same_keys_spec in Hs, Hi.
        destruct Hin as [Hin|[Hin|Hin]];
          apply get_application_call_dict_keys in Hin;
          [done | by apply Hs | by apply Hi]. }
      destruct (forallb _ _) eqn:Hall; [|done].
      rewrite forallb_forall in Hall.
      apply list_elem_of_In, Hall in Hkey. done. }
    unfold batch_normalize, bind. unfold collected in Hfail.
    by destruct (batch_normalize_replacements _ _ h) as [h1 [e|reps]].
  - rewrite Hout. by repeat case_match.
  - rewrite Hout.
    destruct (assertions_hold computation_graph h); simpl negb; cbv iota;
      [|discriminate].
    destruct (forallb _ _) eqn:Hall; [discriminate|].
    intros _. split; [done|]. by apply Hnone.
Qed.

Lemma batch_normalize_failures_witness :
  None ∈ owners INPUT uncalled_heap uncalled_graph
  /\ assertions_hold uncalled_graph uncalled_heap = true
  /\ is_ok (snd (batch_normalize uncalled_graph None uncalled_heap)) = false.
Proof.
  assert (Hin : None ∈ owners INPUT uncalled_heap uncalled_graph).
  { vm_compute. by left. }
  split; [exact Hin|]. split; [reflexivity|].
  apply (proj1 (batch_normalize_failures uncalled_graph None uncalled_heap)).
  by right; right.
Defined.

(** ** The new variables and their tags *)

(** Every statistic [batch_normalize] creates is named, carries the role of
    a minibatch estimate and the role of the variable it replaces, and is
    annotated with the application call it is for and with the brick of
    that call: it belongs to the same application call as the variable it
    replaces, and the filter of that role selects it exactly when the brick
    of the application call is a batch normalization brick. *)
Theorem replacement_variables_are_tagged
    (computation_graph : ComputationGraph) (epsilon : option scalar)
    (h h' : heap) cg' :
  batch_normalize computation_graph epsilon h = (h', ok cg') ->
  forall application_call mean,
    (application_call, mean)
    ∈ get_application_call_dict BATCH_NORM_OFFSET h computation_graph ->
    exists call stdev minibatch_mean minibatch_std x_mean x_std,
      application_call = Some call
      /\ od_get (get_application_call_dict BATCH_NORM_DIVISOR h
                   computation_graph) application_call = Some stdev
      /\ (length h <= minibatch_mean)%nat /\ (length h <= minibatch_std)%nat
      /\ h' !! minibatch_mean = Some x_mean
      /\ h' !! minibatch_std = Some x_std
      /\ v_name x_mean = Some "minibatch_offset"
      /\ v_name x_std = Some "minibatch_divisor"
      /\ roles (v_tag x_mean)
         = [BATCH_NORM_MINIBATCH_ESTIMATE; BATCH_NORM_OFFSET]
      /\ roles (v_tag x_std)
         = [BATCH_NORM_MINIBATCH_ESTIMATE; BATCH_NORM_DIVISOR]
      /\ annotations (v_tag x_mean) = [ACall call; ABrick (call_brick call)]
      /\ annotations (v_tag x_std) = [ACall call; ABrick (call_brick call)]
      /\ replacement_of (v_tag x_mean) = Some mean
      /\ replacement_of (v_tag x_std) = Some stdev
      /\ get_application_call h' minibatch_mean = application_call
      /\ get_application_call h' minibatch_std = application_call
      /\ selected BATCH_NORM_OFFSET x_mean
         = brick_is_batch_normalization (call_brick call)
      /\ selected BATCH_NORM_DIVISOR x_std
         = brick_is_batch_normalization (call_brick call).
Proof.
  intros Hrun application_call mean Hin.
  set (means := get_application_call_dict BATCH_NORM_OFFSET h
                  computation_graph) in *.
  set (stdevs := get_application_call_dict BATCH_NORM_DIVISOR h
                   computation_graph).
  set (inputs := get_application_call_dict INPUT h computation_graph).
  destruct (batch_normalize_ok_inv _ _ _ _ _ Hrun)
    as (Hassert & Hsome & _ & t & ->).
  fold means stdevs inputs in Hsome |- *.
  assert (Hkey : application_call ∈ means.*1).
  { apply list_elem_of_fmap. by exists (application_call, mean). }
  assert (Hproc : Forall (processable means stdevs inputs h) means.*1).
  { apply Forall_forall. intros ac Hac.
    unfold assertions_hold in Hassert.
    apply andb_true_iff in Hassert as [Hkeys _].
    apply keys_processable; [done..|].
    by eapply Forall_forall in Hsome. }
  destruct (statistics_blocks_elem means stdevs inputs
              (default default_epsilon epsilon) h _ Hproc (length h) _ Hkey)
    as (pre & post & call & mean' & stdev & input & mean_var & input_var
        & -> & Hmean & Hmv & Hinput & Hiv & Hstdev & -> & _).
  assert (mean' = mean) as ->.
  { pose proof (elem_of_od_get means _ _
                  (OrderedDict_keys_NoDup _) Hin) as Hget.
    congruence. }
  set (n := (length h + length pre)%nat).
  eexists call, stdev, (n + 0)%nat, (n + 4)%nat, _, _.
  split; [done|]. split; [done|]. split; [lia|]. split; [lia|].
  unfold get_application_call, n.
  rewrite !lookup_block_final by (simpl; lia).
  repeat split; reflexivity.
Qed.

Lemma replacement_variables_are_tagged_witness :
  exists (h' : heap) cg' minibatch_mean x_mean,
    batch_normalize example_graph None example_heap = (h', ok cg')
    /\ h' !! minibatch_mean = Some x_mean
    /\ roles (v_tag x_mean)
       = [BATCH_NORM_MINIBATCH_ESTIMATE; BATCH_NORM_OFFSET]
    /\ get_application_call h' minibatch_mean = Some example_call
    /\ selected BATCH_NORM_OFFSET x_mean = true.
Proof.
  destruct (batch_normalize example_graph None example_heap)
    as [h' [e|cg']] eqn:Hrun.
  { vm_compute in Hrun. discriminate. }
  assert (Hin : (Some example_call, 3%nat)
                ∈ get_application_call_dict BATCH_NORM_OFFSET example_heap
                    example_graph).
  { replace (get_application_call_dict BATCH_NORM_OFFSET example_heap
               example_graph)
      with [(Some example_call, 3%nat)] by (vm_compute; reflexivity).
    by left. }
  destruct (replacement_variables_are_tagged example_graph None example_heap
              h' cg' Hrun (Some example_call) 3%nat Hin)
    as (call & stdev & minibatch_mean & minibatch_std & x_mean & x_std
        & [= <-] & _ & _ & _ & Hx & _ & _ & _ & Hroles & _ & _ & _ & _ & _
        & Hcall & _ & Hsel & _).
  by exists h', cg', minibatch_mean, x_mean.
Defined.

(** ** What is replaced *)

Lemma statistics_replacements_olds_elem_of means stdevs inputs (h : heap)
    calls n old :
  Forall (processable means stdevs inputs h) calls ->
  old ∈ (statistics_replacements means stdevs n calls).*1 <->
  exists k, k ∈ calls
            /\ (od_get means k = Some old \/ od_get stdevs k = Some old).
Proof.
  intros Hproc. revert n.
  induction Hproc as [|ac calls Hac _ IH]; intros n.
  { simpl. rewrite elem_of_nil. split; [done|].
    by intros (k & ?%elem_of_nil & _). }
  destruct Hac as (call & mean & stdev & input & mean_var & input_var
                   & -> & Hmean & _ & _ & _ & Hstdev).
  cbn [statistics_replacements]. unfold pairs_of. rewrite Hmean, Hstdev.
  rewrite fmap_app, elem_of_app, IH. simpl.
  rewrite !elem_of_cons, elem_of_nil. split.
  - intros [[->|[->|[]]]|(k & Hk & Hget)].
    + exists (Some call). split; [by left | by left].
    + exists (Some call). split; [by left | by right].
    + exists k. split; [by right | done].
  - intros (k & [->|Hk]%elem_of_cons & Hget).
    + left. rewrite Hmean, Hstdev in Hget.
      destruct Hget as [[= ->]|[= ->]]; tauto.
    + right. by exists k.
Qed.

Lemma statistics_replacements_olds_NoDup means stdevs inputs (h : heap)
    (owner : var_id -> option ApplicationCall) calls n :
  Forall (processable means stdevs inputs h) calls ->
  NoDup calls ->
  (forall k v, od_get means k = Some v -> owner v = k) ->
  (forall k v, od_get stdevs k = Some v -> owner v = k) ->
  (forall k k' v, od_get means k = Some v -> od_get stdevs k' = Some v ->
                  False) ->
  NoDup (statistics_replacements means stdevs n calls).*1.
Proof.
  intros Hproc Hnd Hm Hs Hdisj. revert n.
  induction Hproc as [|ac calls Hac Hcalls IH]; intros n; [constructor|].
  apply NoDup_cons in Hnd as [Hnotin Hnd].
  pose proof Hac as (call & mean & stdev & input & mean_var & input_var
                     & -> & Hmean & _ & _ & _ & Hstdev).
  cbn [statistics_replacements]. unfold pairs_of. rewrite Hmean, Hstdev.
  rewrite fmap_app. simpl.
  assert (Hrest : forall old,
            od_get means (Some call) = Some old
            \/ od_get stdevs (Some call) = Some old ->
            old ∉ (statistics_replacements means stdevs (n + 5) calls).*1).
  { intros old Hold
      (k & Hk & Hget)%(statistics_replacements_olds_elem_of
                         means stdevs inputs h); [|done].
    assert (k = Some call) as ->; [|done].
    destruct Hold as [Hold|Hold], Hget as [Hget|Hget].
    - by rewrite <- (Hm _ _ Hget), (Hm _ _ Hold).
    - by destruct (Hdisj _ _ _ Hold Hget).
    - by destruct (Hdisj _ _ _ Hget Hold).
    - by rewrite <- (Hs _ _ Hget), (Hs _ _ Hold). }
  apply NoDup_cons. split.
  - rewrite elem_of_cons. intros [->|Hin].
    + by destruct (Hdisj _ _ _ Hmean Hstdev).
    + by apply (Hrest mean (or_introl Hmean)).
  - apply NoDup_cons. split; [|by apply IH].
    by apply (Hrest stdev (or_intror Hstdev)).
Qed.

Lemma statistics_replacements_news_NoDup means stdevs inputs (h : heap)
    calls n :
  Forall (processable means stdevs inputs h) calls ->
  NoDup (statistics_replacements means stdevs n calls).*2.
Proof.
  intros Hproc. revert n.
  induction Hproc as [|ac calls Hac _ IH]; intros n; [constructor|].
  destruct Hac as (call & mean & stdev & input & mean_var & input_var
                   & -> & Hmean & _ & _ & _ & Hstdev).
  cbn [statistics_replacements]. unfold pairs_of. rewrite Hmean, Hstdev.
  rewrite fmap_app. simpl.
  assert (Hrest : forall new,
            new ∈ (statistics_replacements means stdevs (n + 5) calls).*2 ->
            (n + 5 <= new)%nat).
  { intros new ([old new'] & -> & Hin)%list_elem_of_fmap.
    by eapply statistics_replacements_new. }
  apply NoDup_cons. split.
  - rewrite elem_of_cons. intros [?|Hin%Hrest]; lia.
  - apply NoDup_cons. split; [|by apply IH].
    intros Hin%Hrest. lia.
Qed.

(** When the replacements are collected, every variable held by the
    dictionary of offsets or by the dictionary of divisors is given one
    replacement, and nothing else is replaced: no variable is replaced
    twice, no new variable stands in for two, and every pair puts a
    variable created by this run in the place of one that was there
    before, so that no replacement is itself replaced. *)
Theorem each_statistic_replaced_once
    (computation_graph : ComputationGraph) (epsilon : scalar)
    (h h1 : heap) replacements :
  batch_normalize_replacements computation_graph epsilon h
  = (h1, ok replacements) ->
  let means := get_application_call_dict BATCH_NORM_OFFSET h computation_graph in
  let stdevs :=
    get_application_call_dict BATCH_NORM_DIVISOR h computation_graph in
  NoDup replacements.*1
  /\ NoDup replacements.*2
  /\ (forall old, old ∈ replacements.*1 <->
                  old ∈ means.*2 \/ old ∈ stdevs.*2)
  /\ (forall old new, (old, new) ∈ replacements ->
        (old < length h)%nat /\ (length h <= new < length h1)%nat).
Proof.
  intros Hrun means stdevs.
  set (inputs := get_application_call_dict INPUT h computation_graph).
  destruct (replacements_ok_inv _ _ _ _ _ Hrun) as [Hassert Hsome].
  fold means in Hsome.
  pose proof (replacements_run computation_graph epsilon h []) as Hfirst.
  rewrite !app_nil_r in Hfirst. cbn [length app] in Hfirst.
  rewrite Nat.add_0_r in Hfirst.
  rewrite Hfirst in Hrun by done. injection Hrun as <- <-.
  fold means stdevs inputs.
  pose proof Hassert as Hassert'. unfold assertions_hold in Hassert'.
  fold means stdevs inputs in Hassert'.
  apply andb_true_iff in Hassert' as [Hkeys Hdisj].
  assert (Hproc : Forall (processable means stdevs inputs h) means.*1).
  { apply Forall_forall. intros ac Hac.
    apply keys_processable; [done..|].
    by eapply Forall_forall in Hsome. }
  apply andb_true_iff in Hkeys as [Hks Hki].
  rewrite same_keys_spec in Hks. rewrite isdisjoint_spec in Hdisj.
  assert (Hmeans : forall k v, od_get means k = Some v ->
                               (k, v) ∈ means /\ get_application_call h v = k
                               /\ (v < length h)%nat).
  { intros k v Hget%od_get_elem_of. split; [done|].
    apply get_application_call_dict_elem_of in Hget as [Hfilter ->].
    split; [done|].
    apply variable_filter_elem_of in Hfilter as (_ & x & Hx & _).
    by eapply lookup_lt_Some. }
  assert (Hstdevs : forall k v, od_get stdevs k = Some v ->
                                (k, v) ∈ stdevs
                                /\ get_application_call h v = k
                                /\ (v < length h)%nat).
  { intros k v Hget%od_get_elem_of. split; [done|].
    apply get_application_call_dict_elem_of in Hget as [Hfilter ->].
    split; [done|].
    apply variable_filter_elem_of in Hfilter as (_ & x & Hx & _).
    by eapply lookup_lt_Some. }
  split; [|split; [|split]].
  - apply (statistics_replacements_olds_NoDup means stdevs inputs h
             (get_application_call h)); [done| | | |].
    + apply OrderedDict_keys_NoDup.
    + intros k v Hget. by apply Hmeans in Hget as (_ & ? & _).
    + intros k v Hget. by apply Hstdevs in Hget as (_ & ? & _).
    + intros k k' v [Hm _]%Hmeans [Hs _]%Hstdevs.
      apply (Hdisj v); apply list_elem_of_fmap; by eexists (_, v).
  - by eapply statistics_replacements_news_NoDup.
  - intros old.
    rewrite (statistics_replacements_olds_elem_of means stdevs inputs h)
      by done.
    split.
    + intros (k & Hk & [[Hm _]%Hmeans|[Hs _]%Hstdevs]);
        [left | right]; apply list_elem_of_fmap; by eexists (_, old).
    + intros [([k v] & -> & Hin)%list_elem_of_fmap
             |([k v] & -> & Hin)%list_elem_of_fmap]; exists k; simpl.
      * split; [apply list_elem_of_fmap; by exists (k, v)|].
        left. apply elem_of_od_get; [apply OrderedDict_keys_NoDup | done].
      * split; [apply Hks, list_elem_of_fmap; by exists (k, v)|].
        right. apply elem_of_od_get; [apply OrderedDict_keys_NoDup | done].
  - intros old new Hin. split.
    + assert (Hold : old ∈ (statistics_replacements means stdevs (length h)
                              means.*1).*1)
        by (apply list_elem_of_fmap; by exists (old, new)).
      apply (statistics_replacements_olds_elem_of means stdevs inputs h)
        in Hold as (k & _ & [Hget|Hget]); [| |done].
      * by apply Hmeans in Hget as (_ & _ & ?).
      * by apply Hstdevs in Hget as (_ & _ & ?).
    + split; [by eapply statistics_replacements_new|].
      clear -Hin Hproc. rewrite length_app.
      revert Hin. generalize (length h).
      induction Hproc as [|ac calls Hac _ IH]; intros n Hin.
      { by apply elem_of_nil in Hin. }
      destruct Hac as (call & mean & stdev & input & mean_var & input_var
                       & -> & Hmean & Hmv & Hinput & Hiv & Hstdev).
      revert Hin. cbn [statistics_replacements statistics_blocks].
      unfold pairs_of, block_of. rewrite Hmean, Hstdev, Hinput, Hmv, Hiv.
      rewrite length_app. cbn [length statistics_block].
      intros [Hin|Hin]%elem_of_app.
      * apply elem_of_cons in Hin as [[= -> ->]|Hin]; [lia|].
        apply list_elem_of_singleton in Hin as [= -> ->]. lia.
      * specialize (IH (n + 5)%nat Hin). lia.
Qed.

Lemma each_statistic_replaced_once_witness :
  exists (h1 : heap) replacements,
    batch_normalize_replacements example_graph default_epsilon example_heap
    = (h1, ok replacements)
    /\ NoDup replacements.*1
    /\ forall old new, (old, new) ∈ replacements ->
         (old < length example_heap)%nat
         /\ (length example_heap <= new < length h1)%nat.
Proof.
  destruct (batch_normalize_replacements example_graph default_epsilon
              example_heap) as [h1 [e|replacements]] eqn:Hrun.
  { vm_compute in Hrun. discriminate. }
  destruct (each_statistic_replaced_once example_graph default_epsilon
              example_heap h1 replacements Hrun) as (Hnd & _ & _ & Hnew).
  by exists h1, replacements.
Defined.

(** ** Graphs without batch normalization *)

Lemma OrderedDict_nil_iff {K V} `{EqDecision K} (pairs : list (K * V)) :
  OrderedDict pairs = [] <-> pairs = [].
Proof.
  split; [|by intros ->].
  destruct pairs as [|[k v] pairs]; [done|]. intros Hnil.
  assert (Hin : k ∈ (OrderedDict ((k, v) :: pairs)).*1)
    by (apply OrderedDict_keys; simpl; by left).
  rewrite Hnil in Hin. by apply elem_of_nil in Hin.
Qed.

Lemma get_application_call_dict_nil_iff r (h : heap) cg :
  get_application_call_dict r h cg = [] <->
  variable_filter r h (variables cg) = [].
Proof.
  unfold get_application_call_dict. rewrite OrderedDict_nil_iff.
  split; [apply fmap_nil_inv | by intros ->].
Qed.

(** On a graph without any offset of a batch normalization brick there is
    nothing to replace: the list of replacements is empty and no variable
    is created, provided the graph has no divisor and no input of such a
    brick either; if it has one, the first assertion fails. *)
Theorem without_offsets
    (computation_graph : ComputationGraph) (epsilon : scalar) (h : heap) :
  variable_filter BATCH_NORM_OFFSET h (variables computation_graph) = [] ->
  batch_normalize_replacements computation_graph epsilon h
  = (h,
     match variable_filter BATCH_NORM_DIVISOR h (variables computation_graph),
           variable_filter INPUT h (variables computation_graph) with
     | [], [] => ok []
     | _, _ => raise AssertionError
     end).
Proof.
  intros Hnone.
  pose proof (proj2 (get_application_call_dict_nil_iff BATCH_NORM_OFFSET h
                       computation_graph) Hnone) as Hmeans.
  assert (Hkeys : forall r,
            same_keys [] (get_application_call_dict r h computation_graph)
            = true ->
            variable_filter r h (variables computation_graph) = []).
  { intros r Hsame. apply get_application_call_dict_nil_iff.
    rewrite same_keys_spec in Hsame.
    destruct (get_application_call_dict r h computation_graph)
      as [|[k v] d]; [done|].
    exfalso. eapply elem_of_nil, Hsame. simpl. by left. }
  destruct (variable_filter BATCH_NORM_DIVISOR h (variables computation_graph))
    as [|v vs] eqn:Hdiv.
  - destruct (variable_filter INPUT h (variables computation_graph))
      as [|v vs] eqn:Hin.
    + unfold batch_normalize_replacements.
      rewrite Hmeans.
      rewrite (proj2 (get_application_call_dict_nil_iff BATCH_NORM_DIVISOR h
                        computation_graph) Hdiv).
      rewrite (proj2 (get_application_call_dict_nil_iff INPUT h
                        computation_graph) Hin).
      reflexivity.
    + apply replacements_raise_unless_asserted.
      unfold assertions_hold. rewrite Hmeans.
      destruct (same_keys [] (get_application_call_dict INPUT h
                                computation_graph)) eqn:Hsame.
      * apply Hkeys in Hsame. congruence.
      * by rewrite andb_false_r.
  - apply replacements_raise_unless_asserted.
    unfold assertions_hold. rewrite Hmeans.
    destruct (same_keys [] (get_application_call_dict BATCH_NORM_DIVISOR h
                              computation_graph)) eqn:Hsame; [|done].
    apply Hkeys in Hsame. congruence.
Qed.

Lemma without_offsets_witness :
  let h := [plain "x" Input [false] [];
            plain "y" (Apply (OtherOp "tanh") [0%nat]) [false] []] in
  let cg := {| outputs := [1%nat]; variables := [0%nat; 1%nat] |} in
  batch_normalize_replacements cg default_epsilon h = (h, ok []).
Proof.
  intros h cg.
  exact (without_offsets cg default_epsilon h eq_refl).
Defined.

(** ** The reduction axes *)

Lemma true_indices_from_bounds n bs :
  Forall (fun i => (n <= i < n + length bs)%nat) (true_indices_from n bs).
Proof.
  revert n. induction bs as [|b bs IH]; intros n; simpl; [constructor|].
  assert (Htail : Forall (fun i => (n <= i < n + S (length bs))%nat)
                    (true_indices_from (S n) bs)).
  { eapply Forall_impl; [apply IH|]. simpl. lia. }
  destruct b; [|done]. constructor; [lia | done].
Qed.

Lemma true_indices_from_ascending n bs (i j a b : nat) :
  true_indices_from n bs !! i = Some a ->
  true_indices_from n bs !! j = Some b ->
  (i < j)%nat -> (a < b)%nat.
Proof.
  revert n i j. induction bs as [|x bs IH]; intros n i j; simpl; [done|].
  destruct x; [|apply IH].
  destruct i as [|i], j as [|j]; simpl; try lia.
  - intros [= <-] Hb _.
    pose proof (true_indices_from_bounds (S n) bs) as Hbounds.
    eapply Forall_forall in Hbounds; [|by eapply list_elem_of_lookup_2].
    simpl in Hbounds. lia.
  - intros Ha Hb Hlt. apply (IH (S n) i j Ha Hb). lia.
Qed.

(** The axes [batch_normalize] reduces over come in ascending order,
    without repetition, are all axes of the offset variable, and there are
    as many as its broadcastable pattern has [True] entries. *)
Theorem axes_ascending (bs : list bool) :
  (forall (i j a b : nat),
     true_indices bs !! i = Some a -> true_indices bs !! j = Some b ->
     (i < j)%nat -> (a < b)%nat)
  /\ NoDup (true_indices bs)
  /\ Forall (fun i => (i < length bs)%nat) (true_indices bs)
  /\ length (true_indices bs) = count_occ bool_dec bs true.
Proof.
  split; [apply true_indices_from_ascending|]. split; [|split].
  - apply NoDup_alt. intros i j a Hi Hj.
    destruct (Nat.lt_trichotomy i j) as [Hlt|[->|Hlt]]; [|done|].
    + pose proof (true_indices_from_ascending _ _ _ _ _ _ Hi Hj Hlt). lia.
    + pose proof (true_indices_from_ascending _ _ _ _ _ _ Hj Hi Hlt). lia.
  - eapply Forall_impl; [apply (true_indices_from_bounds 0)|]. simpl. lia.
  - unfold true_indices. generalize 0%nat.
    induction bs as [|b bs IH]; intros n; simpl; [done|].
    destruct b; simpl; by rewrite IH.
Qed.

Lemma axes_ascending_witness :
  true_indices [true; false; true; true] = [0; 2; 3]%nat
  /\ NoDup (true_indices [true; false; true; true])
  /\ length (true_indices [true; false; true; true]) = 3%nat.
Proof.
  destruct (axes_ascending [true; false; true; true])
    as (_ & Hnd & _ & Hlen).
  by repeat split.
Defined.

(** ** Applying a brick, then normalizing *)

Lemma run_tensor_copy (g t : heap) x xv name :
  g !! x = Some xv ->
  tensor_copy x name (g ++ t)
  = (g ++ (t ++ [{| v_name := Some name;
                    v_origin := Apply (OtherOp "copy") [x];
                    v_broadcastable := v_broadcastable xv;
                    v_tag := empty_tag |}]),
     ok (length g + length t)%nat).
Proof.
  intros Hx. unfold tensor_copy.
  rewrite (run_bind_ok _ _ _ _ _ (run_read_old g t x xv Hx)).
  apply run_alloc.
Qed.

Lemma run_annotate (g t : heap) self call k x r :
  t !! k = Some x ->
  annotate self call (length g + k)%nat r (g ++ t)
  = (g ++ <[k := add_annotation (ACall call)
                   (add_annotation (ABrick self) (add_role r x))]> t,
     ok tt).
Proof.
  intros Hk. pose proof (lookup_lt_Some _ _ _ Hk) as Hlt.
  unfold annotate.
  rewrite (run_bind_ok _ _ _ _ _ (run_update_new g t k x _ Hk)).
  erewrite run_bind_ok
    by (apply run_update_new; by apply list_lookup_insert_eq).
  rewrite list_insert_insert_eq.
  erewrite run_update_new by (by apply list_lookup_insert_eq).
  by rewrite list_insert_insert_eq.
Qed.

Lemma run_read (h : heap) v x : h !! v = Some x -> read v h = (h, ok x).
Proof. intros Hv. unfold read. by rewrite Hv. Qed.

Lemma run_read_all (h : heap) vs xs :
  Forall2 (fun v x => h !! v = Some x) vs xs -> read_all vs h = (h, ok xs).
Proof.
  induction 1 as [|v x vs xs Hv _ IH]; [done|].
  cbn [read_all].
  rewrite (run_bind_ok _ _ _ _ _ (run_read h v x Hv)).
  by rewrite (run_bind_ok _ _ _ _ _ IH).
Qed.

Lemma run_elemwise (h : heap) o args xs :
  Forall2 (fun v x => h !! v = Some x) args xs ->
  elemwise o args h
  = (h ++ [fresh_variable (Apply o args) (elemwise_pattern xs)],
     ok (length h)).
Proof.
  intros Hargs. unfold elemwise.
  by rewrite (run_bind_ok _ _ _ _ _ (run_read_all h args xs Hargs)).
Qed.

Lemma lookups_exist (h : heap) vs :
  Forall (fun v => (v < length h)%nat) vs ->
  exists xs, Forall2 (fun v x => h !! v = Some x) vs xs.
Proof.
  induction 1 as [|v vs Hv _ [xs IH]]; [by exists []|].
  destruct (lookup_lt_is_Some_2 _ _ Hv) as [x Hx].
  exists (x :: xs). by constructor.
Qed.

(** The normalization only adds variables, at least one, none of them
    tagged, and returns the last. *)
Lemma run_batch_normalization (h : heap) inputs gamma beta mean std mode :
  Forall (fun v => (v < length h)%nat) [inputs; gamma; beta; mean; std] ->
  exists rest,
    batch_normalization inputs gamma beta mean std mode h
    = (h ++ rest, ok (length h + length rest - 1)%nat)
    /\ rest <> []
    /\ Forall (fun x => v_tag x = empty_tag) rest.
Proof.
  intros Hargs. rewrite !Forall_cons in Hargs.
  destruct Hargs as (Hi & Hg & Hb & Hm & Hs & _).
  destruct mode; unfold batch_normalization.
  - destruct (lookups_exist h [inputs; mean; std; gamma; beta]) as [xs Hxs];
      [by repeat constructor|].
    eexists [_]. rewrite (run_elemwise _ _ _ _ Hxs).
    split; [f_equal; f_equal; simpl; lia|].
    split; [done | by repeat constructor].
  - destruct (lookups_exist h [inputs; mean]) as [xs1 Hxs1];
      [by repeat constructor|].
    rewrite (run_bind_ok _ _ _ _ _ (run_elemwise _ _ _ _ Hxs1)).
    set (h1 := h ++ [_]).
    assert (Hlen1 : length h1 = S (length h)).
    { unfold h1. rewrite length_app. simpl. lia. }
    destruct (lookups_exist h1 [gamma; std]) as [xs2 Hxs2];
      [repeat constructor; lia|].
    rewrite (run_bind_ok _ _ _ _ _ (run_elemwise _ _ _ _ Hxs2)).
    set (h2 := h1 ++ [_]).
    assert (Hlen2 : length h2 = S (S (length h))).
    { unfold h2. rewrite length_app. simpl. lia. }
    destruct (lookups_exist h2 [length h; length h1]) as [xs3 Hxs3];
      [repeat constructor; lia|].
    rewrite (run_bind_ok _ _ _ _ _ (run_elemwise _ _ _ _ Hxs3)).
    set (h3 := h2 ++ [_]).
    assert (Hlen3 : length h3 = S (S (S (length h)))).
    { unfold h3. rewrite length_app. simpl. lia. }
    destruct (lookups_exist h3 [length h2; beta]) as [xs4 Hxs4];
      [repeat constructor; lia|].
    rewrite (run_elemwise _ _ _ _ Hxs4).
    eexists [_; _; _; _].
    split.
    { rewrite Hlen3. unfold h3, h2, h1. rewrite <- !app_assoc. cbn [app].
      f_equal. f_equal. simpl. lia. }
    split; [done | by repeat constructor].
Qed.

Lemma run_apply (self : graph_brick) input_ call (g : heap)
    mean_var stdev_var :
  g !! gb_population_mean self = Some mean_var ->
  g !! gb_population_stdev self = Some stdev_var ->
  Forall (fun v => (v < length g)%nat) [input_; gb_W self; gb_b self] ->
  exists rest,
    BatchNormalization_apply self input_ call g
    = (g ++ annotated_copy self call (gb_population_mean self) mean_var
              "population_offset" BATCH_NORM_OFFSET
         :: annotated_copy self call (gb_population_stdev self) stdev_var
              "population_divisor" BATCH_NORM_DIVISOR
         :: rest,
       ok (length g + 1 + length rest)%nat)
    /\ rest <> []
    /\ Forall (fun x => v_tag x = empty_tag) rest.
Proof.
  intros Hmean Hstdev Hargs. rewrite !Forall_cons in Hargs.
  destruct Hargs as (Hi & HW & Hb & _).
  replace (BatchNormalization_apply self input_ call g)
    with (BatchNormalization_apply self input_ call (g ++ []))
    by (by rewrite app_nil_r).
  unfold BatchNormalization_apply.
  erewrite run_bind_ok by (by apply run_tensor_copy).
  cbn [app length].
  erewrite run_bind_ok by (by apply run_tensor_copy).
  cbn [app length].
  erewrite run_bind_ok by (by apply (run_annotate g _ _ _ 0)).
  cbn [list_insert insert].
  erewrite run_bind_ok by (by apply (run_annotate g _ _ _ 1)).
  cbn [list_insert insert].
  set (copies := [_; _]).
  destruct (run_batch_normalization (g ++ copies) input_ (gb_W self)
              (gb_b self) (length g + 0)%nat (length g + 1)%nat
              (if gb_save_memory self then low_mem else high_mem))
    as (rest & Hrun & Hne & Htags).
  { rewrite length_app. simpl. repeat constructor; lia. }
  exists rest. rewrite Hrun. split; [|by split].
  rewrite <- app_assoc. f_equal. rewrite length_app.
  destruct rest; [done|]. simpl. f_equal. lia.
Qed.

Lemma variable_filter_passes r (h : heap) vars v :
  v ∈ variable_filter r h vars <-> v ∈ vars /\ passes r h v = true.
Proof.
  rewrite variable_filter_elem_of. unfold passes. split; intros [Hin Hsel].
  - destruct Hsel as (x & -> & Hsel). by split.
  - split; [done|]. destruct (h !! v) as [x|]; [by exists x | done].
Qed.

Lemma passes_extend r (h t : heap) v :
  (v < length h)%nat -> passes r (h ++ t) v = passes r h v.
Proof. intros Hv. unfold passes. by rewrite lookup_app_l. Qed.

Lemma get_application_call_extend (h t : heap) v :
  (v < length h)%nat ->
  get_application_call (h ++ t) v = get_application_call h v.
Proof. intros Hv. unfold get_application_call. by rewrite lookup_app_l. Qed.

Lemma filter_after_apply r (h t : heap) cg cg' target :
  valid_graph h cg ->
  (forall v, v ∈ variables cg -> v ∈ variables cg') ->
  target ∈ variables cg' ->
  passes r (h ++ t) target = true ->
  (forall v, v ∈ variables cg' ->
     v ∈ variables cg \/ v = target \/ passes r (h ++ t) v = false) ->
  forall v,
    v ∈ variable_filter r (h ++ t) (variables cg') <->
    v ∈ variable_filter r h (variables cg) \/ v = target.
Proof.
  intros Hvalid Hsub Htarget Hpass Hothers v.
  rewrite !variable_filter_passes.
  unfold valid_graph in Hvalid. rewrite Forall_forall in Hvalid.
  split.
  - intros [Hin Hv].
    destruct (Hothers v Hin) as [Hold|[->|Hno]]; [|by right|congruence].
    left. split; [done|]. by rewrite <- (passes_extend r h t) by auto.
  - intros [[Hin Hv]| ->]; [|done].
    split; [auto|]. by rewrite passes_extend by auto.
Qed.

Lemma owners_after_apply r (h t : heap) cg cg' target call :
  (forall v,
     v ∈ variable_filter r (h ++ t) (variables cg') <->
     v ∈ variable_filter r h (variables cg) \/ v = target) ->
  get_application_call (h ++ t) target = Some call ->
  forall c, c ∈ owners r (h ++ t) cg' <-> c ∈ owners r h cg \/ c = Some call.
Proof.
  intros Hfilter Hcall c. unfold owners. rewrite !list_elem_of_fmap. split.
  - intros (v & -> & [Hold| ->]%Hfilter); [left | by right].
    exists v. split; [|done].
    apply get_application_call_extend.
    pose proof (variable_filter_valid r h (variables cg)) as Hvalid.
    rewrite Forall_forall in Hvalid. auto.
  - intros [(v & -> & Hin)| ->].
    + exists v. split; [|apply Hfilter; by left].
      symmetry. apply get_application_call_extend.
      pose proof (variable_filter_valid r h (variables cg)) as Hvalid.
      rewrite Forall_forall in Hvalid. auto.
    + exists target. split; [done|]. apply Hfilter. by right.
Qed.

Lemma well_formed_assertions (h : heap) cg :
  well_formed h cg -> assertions_hold cg h = true.
Proof.
  intros [Hsame Hnone].
  destruct (assertions_hold cg h) eqn:Hassert; [done|].
  apply assertions_hold_false in Hassert as [Hne|(v & Hv1 & Hv2)]; [done|].
  destruct (Hnone v). split; by apply get_application_call_dict_values.
Qed.

Lemma graph_after_apply_spec (h' : heap) cg cg' input_ mean stdev :
  graph_after_apply h' cg cg' input_ mean stdev = true ->
  (forall v, v ∈ variables cg -> v ∈ variables cg')
  /\ input_ ∈ variables cg' /\ mean ∈ variables cg' /\ stdev ∈ variables cg'
  /\ forall v, v ∈ variables cg' ->
       v ∈ variables cg \/ v ∈ [input_; mean; stdev]
       \/ ((v < length h')%nat
           /\ forall r, r ∈ [BATCH_NORM_OFFSET; BATCH_NORM_DIVISOR; INPUT] ->
                passes r h' v = false).
Proof.
  unfold graph_after_apply.
  intros [Hsub Hrest]%andb_true_iff.
  rewrite forallb_forall in Hsub. rewrite forallb_forall in Hrest.
  assert (Hin : forall v, v ∈ variables cg ++ [input_; mean; stdev] ->
                  v ∈ variables cg').
  { intros v Hv%list_elem_of_In. by apply Hsub, bool_decide_eq_true in Hv. }
  split; [intros v Hv; apply Hin; set_solver|].
  do 3 (split; [apply Hin; set_solver|]).
  intros v Hv%list_elem_of_In. apply Hrest in Hv.
  apply orb_true_iff in Hv as [[Hv|Hv]%orb_true_iff|Hv].
  - left. by apply bool_decide_eq_true in Hv.
  - right. left. by apply bool_decide_eq_true in Hv.
  - right. right.
    apply andb_true_iff in Hv as [Hlt%bool_decide_eq_true Hno].
    split; [done|].
    apply negb_true_iff, orb_false_iff in Hno as [Hno Hi].
    apply orb_false_iff in Hno as [Ho Hd].
    intros r Hr.
    repeat (apply elem_of_cons in Hr as [->|Hr]; [done|]).
    by apply elem_of_nil in Hr.
Qed.

Section apply_facts.
Variables (self : graph_brick) (input_ : var_id) (call : ApplicationCall).
Variables (h : heap) (cg cg' : ComputationGraph).
Variables (mean_var stdev_var : variable) (rest : list variable).

Let mean := length h.
Let stdev := (length h + 1)%nat.
Let t : heap :=
  annotated_copy self call (gb_population_mean self) mean_var
    "population_offset" BATCH_NORM_OFFSET
  :: annotated_copy self call (gb_population_stdev self) stdev_var
       "population_divisor" BATCH_NORM_DIVISOR
  :: rest.

Hypothesis Hvalid : valid_graph h cg.
Hypothesis Hbn : brick_is_batch_normalization (gb_brick self) = true.
Hypothesis Hdec : decorated_input h input_ call = true.
Hypothesis Hgraph : graph_after_apply (h ++ t) cg cg' input_ mean stdev = true.

Lemma decorated_input_spec :
  (input_ < length h)%nat
  /\ passes INPUT h input_ = true
  /\ passes BATCH_NORM_OFFSET h input_ = false
  /\ passes BATCH_NORM_DIVISOR h input_ = false
  /\ get_application_call h input_ = Some call.
Proof using Hdec.
  unfold decorated_input in Hdec.
  apply andb_true_iff in Hdec as [Hrest Hcall%bool_decide_eq_true].
  apply andb_true_iff in Hrest as [Hrest Hd%negb_true_iff].
  apply andb_true_iff in Hrest as [Hi Ho%negb_true_iff].
  split; [|done].
  unfold passes in Hi. destruct (h !! input_) eqn:Hx; [|done].
  by eapply lookup_lt_Some.
Qed.

Lemma passes_mean r :
  passes r (h ++ t) mean = bool_decide (r = BATCH_NORM_OFFSET).
Proof using Hbn.
  unfold passes, mean.
  rewrite <- (Nat.add_0_r (length h)), lookup_new. simpl.
  unfold selected. simpl. rewrite Hbn, andb_true_r.
  apply bool_decide_ext. rewrite list_elem_of_singleton. naive_solver.
Qed.

Lemma passes_stdev r :
  passes r (h ++ t) stdev = bool_decide (r = BATCH_NORM_DIVISOR).
Proof using Hbn.
  unfold passes, stdev. rewrite lookup_new. simpl.
  unfold selected. simpl. rewrite Hbn, andb_true_r.
  apply bool_decide_ext. rewrite list_elem_of_singleton. naive_solver.
Qed.

Lemma owner_of_mean : get_application_call (h ++ t) mean = Some call.
Proof.
  unfold get_application_call, mean.
  by rewrite <- (Nat.add_0_r (length h)), lookup_new.
Qed.

Lemma owner_of_stdev : get_application_call (h ++ t) stdev = Some call.
Proof. unfold get_application_call, stdev. by rewrite lookup_new. Qed.

Lemma filter_with_target r target :
  r ∈ [BATCH_NORM_OFFSET; BATCH_NORM_DIVISOR; INPUT] ->
  target ∈ [input_; mean; stdev] ->
  passes r (h ++ t) target = true ->
  (forall v, v ∈ [input_; mean; stdev] -> v <> target ->
     passes r (h ++ t) v = false) ->
  forall v,
    v ∈ variable_filter r (h ++ t) (variables cg') <->
    v ∈ variable_filter r h (variables cg) \/ v = target.
Proof using Hvalid Hgraph.
  intros Hr Htarget Hpass Hothers.
  destruct (graph_after_apply_spec _ _ _ _ _ _ Hgraph)
    as (Hsub & Hi & Hm & Hs & Hrest).
  apply filter_after_apply; [done..| |done|].
  - repeat (apply elem_of_cons in Htarget as [->|Htarget]; [done|]).
    by apply elem_of_nil in Htarget.
  - intros v Hv. destruct (Hrest v Hv) as [Hold|[Hthree|[_ Hno]]].
    + by left.
    + destruct (decide (v = target)) as [->|Hne]; [right; by left|].
      right. right. by apply Hothers.
    + right. right. by apply Hno.
Qed.

Lemma offsets_after_apply v :
  v ∈ variable_filter BATCH_NORM_OFFSET (h ++ t) (variables cg') <->
  v ∈ variable_filter BATCH_NORM_OFFSET h (variables cg) \/ v = mean.
Proof using Hvalid Hbn Hdec Hgraph.
  destruct decorated_input_spec as (Hlt & Hi & Ho & Hd & Hcall).
  apply filter_with_target; [set_solver|set_solver|by rewrite passes_mean|].
  intros w Hw Hne.
  repeat (apply elem_of_cons in Hw as [->|Hw]).
  - by rewrite passes_extend.
  - done.
  - by rewrite passes_stdev.
  - by apply elem_of_nil in Hw.
Qed.

Lemma divisors_after_apply v :
  v ∈ variable_filter BATCH_NORM_DIVISOR (h ++ t) (variables cg') <->
  v ∈ variable_filter BATCH_NORM_DIVISOR h (variables cg) \/ v = stdev.
Proof using Hvalid Hbn Hdec Hgraph.
  destruct decorated_input_spec as (Hlt & Hi & Ho & Hd & Hcall).
  apply filter_with_target; [set_solver|set_solver|by rewrite passes_stdev|].
  intros w Hw Hne.
  repeat (apply elem_of_cons in Hw as [->|Hw]).
  - by rewrite passes_extend.
  - by rewrite passes_mean.
  - done.
  - by apply elem_of_nil in Hw.
Qed.

Lemma inputs_after_apply v :
  v ∈ variable_filter INPUT (h ++ t) (variables cg') <->
  v ∈ variable_filter INPUT h (variables cg) \/ v = input_.
Proof using Hvalid Hbn Hdec Hgraph.
  destruct decorated_input_spec as (Hlt & Hi & Ho & Hd & Hcall).
  apply filter_with_target;
    [set_solver|set_solver|by rewrite passes_extend|].
  intros w Hw Hne.
  repeat (apply elem_of_cons in Hw as [->|Hw]).
  - done.
  - by rewrite passes_mean.
  - by rewrite passes_stdev.
  - by apply elem_of_nil in Hw.
Qed.

Lemma valid_after_apply : valid_graph (h ++ t) cg'.
Proof using Hvalid Hdec Hgraph.
  destruct decorated_input_spec as (Hlt & _).
  destruct (graph_after_apply_spec _ _ _ _ _ _ Hgraph) as (_ & _ & _ & _ & Hrest).
  unfold valid_graph in *. rewrite Forall_forall in Hvalid.
  apply Forall_forall. intros v Hv. rewrite length_app. simpl.
  destruct (Hrest v Hv) as [Hold|[Hthree|[Hv' _]]].
  - apply Hvalid in Hold. lia.
  - repeat (apply elem_of_cons in Hthree as [->|Hthree]);
      [lia|unfold mean; lia|unfold stdev; lia|by apply elem_of_nil in Hthree].
  - by rewrite length_app in Hv'.
Qed.

Lemma owners_offset_after_apply c :
  c ∈ owners BATCH_NORM_OFFSET (h ++ t) cg' <->
  c ∈ owners BATCH_NORM_OFFSET h cg \/ c = Some call.
Proof using Hvalid Hbn Hdec Hgraph.
  apply (owners_after_apply _ _ _ _ _ mean);
    [apply offsets_after_apply|apply owner_of_mean].
Qed.

Lemma owners_divisor_after_apply c :
  c ∈ owners BATCH_NORM_DIVISOR (h ++ t) cg' <->
  c ∈ owners BATCH_NORM_DIVISOR h cg \/ c = Some call.
Proof using Hvalid Hbn Hdec Hgraph.
  apply (owners_after_apply _ _ _ _ _ stdev);
    [apply divisors_after_apply|apply owner_of_stdev].
Qed.

Lemma owners_input_after_apply c :
  c ∈ owners INPUT (h ++ t) cg' <->
  c ∈ owners INPUT h cg \/ c = Some call.
Proof using Hvalid Hbn Hdec Hgraph.
  destruct decorated_input_spec as (Hlt & Hi & Ho & Hd & Hcall).
  apply (owners_after_apply _ _ _ _ _ input_); [apply inputs_after_apply|].
  by rewrite get_application_call_extend.
Qed.

Lemma well_formed_after_apply :
  well_formed h cg -> well_formed (h ++ t) cg'.
Proof using Hvalid Hbn Hdec Hgraph.
  intros [[Hod Hoi] Hnone]. split; [split|].
  - intros c. rewrite owners_offset_after_apply, owners_divisor_after_apply.
    by rewrite Hod.
  - intros c. rewrite owners_offset_after_apply, owners_input_after_apply.
    by rewrite Hoi.
  - intros v [Ho Hd].
    apply offsets_after_apply in Ho. apply divisors_after_apply in Hd.
    pose proof (variable_filter_valid BATCH_NORM_OFFSET h (variables cg))
      as Hlo.
    pose proof (variable_filter_valid BATCH_NORM_DIVISOR h (variables cg))
      as Hld.
    rewrite Forall_forall in Hlo. rewrite Forall_forall in Hld.
    destruct Ho as [Ho| ->], Hd as [Hd|Hd].
    + by apply (Hnone v).
    + subst v. apply Hlo in Ho. unfold stdev in Ho. lia.
    + apply Hld in Hd. unfold mean in Hd. lia.
    + unfold mean, stdev in Hd. lia.
Qed.

End apply_facts.

(** [apply] on a decorated input leaves the store as it was and adds to
    it, first, a copy of the population mean annotated as offset and a copy
    of the population standard deviation annotated as divisor, each owned
    by the application call and with the broadcastable pattern of its
    source, and then the variables of the normalization, which carry no
    tag; it returns the last of them.  A graph that is well formed before
    the application is well formed with the input, the offset and the
    divisor of the application added: both assertions of [batch_normalize]
    hold on it. *)
Theorem apply_then_batch_normalize
    (self : graph_brick) (input_ : var_id) (call : ApplicationCall)
    (h : heap) (cg cg' : ComputationGraph) :
  let h' := fst (BatchNormalization_apply self input_ call h) in
  valid_graph h cg ->
  well_formed h cg ->
  brick_is_batch_normalization (gb_brick self) = true ->
  decorated_input h input_ call = true ->
  Forall (fun v => (v < length h)%nat)
    [gb_population_mean self; gb_population_stdev self;
     gb_W self; gb_b self] ->
  graph_after_apply h' cg cg' input_ (length h) (length h + 1) = true ->
  (exists mean stdev rest,
     h' = h ++ mean :: stdev :: rest
     /\ rest <> []
     /\ snd (BatchNormalization_apply self input_ call h)
        = ok (length h' - 1)%nat
     /\ selected BATCH_NORM_OFFSET mean = true
     /\ selected BATCH_NORM_DIVISOR stdev = true
     /\ get_application_call_of (annotations (v_tag mean)) = Some call
     /\ get_application_call_of (annotations (v_tag stdev)) = Some call
     /\ v_broadcastable <$> h !! gb_population_mean self
        = Some (v_broadcastable mean)
     /\ v_broadcastable <$> h !! gb_population_stdev self
        = Some (v_broadcastable stdev)
     /\ Forall (fun x => v_tag x = empty_tag) rest)
  /\ valid_graph h' cg'
  /\ well_formed h' cg'
  /\ assertions_hold cg' h' = true.
Proof.
  intros h' Hvalid Hwf Hbn Hdec Hparams Hgraph.
  destruct (decorated_input_spec input_ call h Hdec) as (Hlt & _).
  rewrite !Forall_cons in Hparams.
  destruct Hparams as (Hm & Hs & HW & Hb & _).
  destruct (lookup_lt_is_Some_2 _ _ Hm) as [mean_var Hmean].
  destruct (lookup_lt_is_Some_2 _ _ Hs) as [stdev_var Hstdev].
  destruct (run_apply self input_ call h _ _ Hmean Hstdev)
    as (rest & Hrun & Hne & Htags); [by repeat constructor|].
  subst h'. rewrite Hrun in Hgraph |- *. simpl fst in *. simpl snd.
  split.
  { eexists _, _, rest. split; [reflexivity|]. split; [done|].
    split; [f_equal; rewrite length_app; simpl; lia|].
    unfold selected. simpl. rewrite Hbn, Hmean, Hstdev. simpl.
    repeat split; try done; apply andb_true_iff; split; try done;
      apply bool_decide_eq_true; set_solver. }
  split; [by eapply valid_after_apply|].
  assert (Hwf' : well_formed
                   (h ++ annotated_copy self call (gb_population_mean self)
                           mean_var "population_offset" BATCH_NORM_OFFSET
                      :: annotated_copy self call (gb_population_stdev self)
                           stdev_var "population_divisor" BATCH_NORM_DIVISOR
                      :: rest) cg').
  { by eapply well_formed_after_apply. }
  split; [done | by apply well_formed_assertions].
Qed.

Lemma apply_then_batch_normalize_witness :
  well_formed apply_heap apply_graph
  /\ decorated_input apply_heap 1%nat example_call = true
  /\ well_formed applied_heap applied_graph
  /\ assertions_hold applied_graph applied_heap = true
  /\ snd (BatchNormalization_apply example_graph_brick 1%nat example_call
            apply_heap) = ok 8%nat.
Proof.
  assert (Hvalid : valid_graph apply_heap apply_graph).
  { unfold valid_graph. cbn. repeat constructor; lia. }
  assert (Hwf : well_formed apply_heap apply_graph).
  { split; [split; intros c; by vm_compute|].
    intros v [Hv _]. vm_compute in Hv. by apply elem_of_nil in Hv. }
  assert (Hparams : Forall (fun v => (v < length apply_heap)%nat)
                      [gb_population_mean example_graph_brick;
                       gb_population_stdev example_graph_brick;
                       gb_W example_graph_brick; gb_b example_graph_brick]).
  { cbn. repeat constructor; lia. }
  destruct (apply_then_batch_normalize example_graph_brick 1%nat example_call
              apply_heap apply_graph applied_graph
              Hvalid Hwf eq_refl eq_refl Hparams eq_refl)
    as ((_ & _ & _ & _ & _ & Hout & _) & _ & Hwf' & Hassert).
  split; [done|]. split; [reflexivity|]. split; [exact Hwf'|].
  split; [exact Hassert|]. exact Hout.
Defined.

Lemma od_get_after_apply r (h t : heap) cg cg' target call :
  (forall v,
     v ∈ variable_filter r (h ++ t) (variables cg') <->
     v ∈ variable_filter r h (variables cg) \/ v = target) ->
  get_application_call (h ++ t) target = Some call ->
  Some call ∉ owners r h cg ->
  od_get (get_application_call_dict r (h ++ t) cg') (Some call) = Some target.
Proof.
  intros Hfilter Hcall Hfresh.
  assert (Hkey : Some call ∈ (get_application_call_dict r (h ++ t) cg').*1).
  { apply get_application_call_dict_keys, list_elem_of_fmap.
    exists target. split; [done|]. apply Hfilter. by right. }
  destruct (od_get_is_Some _ _ Hkey) as [v Hget]. rewrite Hget. f_equal.
  apply od_get_elem_of, get_application_call_dict_elem_of in Hget
    as [Hin Hv].
  apply Hfilter in Hin as [Hold| ->]; [|done].
  destruct Hfresh. unfold owners. apply list_elem_of_fmap.
  exists v. split; [|done]. rewrite Hv.
  apply get_application_call_extend.
  pose proof (variable_filter_valid r h (variables cg)) as Hvalid.
  rewrite Forall_forall in Hvalid. auto.
Qed.

(** A brick applied for an application call that owns no offset yet is
    normalized by the statistics of the very input it was applied to:
    whenever [batch_normalize] returns on the graph with the application,
    the offset copy made by [apply] is replaced by the mean of [input_],
    and the divisor copy by the square root of the stabilized variance of
    [input_], over the axes on which the population mean of the brick is
    broadcastable. *)
Theorem applied_call_statistics
    (self : graph_brick) (input_ : var_id) (call : ApplicationCall)
    (h : heap) (cg cg' : ComputationGraph) (epsilon : option scalar) :
  let h' := fst (BatchNormalization_apply self input_ call h) in
  valid_graph h cg ->
  well_formed h cg ->
  brick_is_batch_normalization (gb_brick self) = true ->
  decorated_input h input_ call = true ->
  Forall (fun v => (v < length h)%nat)
    [gb_population_mean self; gb_population_stdev self;
     gb_W self; gb_b self] ->
  graph_after_apply h' cg cg' input_ (length h) (length h + 1) = true ->
  (Some call ∉ owners BATCH_NORM_OFFSET h cg) ->
  forall (h'' : heap) cg'',
    batch_normalize cg' epsilon h' = (h'', ok cg'') ->
    exists population_mean
           minibatch_mean variance constant stabilized minibatch_std,
      h !! gb_population_mean self = Some population_mean
      /\ let axes := true_indices (v_broadcastable population_mean) in
         v_origin <$> h'' !! minibatch_mean
         = Some (Apply (Mean axes true) [input_])
         /\ replacement_of ∘ v_tag <$> h'' !! minibatch_mean
            = Some (Some (length h))
         /\ v_origin <$> h'' !! minibatch_std
            = Some (Apply Sqrt [stabilized])
         /\ replacement_of ∘ v_tag <$> h'' !! minibatch_std
            = Some (Some (length h + 1)%nat)
         /\ v_origin <$> h'' !! stabilized
            = Some (Apply Add [variance; constant])
         /\ v_origin <$> h'' !! variance
            = Some (Apply (Variance axes true) [input_])
         /\ v_origin <$> h'' !! constant
            = Some (Const (default default_epsilon epsilon)).
Proof.
  intros h' Hvalid Hwf Hbn Hdec Hparams Hgraph Hfresh h'' cg'' Hbnrun.
  destruct (decorated_input_spec input_ call h Hdec)
    as (Hlt & _ & _ & _ & Hcall).
  rewrite !Forall_cons in Hparams.
  destruct Hparams as (Hm & Hs & HW & Hb & _).
  destruct (lookup_lt_is_Some_2 _ _ Hm) as [mean_var Hmean].
  destruct (lookup_lt_is_Some_2 _ _ Hs) as [stdev_var Hstdev].
  destruct (run_apply self input_ call h _ _ Hmean Hstdev)
    as (rest & Hrun & _); [by repeat constructor|].
  subst h'. rewrite Hrun in Hgraph, Hbnrun. simpl fst in *.
  set (t := _ :: _ :: rest) in *.
  destruct Hwf as [[Hod Hoi] _].
  set (means := get_application_call_dict BATCH_NORM_OFFSET (h ++ t) cg').
  set (stdevs := get_application_call_dict BATCH_NORM_DIVISOR (h ++ t) cg').
  set (inputs := get_application_call_dict INPUT (h ++ t) cg').
  assert (Hgm : od_get means (Some call) = Some (length h)).
  { apply (od_get_after_apply _ h t cg); [|by apply owner_of_mean|done].
    by apply (offsets_after_apply self input_ call h cg cg'
                mean_var stdev_var rest). }
  assert (Hgs : od_get stdevs (Some call) = Some (length h + 1)%nat).
  { apply (od_get_after_apply _ h t cg);
      [|by apply owner_of_stdev|by rewrite <- Hod].
    by apply (divisors_after_apply self input_ call h cg cg'
                mean_var stdev_var rest). }
  assert (Hgi : od_get inputs (Some call) = Some input_).
  { apply (od_get_after_apply _ h t cg); [| |by rewrite <- Hoi].
    - by apply (inputs_after_apply self input_ call h cg cg'
                  mean_var stdev_var rest).
    - by rewrite get_application_call_extend. }
  destruct (batch_normalize_ok_inv _ _ _ _ _ Hbnrun)
    as (Hassert & Hkeys & _ & t' & ->).
  fold means stdevs inputs in Hkeys |- *.
  assert (Hkey : Some call ∈ means.*1).
  { apply list_elem_of_fmap. exists (Some call, length h).
    split; [done|]. by apply od_get_elem_of. }
  assert (Hproc : Forall (processable means stdevs inputs (h ++ t)) means.*1).
  { apply Forall_forall. intros ac Hac.
    unfold assertions_hold in Hassert.
    apply andb_true_iff in Hassert as [Hsame _].
    apply keys_processable; [done..|].
    by eapply Forall_forall in Hkeys. }
  destruct (statistics_blocks_elem means stdevs inputs
              (default default_epsilon epsilon) (h ++ t) _ Hproc
              (length (h ++ t)) _ Hkey)
    as (pre & post & call' & mean' & stdev' & input' & mean_var' & input_var'
        & [= <-] & Hmean' & Hmv' & Hinput' & Hiv' & Hstdev' & -> & _).
  rewrite Hgm in Hmean'. injection Hmean' as <-.
  rewrite Hgs in Hstdev'. injection Hstdev' as <-.
  rewrite Hgi in Hinput'. injection Hinput' as <-.
  assert (mean_var' = annotated_copy self call (gb_population_mean self)
                        mean_var "population_offset" BATCH_NORM_OFFSET)
    as ->.
  { rewrite <- (Nat.add_0_r (length h)), lookup_new in Hmv'.
    by injection Hmv'. }
  set (n := (length (h ++ t) + length pre)%nat).
  exists mean_var, (n + 0)%nat, (n + 1)%nat, (n + 2)%nat, (n + 3)%nat,
    (n + 4)%nat.
  split; [done|]. cbv zeta.
  unfold n. rewrite !lookup_block_final by (simpl; lia).
  repeat split; reflexivity.
Qed.

Lemma applied_call_statistics_witness :
  (Some example_call ∉ owners BATCH_NORM_OFFSET apply_heap apply_graph)
  /\ exists (h'' : heap) cg'' minibatch_mean,
       batch_normalize applied_graph None applied_heap = (h'', ok cg'')
       /\ v_origin <$> h'' !! minibatch_mean
          = Some (Apply (Mean [0%nat] true) [1%nat])
       /\ replacement_of ∘ v_tag <$> h'' !! minibatch_mean
          = Some (Some 6%nat).
Proof.
  assert (Hvalid : valid_graph apply_heap apply_graph).
  { unfold valid_graph. cbn. repeat constructor; lia. }
  assert (Hwf : well_formed apply_heap apply_graph).
  { split; [split; intros c; by vm_compute|].
    intros v [Hv _]. vm_compute in Hv. by apply elem_of_nil in Hv. }
  assert (Hparams : Forall (fun v => (v < length apply_heap)%nat)
                      [gb_population_mean example_graph_brick;
                       gb_population_stdev example_graph_brick;
                       gb_W example_graph_brick; gb_b example_graph_brick]).
  { cbn. repeat constructor; lia. }
  assert (Hfresh : Some example_call
                   ∉ owners BATCH_NORM_OFFSET apply_heap apply_graph).
  { intros Hin. vm_compute in Hin. by apply elem_of_nil in Hin. }
  split; [exact Hfresh|].
  destruct (batch_normalize applied_graph None applied_heap)
    as [h'' [e|cg'']] eqn:Hrun; [vm_compute in Hrun; discriminate|].
  destruct (applied_call_statistics example_graph_brick 1%nat example_call
              apply_heap apply_graph applied_graph None
              Hvalid Hwf eq_refl eq_refl Hparams eq_refl Hfresh h'' cg'' Hrun)
    as (population_mean & minibatch_mean & variance & constant
        & stabilized & minibatch_std & [= <-] & Hmean & Hof & _).
  exists h'', cg'', minibatch_mean. by repeat split.
Defined.

(** * The graph [batch_normalize] returns *)

Lemma topological_extend (h t : heap) vars :
  Forall (fun v => (v < length h)%nat) vars ->
  topological (h ++ t) vars = topological h vars.
Proof.
  induction 1 as [|v vars Hv _ IH]; [done|].
  cbn [topological]. by rewrite IH, lookup_app_l.
Qed.






